(** * Processing nodes of the OpenBCI Python framework

    A shallow embedding of the three transformation nodes
    ([SlidingWindowSegmenter], [Interpolate], [DataReplicate]) together with
    the properties their specification states about them.

    Python integers are unbounded, hence [Z]; Python lists are [list];
    dictionaries are [gmap]; a raised exception is the [Raise] outcome of the
    [result] monad. *)

From stdpp Require Import gmap strings list fin_maps.
From Stdlib Require Import ZArith Lia.

Open Scope Z_scope.

(* ===================================================================== *)
(** * Part I: definitions                                                 *)
(* ===================================================================== *)

(** ** Exceptions and outcomes *)

Inductive exn :=
  | KeyError
  | IndexError
  | TypeError
  | ValueError
  | MissingParameterError (module name parameter : string)
  | InvalidParameterValue (module name parameter cause : string).

(** The outcome of running a piece of Python: a value, a raised exception,
    or a [while] loop that was still running when the step budget ended. *)
Inductive result (A : Type) :=
  | Ok (a : A)
  | Raise (e : exn)
  | OutOfFuel.
Arguments Ok {A} a.
Arguments Raise {A} e.
Arguments OutOfFuel {A}.

#[export] Instance result_ret : MRet result := λ A a, Ok a.
#[export] Instance result_bind : MBind result := λ A B f m,
  match m with
  | Ok a => f a
  | Raise e => Raise e
  | OutOfFuel => OutOfFuel
  end.

(** [if c: raise e] *)
Definition raise_if (c : bool) (e : exn) : result unit :=
  if c then Raise e else Ok tt.

(** [for x in xs: s = body(x, s)], stopping at the first exception. *)
Fixpoint for_each {X S : Type} (xs : list X) (body : X → S → result S) (s : S)
  : result S :=
  match xs with
  | [] => Ok s
  | x :: xs' => s' ← body x s; for_each xs' body s'
  end.

(** [while cond(s): s = body(s)] with a step budget. The condition is tested
    before the budget, so a loop that has finished never reports
    [OutOfFuel]. *)
Fixpoint while {S : Type} (fuel : nat) (cond : S → bool) (body : S → result S)
  (s : S) : result S :=
  match fuel with
  | O => if cond s then OutOfFuel else Ok s
  | S fuel' => if cond s then s' ← body s; while fuel' cond body s' else Ok s
  end.

(** ** Python lists *)

(** [range(a, b)] *)
Definition py_range (a b : Z) : list Z := seqZ a (b - a).

(** [len(l)] *)
Definition len {A} (l : list A) : Z := Z.of_nat (length l).

(** Clamping of a slice bound, as Python does it: a negative bound counts
    from the end, and the result is brought into [0, len]. *)
Definition slice_bound (n i : Z) : Z :=
  if i <? 0 then Z.max 0 (i + n) else Z.min i n.

(** [l[a:b]]; never raises. *)
Definition py_slice {A} (l : list A) (a b : Z) : list A :=
  let lo := slice_bound (len l) a in
  let hi := slice_bound (len l) b in
  take (Z.to_nat (hi - lo)) (drop (Z.to_nat lo) l).

(** Position designated by a subscript [i] in a list of length [n]:
    negative subscripts count from the end; out of range is [IndexError]. *)
Definition subscript (n i : Z) : result nat :=
  let j := if i <? 0 then i + n else i in
  if (0 <=? j) && (j <? n) then Ok (Z.to_nat j) else Raise IndexError.

(** [l[i]] *)
Definition py_getitem {A} (l : list A) (i : Z) : result A :=
  j ← subscript (len l) i;
  match l !! j with
  | Some x => Ok x
  | None => Raise IndexError
  end.

(** [l[i].append(x)] on a list of lists: the inner list is mutated in
    place. *)
Definition py_append_at {A} (l : list (list A)) (i : Z) (x : A)
  : result (list (list A)) :=
  j ← subscript (len l) i;
  Ok (alter (λ inner, inner ++ [x]) j l).

(** [[x] * k]; a negative [k] gives the empty list. *)
Definition py_repeat {A} (x : A) (k : Z) : list A := replicate (Z.to_nat k) x.

(** [max(l)] on a list of integers. *)
Definition py_max (l : list Z) : result Z :=
  match l with
  | [] => Raise ValueError
  | x :: l' => Ok (foldl Z.max x l')
  end.

(** [[e for _ in range(a, b)]] where evaluating [e] may raise: [e] is
    evaluated once per iteration. *)
Fixpoint py_comprehension {X A} (e : result A) (xs : list X) : result (list A) :=
  match xs with
  | [] => Ok []
  | _ :: xs' => v ← e; vs ← py_comprehension e xs'; Ok (v :: vs)
  end.

(** ** Dynamically typed parameter values *)

(** The parameters of a node come from its JSON configuration: [None],
    booleans, integers, floats, strings; [PyFloat m e] is the finite float
    [m * 2^e], and [PyOther] stands for the lists and dictionaries. *)
Inductive pyval :=
  | PyNone
  | PyBool (b : bool)
  | PyInt (z : Z)
  | PyStr (s : string)
  | PyOther
  | PyFloat (m e : Z).

(** [type(v) is int]: [bool] is a different type. *)
Definition is_int (v : pyval) : bool :=
  match v with PyInt _ => true | _ => false end.

(** [type(v) is str] *)
Definition is_str (v : pyval) : bool :=
  match v with PyStr _ => true | _ => false end.

(** [type(v) is bool] *)
Definition is_bool (v : pyval) : bool :=
  match v with PyBool _ => true | _ => false end.

(** Numeric reading of a value in a comparison; booleans compare as 0/1. *)
Definition num_of (v : pyval) : result Z :=
  match v with
  | PyInt z => Ok z
  | PyBool b => Ok (if b then 1 else 0)
  | _ => Raise TypeError
  end.

(** The same reading when a float takes part: the number is
    [mantissa * 2^exponent], and Python compares integers and floats by
    their exact values. *)
Definition dyadic_of (v : pyval) : result (Z * Z) :=
  match v with
  | PyFloat m e => Ok (m, e)
  | _ => z ← num_of v; Ok (z, 0)
  end.

(** The mantissas of two such numbers over their smaller exponent. *)
Definition aligned (x y : Z * Z) : Z * Z :=
  let e := Z.min (snd x) (snd y) in
  (fst x * 2 ^ (snd x - e), fst y * 2 ^ (snd y - e)).

(** [a < b], [a <= b], [a >= b] *)
Definition py_lt (a b : pyval) : result bool :=
  match a, b with
  | PyFloat _ _, _ | _, PyFloat _ _ =>
      x ← dyadic_of a; y ← dyadic_of b;
      Ok (fst (aligned x y) <? snd (aligned x y))
  | _, _ => x ← num_of a; y ← num_of b; Ok (x <? y)
  end.
Definition py_le (a b : pyval) : result bool :=
  match a, b with
  | PyFloat _ _, _ | _, PyFloat _ _ =>
      x ← dyadic_of a; y ← dyadic_of b;
      Ok (fst (aligned x y) <=? snd (aligned x y))
  | _, _ => x ← num_of a; y ← num_of b; Ok (x <=? y)
  end.
Definition py_ge (a b : pyval) : result bool :=
  match a, b with
  | PyFloat _ _, _ | _, PyFloat _ _ =>
      x ← dyadic_of a; y ← dyadic_of b;
      Ok (snd (aligned x y) <=? fst (aligned x y))
  | _, _ => x ← num_of a; y ← num_of b; Ok (y <=? x)
  end.

(** [a == True]: [True] is the number 1, so [1 == True] and [1.0 == True]
    hold. *)
Definition py_eq_True (a : pyval) : bool :=
  match a with
  | PyBool b => b
  | PyInt z => z =? 1
  | PyFloat m e => fst (aligned (m, e) (1, 0)) =? snd (aligned (m, e) (1, 0))
  | _ => false
  end.

(** [v in [s1, s2, ...]] for a list of string literals. *)
Definition py_in_strs (v : pyval) (l : list string) : bool :=
  match v with
  | PyStr s => bool_decide (s ∈ l)
  | _ => false
  end.

(** [k in d] and [d[k]] on a dictionary. *)
Definition has_key {V} (d : gmap string V) (k : string) : bool :=
  bool_decide (is_Some (d !! k)).

Definition dict_getitem {V} (d : gmap string V) (k : string) : result V :=
  match d !! k with
  | Some v => Ok v
  | None => Raise KeyError
  end.

(** [a or b] with short-circuit evaluation of [b]. *)
Definition py_or (a : result bool) (b : result bool) : result bool :=
  a ≫= λ x : bool, if x then Ok true else b.

(** ** The channel-keyed sequence, [FrameworkData] *)

Module FrameworkData.

(** Modelled from the spec: the class [FrameworkData] (module
    [models.framework_data]) is not part of the sources at hand. The spec's
    data model gives it a sampling frequency, which may be absent, and a
    mapping from channel identifier to an ordered sequence of elements;
    [channels] keeps the channel identifiers in insertion order. *)
Record t (A : Type) := mk {
  sampling_frequency : option Z;
  channels : list string;
  _data : gmap string (list A)
}.
Arguments mk {A} _ _ _.
Arguments sampling_frequency {A} _.
Arguments channels {A} _.
Arguments _data {A} _.

(** Modelled from the spec: [FrameworkData(sampling_frequency_hz=f)], a
    container "created empty by a node about to emit". *)
Definition new {A} (sampling_frequency_hz : option Z) : t A :=
  mk sampling_frequency_hz [] ∅.

(** Modelled from the spec: [input_data_on_channel(data, channel)],
    "populated incrementally (append per channel)"; a channel that is not
    there yet is created. *)
Definition input_data_on_channel {A} (data : list A) (channel : string)
  (self : t A) : t A :=
  match _data self !! channel with
  | Some old =>
      mk (sampling_frequency self) (channels self)
         (<[channel := old ++ data]> (_data self))
  | None =>
      mk (sampling_frequency self) (channels self ++ [channel])
         (<[channel := data]> (_data self))
  end.

(** Modelled from the spec: [from_multi_channel(f, channels, [])], an
    empty container that already has the given channels. *)
Definition from_multi_channel {A} (sampling_frequency_hz : Z)
  (chans : list string) : t A :=
  foldl (λ fd c, input_data_on_channel [] c fd)
        (new (Some sampling_frequency_hz)) chans.

(** Modelled from the spec: [get_data_count()], the element count of the
    container, which its rectangular-shape invariant makes the length of
    any channel; read off the first channel, 0 when there is none. *)
Definition get_data_count {A} (self : t A) : Z :=
  match channels self with
  | [] => 0
  | c :: _ => len (default [] (_data self !! c))
  end.

(** Modelled from the spec: [get_channels_as_set()]. *)
Definition get_channels_as_set {A} (self : t A) : gset string :=
  list_to_set (channels self).

(** Modelled from the spec: [get_data_on_channel(channel)]. *)
Definition get_data_on_channel {A} (self : t A) (channel : string)
  : result (list A) :=
  dict_getitem (_data self) channel.

(** The elements held on a channel; none when the channel is absent. *)
Definition on_channel {A} (self : t A) (channel : string) : list A :=
  default [] (_data self !! channel).

(** The invariant of a container handed to a processing step: its channel
    list has no repetition, every listed channel has data, and the shape is
    rectangular. *)
Definition well_formed {A} (self : t A) : Prop :=
  NoDup (channels self) ∧
  Forall (λ c, len <$> _data self !! c = Some (get_data_count self))
         (channels self).

#[export] Instance well_formed_dec {A} (self : t A) :
  Decision (well_formed self).
Proof. unfold well_formed. apply _. Defined.

End FrameworkData.

(** ** The sliding-window segmenter *)

Module SlidingWindowSegmenter.

Definition _MODULE_NAME : string := "node.processing.segmenter.slidingwindowsegmenter".

Section Validation.
(** The node name and the validation of the parent class [Segmenter],
    neither of which is part of the sources at hand. *)
Variable name : string.
Variable super_validate_parameters : gmap string pyval → result unit.

Definition _validate_parameters (parameters : gmap string pyval)
  : result unit :=
  _ ← super_validate_parameters parameters;
  _ ← raise_if (negb (has_key parameters "window_size"))
        (MissingParameterError _MODULE_NAME name "window_size");
  _ ← raise_if (negb (has_key parameters "filling_value"))
        (MissingParameterError _MODULE_NAME name "filling_value");
  _ ← raise_if (negb (has_key parameters "step_size"))
        (MissingParameterError _MODULE_NAME name "step_size");
  window_size ← dict_getitem parameters "window_size";
  _ ← raise_if (negb (is_int window_size))
        (InvalidParameterValue _MODULE_NAME name "window_size" "must_be_int");
  c ← py_lt window_size (PyInt 1);
  _ ← raise_if c
        (InvalidParameterValue _MODULE_NAME name "window_size"
           "must_be_greater_than_0");
  filling_value ← dict_getitem parameters "filling_value";
  _ ← raise_if (negb (is_str filling_value))
        (InvalidParameterValue _MODULE_NAME name "filling_value" "must_be_str");
  _ ← raise_if (negb (py_in_strs filling_value ["zero"; "latest"]))
        (InvalidParameterValue _MODULE_NAME name "filling_value"
           "must_be_in.[zero, latest]");
  step_size ← dict_getitem parameters "step_size";
  _ ← raise_if (negb (is_int step_size))
        (InvalidParameterValue _MODULE_NAME name "step_size" "must_be_int");
  c ← py_or (py_lt step_size (PyInt 1)) (py_ge step_size window_size);
  raise_if c
    (InvalidParameterValue _MODULE_NAME name "step_size"
       "must_be_greater_than_0_and_smaller_than_window_size").
End Validation.

(** The node after construction: [__init__] copies the three parameters
    onto the node. *)
Record t := mk {
  window_size : Z;
  filling_value : string;
  step_size : Z
}.

(** The body of the [while] loop of [segment_data]: every channel receives
    the window that starts at [index], then [index] advances. *)
Definition loop_body (self : t) (data : FrameworkData.t Z)
  (channels : gset string) (st : FrameworkData.t (list Z) * Z)
  : result (FrameworkData.t (list Z) * Z) :=
  let '(segmented_data, index) := st in
  segmented_data ←
    for_each (elements channels) (λ channel segmented_data,
      samples ← dict_getitem (FrameworkData._data data) channel;
      Ok (FrameworkData.input_data_on_channel
            [py_slice samples index (index + window_size self)]
            channel segmented_data))
      segmented_data;
  Ok (segmented_data, index + step_size self).

(** The trailing block of [segment_data] for one channel. *)
Definition fill_and_emit (self : t) (data : FrameworkData.t Z)
  (data_count index remaining_data : Z) (channel : string)
  (segmented_data : FrameworkData.t (list Z))
  : result (FrameworkData.t (list Z)) :=
  filling_vector ←
    (if String.eqb (filling_value self) "zero" then
       Ok (py_repeat 0 (window_size self - remaining_data))
     else if String.eqb (filling_value self) "latest" then
       samples ← dict_getitem (FrameworkData._data data) channel;
       latest ← py_getitem samples (data_count - 1);
       Ok (py_repeat latest (window_size self - remaining_data))
     else Ok []);
  samples ← dict_getitem (FrameworkData._data data) channel;
  Ok (FrameworkData.input_data_on_channel
        [py_slice samples index data_count ++ filling_vector]
        channel segmented_data).

(** The first half of [segment_data], up to the end of the [while] loop;
    it yields the container filled so far and the final [index]. *)
Definition windows_loop (fuel : nat) (self : t) (data : FrameworkData.t Z)
  : result (FrameworkData.t (list Z) * Z) :=
  let segmented_data : FrameworkData.t (list Z) :=
    FrameworkData.new (FrameworkData.sampling_frequency data) in
  let index := 0 in
  let data_count := FrameworkData.get_data_count data in
  let channels := FrameworkData.get_channels_as_set data in
  while fuel
    (λ st, snd st + window_size self <? data_count)
    (loop_body self data channels)
    (segmented_data, index).

Definition segment_data (fuel : nat) (self : t) (data : FrameworkData.t Z)
  : result (FrameworkData.t (list Z)) :=
  let data_count := FrameworkData.get_data_count data in
  let channels := FrameworkData.get_channels_as_set data in
  st ← windows_loop fuel self data;
  let '(segmented_data, index) := st in
  let remaining_data := data_count - index in
  if negb (remaining_data =? 0) then
    for_each (elements channels)
      (fill_and_emit self data data_count index remaining_data)
      segmented_data
  else Ok segmented_data.

(** The attributes that [__init__] puts on the node: the three parameter
    values, copied as they are. *)
Record fields := mk_fields {
  window_size_field : pyval;
  filling_value_field : pyval;
  step_size_field : pyval
}.

Section Construction.
(** The constructor of the parent class [Segmenter], which is not part of
    the sources at hand. *)
Variable super_init : gmap string pyval → result unit.

Definition __init__ (parameters : gmap string pyval) : result fields :=
  _ ← super_init parameters;
  window_size ← dict_getitem parameters "window_size";
  filling_value ← dict_getitem parameters "filling_value";
  step_size ← dict_getitem parameters "step_size";
  Ok (mk_fields window_size filling_value step_size).
End Construction.

(** The attributes hold the values that [segment_data] reads as the node
    [self]. *)
Definition reads_as (f : fields) (self : t) : Prop :=
  window_size_field f = PyInt (window_size self) ∧
  filling_value_field f = PyStr (filling_value self) ∧
  step_size_field f = PyInt (step_size self).

Section Condition.
(** The name of the main input port and the input buffer, both kept by the
    parent class. *)
Variable INPUT_MAIN : string.

Definition _is_processing_condition_satisfied (self : t)
  (_input_buffer : gmap string (FrameworkData.t Z)) : result bool :=
  main ← dict_getitem _input_buffer INPUT_MAIN;
  Ok (window_size self <=? FrameworkData.get_data_count main).
End Condition.

End SlidingWindowSegmenter.

(** ** Interpolate *)

Module Interpolate.

Definition _MODULE_NAME : string := "node.processing.interpolate".
Definition INPUT_MAIN : string := "main".
Definition OUTPUT_MAIN : string := "main".

Section Validation.
(** The node name, set by the parent class. *)
Variable name : string.

Definition _validate_parameters (parameters : gmap string pyval)
  : result unit :=
  _ ← raise_if (negb (has_key parameters "window_size"))
        (MissingParameterError _MODULE_NAME name "window_size");
  window_size ← dict_getitem parameters "window_size";
  _ ← raise_if (negb (is_int window_size))
        (InvalidParameterValue _MODULE_NAME name "window_size" "must_be_int");
  c ← py_le window_size (PyInt 1);
  _ ← raise_if c
        (InvalidParameterValue _MODULE_NAME name "window_size"
           "must_be_greater_than_0");
  _ ← raise_if (negb (has_key parameters "sliding_window"))
        (MissingParameterError _MODULE_NAME name "sliding_window");
  sliding_window ← dict_getitem parameters "sliding_window";
  _ ← raise_if (negb (is_bool sliding_window))
        (InvalidParameterValue _MODULE_NAME name "sliding_window" "must_be_bool");
  if py_eq_True sliding_window then
    _ ← raise_if (negb (has_key parameters "step_size"))
          (MissingParameterError _MODULE_NAME name "step_size");
    step_size ← dict_getitem parameters "step_size";
    _ ← raise_if (negb (is_int step_size))
          (InvalidParameterValue _MODULE_NAME name "step_size" "must_be_int");
    c ← py_or (py_le step_size (PyInt 1)) (py_ge step_size window_size);
    raise_if c
      (InvalidParameterValue _MODULE_NAME name "step_size" "invalid_value")
  else Ok tt.
End Validation.

(** The node after [_initialize_parameter_fields]; [step_size] is only set,
    and only read, when [sliding_window] is true. *)
Record t := mk {
  window_size : Z;
  sliding_window : bool;
  step_size : Z
}.

(** State of the inner [while] loop of the sliding branch. *)
Record merge_state := mk_state {
  window : Z;
  window_end_index : Z;
  merged_data : list (list Z)
}.

(** The expression [data[self.INPUT_MAIN]._data[channel][window]]. *)
Definition epoch_value (main : FrameworkData.t Z) (channel : string)
  (window : Z) : result Z :=
  samples ← dict_getitem (FrameworkData._data main) channel;
  py_getitem samples window.

(** One round of [while window < windows_count]. *)
Definition merge_body (self : t) (main : FrameworkData.t Z)
  (channel : string) (intersection_lenght : Z) (st : merge_state)
  : result merge_state :=
  merged ←
    for_each
      (py_range (window_end_index st - intersection_lenght) (window_end_index st))
      (λ index merged,
         v ← epoch_value main channel (window st);
         py_append_at merged index v)
      (merged_data st);
  merged ←
    for_each (py_range 0 (step_size self))
      (λ _ merged,
         v ← epoch_value main channel (window st);
         Ok (merged ++ [[v]]))
      merged;
  Ok (mk_state (window st + 1) (window_end_index st + step_size self) merged).

(** The final loop of the sliding branch: one output sample per slot. *)
Definition resolve (channel : string) (merged : list (list Z))
  (processed_data : FrameworkData.t Z) : result (FrameworkData.t Z) :=
  for_each (py_range 0 (len merged))
    (λ index processed_data,
       slot ← py_getitem merged index;
       if 1 <? len slot then
         m ← py_max slot;
         Ok (FrameworkData.input_data_on_channel [m] channel processed_data)
       else
         Ok (FrameworkData.input_data_on_channel slot channel processed_data))
    processed_data.

(** The first half of the sliding branch for one channel, up to the end of
    the [while] loop: the first window opens [window_size] slots, every
    later window joins the last [intersection_lenght] slots and opens
    [step_size] new ones. *)
Definition merge_channel (fuel : nat) (self : t) (main : FrameworkData.t Z)
  (windows_count intersection_lenght : Z) (channel : string)
  : result merge_state :=
  merged ←
    for_each (py_range 0 (window_size self))
      (λ _ merged,
         v ← epoch_value main channel 0;
         Ok (merged ++ [[v]]))
      [];
  while fuel
    (λ st, window st <? windows_count)
    (merge_body self main channel intersection_lenght)
    (mk_state (0 + 1) (window_size self) merged).

(** The body of [for channel in channels] in the sliding branch. *)
Definition process_sliding_channel (fuel : nat) (self : t)
  (main : FrameworkData.t Z) (windows_count intersection_lenght : Z)
  (channel : string) (processed_data : FrameworkData.t Z)
  : result (FrameworkData.t Z) :=
  st ← merge_channel fuel self main windows_count intersection_lenght channel;
  resolve channel (merged_data st) processed_data.

(** The non-sliding branch for one channel. *)
Definition process_plain_channel (self : t) (main : FrameworkData.t Z)
  (channel : string) (processed_data : FrameworkData.t Z)
  : result (FrameworkData.t Z) :=
  for_each (py_range 0 (FrameworkData.get_data_count main))
    (λ window processed_data,
       block ←
         py_comprehension (epoch_value main channel window)
           (py_range 0 (window_size self));
       Ok (FrameworkData.input_data_on_channel block channel processed_data))
    processed_data.

Definition _process (fuel : nat) (self : t)
  (data : gmap string (FrameworkData.t Z))
  : result (gmap string (FrameworkData.t Z)) :=
  main ← dict_getitem data INPUT_MAIN;
  let channels := FrameworkData.get_channels_as_set main in
  let processed_data : FrameworkData.t Z :=
    FrameworkData.from_multi_channel 1 (elements channels) in
  processed_data ←
    (if sliding_window self then
       let windows_count := FrameworkData.get_data_count main in
       let intersection_lenght := window_size self - step_size self in
       for_each (elements channels)
         (process_sliding_channel fuel self main windows_count
            intersection_lenght)
         processed_data
     else
       for_each (elements channels) (process_plain_channel self main)
         processed_data);
  Ok {[ OUTPUT_MAIN := processed_data ]}.

(** The attributes that [_initialize_parameter_fields] puts on the node;
    [step_size] is only set when [sliding_window == True]. *)
Record fields := mk_fields {
  window_size_field : pyval;
  sliding_window_field : pyval;
  step_size_field : option pyval
}.

Section Initialization.
(** [_initialize_parameter_fields] of the parent class [ProcessingNode],
    which is not part of the sources at hand. *)
Variable super_initialize_parameter_fields : gmap string pyval → result unit.

Definition _initialize_parameter_fields (parameters : gmap string pyval)
  : result fields :=
  _ ← super_initialize_parameter_fields parameters;
  window_size ← dict_getitem parameters "window_size";
  sliding_window ← dict_getitem parameters "sliding_window";
  if py_eq_True sliding_window then
    step_size ← dict_getitem parameters "step_size";
    Ok (mk_fields window_size sliding_window (Some step_size))
  else Ok (mk_fields window_size sliding_window None).
End Initialization.

(** The attributes hold the values that [_process] reads as the node
    [self]. *)
Definition reads_as (f : fields) (self : t) : Prop :=
  window_size_field f = PyInt (window_size self) ∧
  sliding_window_field f = PyBool (sliding_window self) ∧
  (sliding_window self = true →
   step_size_field f = Some (PyInt (step_size self))).

Definition _is_next_node_call_enabled : bool := true.

(** [_input_buffer] is kept by the parent class. *)
Definition _is_processing_condition_satisfied
  (_input_buffer : gmap string (FrameworkData.t Z)) : result bool :=
  main ← dict_getitem _input_buffer INPUT_MAIN;
  Ok (0 <? FrameworkData.get_data_count main).

Definition _get_inputs : list string := [INPUT_MAIN].
Definition _get_outputs : list string := [OUTPUT_MAIN].

End Interpolate.

(** ** DataReplicate *)

Module DataReplicate.

Definition INPUT_MAIN : string := "main".
Definition OUTPUT_MAIN : string := "main".

(** The node after [_initialize_parameter_fields]; [extra_data] is only set,
    and only read, when [use_extra_data] is true. *)
Record t := mk {
  data_repetition_count : Z;
  use_extra_data : bool;
  extra_data : Z
}.

(** The body of [for channel in channels]. *)
Definition process_channel (self : t) (main : FrameworkData.t Z)
  (channel : string) (processed_data : FrameworkData.t Z)
  : result (FrameworkData.t Z) :=
  channel_elements ← FrameworkData.get_data_on_channel main channel;
  processed_data ←
    for_each channel_elements
      (λ element processed_data,
         Ok (FrameworkData.input_data_on_channel
               ((λ _, element) <$> py_range 0 (data_repetition_count self))
               channel processed_data))
      processed_data;
  if use_extra_data self then
    tail ← py_comprehension (py_getitem channel_elements (-1))
             (py_range 0 (extra_data self));
    Ok (FrameworkData.input_data_on_channel tail channel processed_data)
  else Ok processed_data.

Definition _process (self : t) (data : gmap string (FrameworkData.t Z))
  : result (gmap string (FrameworkData.t Z)) :=
  main ← dict_getitem data "main";
  let channels := FrameworkData.channels main in
  let processed_data : FrameworkData.t Z :=
    FrameworkData.from_multi_channel 1 channels in
  processed_data ← for_each channels (process_channel self main) processed_data;
  Ok {[ OUTPUT_MAIN := processed_data ]}.

Definition _MODULE_NAME : string := "node.processing.dataReplicate".

Section Validation.
(** The node name, set by the parent class. *)
Variable name : string.

Definition _validate_parameters (parameters : gmap string pyval)
  : result unit :=
  _ ← raise_if (negb (has_key parameters "data_repetition_count"))
        (MissingParameterError _MODULE_NAME name "data_repetition_count");
  data_repetition_count ← dict_getitem parameters "data_repetition_count";
  _ ← raise_if (negb (is_int data_repetition_count))
        (InvalidParameterValue _MODULE_NAME name "data_repetition_count"
           "must_be_int");
  c ← py_le data_repetition_count (PyInt 1);
  _ ← raise_if c
        (InvalidParameterValue _MODULE_NAME name "data_repetition_count"
           "must_be_bigger_than_1");
  _ ← raise_if (negb (has_key parameters "use_extra_data"))
        (MissingParameterError _MODULE_NAME name "use_extra_data");
  use_extra_data ← dict_getitem parameters "use_extra_data";
  _ ← raise_if (negb (is_bool use_extra_data))
        (InvalidParameterValue _MODULE_NAME name "use_extra_data" "must_be_bool");
  if py_eq_True use_extra_data then
    _ ← raise_if (negb (has_key parameters "extra_data"))
          (MissingParameterError _MODULE_NAME name "extra_data");
    extra_data ← dict_getitem parameters "extra_data";
    _ ← raise_if (negb (is_int extra_data))
          (InvalidParameterValue _MODULE_NAME name "extra_data" "must_be_int");
    c ← py_or (py_le extra_data (PyInt 1))
              (py_ge extra_data data_repetition_count);
    raise_if c
      (InvalidParameterValue _MODULE_NAME name "extra_data" "invalid_value")
  else Ok tt.
End Validation.

(** The attributes that [_initialize_parameter_fields] puts on the node;
    [extra_data] is only set when [use_extra_data == True]. *)
Record fields := mk_fields {
  data_repetition_count_field : pyval;
  use_extra_data_field : pyval;
  extra_data_field : option pyval
}.

Section Initialization.
(** [_initialize_parameter_fields] of the parent class [ProcessingNode],
    which is not part of the sources at hand. *)
Variable super_initialize_parameter_fields : gmap string pyval → result unit.

Definition _initialize_parameter_fields (parameters : gmap string pyval)
  : result fields :=
  _ ← super_initialize_parameter_fields parameters;
  data_repetition_count ← dict_getitem parameters "data_repetition_count";
  use_extra_data ← dict_getitem parameters "use_extra_data";
  if py_eq_True use_extra_data then
    extra_data ← dict_getitem parameters "extra_data";
    Ok (mk_fields data_repetition_count use_extra_data (Some extra_data))
  else Ok (mk_fields data_repetition_count use_extra_data None).
End Initialization.

(** The attributes hold the values that [_process] reads as the node
    [self]. *)
Definition reads_as (f : fields) (self : t) : Prop :=
  data_repetition_count_field f = PyInt (data_repetition_count self) ∧
  use_extra_data_field f = PyBool (use_extra_data self) ∧
  (use_extra_data self = true →
   extra_data_field f = Some (PyInt (extra_data self))).

Definition _is_next_node_call_enabled : bool := true.

(** [_input_buffer] is kept by the parent class. *)
Definition _is_processing_condition_satisfied
  (_input_buffer : gmap string (FrameworkData.t Z)) : result bool :=
  main ← dict_getitem _input_buffer INPUT_MAIN;
  Ok (0 <? FrameworkData.get_data_count main).

Definition _get_inputs : list string := [INPUT_MAIN].
Definition _get_outputs : list string := [OUTPUT_MAIN].

End DataReplicate.


(** ** Vocabulary of the statements *)

(** What the checks of [SlidingWindowSegmenter._validate_parameters] accept,
    once the three keys are there. *)
Definition segmenter_domain (window_size filling_value step_size : pyval)
  : Prop :=
  ∃ ws fv ss,
    window_size = PyInt ws ∧ filling_value = PyStr fv ∧ step_size = PyInt ss ∧
    (fv = "zero" ∨ fv = "latest") ∧ 1 ≤ ss < ws.

(** What the checks of [Interpolate._validate_parameters] accept for
    [step_size] when [sliding_window] is true. *)
Definition interpolate_step_domain (window_size : Z) (step_size : pyval)
  : Prop :=
  ∃ ss, step_size = PyInt ss ∧ 1 < ss < window_size.

(** [appends c p s s']: container [s'] is [s] after the elements [p] were
    put at the end of channel [c], every other channel and the sampling
    frequency being left alone. *)
Definition appends {A} (c : string) (p : list A) (s s' : FrameworkData.t A)
  : Prop :=
  FrameworkData.sampling_frequency s' = FrameworkData.sampling_frequency s ∧
  FrameworkData.on_channel s' c = FrameworkData.on_channel s c ++ p ∧
  (is_Some (FrameworkData._data s !! c) →
   is_Some (FrameworkData._data s' !! c)) ∧
  ∀ c', c' ≠ c → FrameworkData._data s' !! c' = FrameworkData._data s !! c'.

(** What [DataReplicate] is expected to put on a channel holding [xs]:
    every sample [count] times, in order, then the last sample [extra] more
    times when the tail extension is on. *)
Definition replicated (count : Z) (use_extra : bool) (extra : Z)
  (xs : list Z) : list Z :=
  (xs ≫= λ x, py_repeat x count) ++
  (if use_extra
   then match last xs with Some v => py_repeat v extra | None => [] end
   else []).

(** What the non-sliding branch of [Interpolate] is expected to put on a
    channel holding the epoch values [vs]: one block per epoch. *)
Definition upsampled (window_size : Z) (vs : list Z) : list Z :=
  vs ≫= λ v, py_repeat v window_size.

(** Number of rounds of the segmenter's loop on [data_count] samples: the
    number of [k >= 0] with [k * step_size + window_size < data_count]. *)
Definition loop_rounds (window_size step_size data_count : Z) : Z :=
  if data_count - window_size <=? 0 then 0
  else (data_count - window_size + step_size - 1) / step_size.

(** The samples [xs[index], ..., xs[index + window_size - 1]]. *)
Definition window_at (xs : list Z) (index window_size : Z) : list Z :=
  take (Z.to_nat window_size) (drop (Z.to_nat index) xs).

(** The epochs the loop is expected to emit in [rounds] rounds. *)
Definition loop_windows (xs : list Z) (window_size step_size rounds : Z)
  : list (list Z) :=
  (λ k, window_at xs (k * step_size) window_size) <$> seqZ 0 rounds.

(** The epochs the trailing block is expected to emit when the loop stopped
    at [index]: none when nothing remains, the remaining samples as they are
    when they make a whole window, and the remaining samples followed by
    [window_size - remaining] copies of [pad] otherwise. *)
Definition tail_epochs (xs : list Z) (window_size index pad : Z)
  : list (list Z) :=
  let remaining := len xs - index in
  if remaining =? 0 then []
  else if remaining =? window_size then [drop (Z.to_nat index) xs]
  else [drop (Z.to_nat index) xs
        ++ replicate (Z.to_nat (window_size - remaining)) pad].

(** The value the trailing block pads with: [0] under [zero], the last
    sample of the channel under [latest]. *)
Definition pad_value (filling_value : string) (xs : list Z) : Z :=
  if String.eqb filling_value "zero" then 0 else default 0 (last xs).

(** The trailing block of [segment_data] emits on channel [c] an epoch that
    the loop has emitted already. *)
Definition last_window_emitted_twice (fuel : nat)
  (self : SlidingWindowSegmenter.t) (data : FrameworkData.t Z) (c : string)
  : Prop :=
  ∃ seg index out e,
    SlidingWindowSegmenter.windows_loop fuel self data = Ok (seg, index) ∧
    SlidingWindowSegmenter.segment_data fuel self data = Ok out ∧
    FrameworkData.on_channel out c = FrameworkData.on_channel seg c ++ [e] ∧
    e ∈ FrameworkData.on_channel seg c.

(** Window [w] of the sliding scheme covers the output positions
    [w * step_size, ..., w * step_size + window_size - 1]. *)
Definition covers (window_size step_size w i : Z) : bool :=
  (w * step_size <=? i) && (i <? w * step_size + window_size).

(** The candidates of output slot [i]: the values of the epochs whose window
    covers [i], in epoch order; [w0] is the number of the first epoch of
    [vs]. *)
Fixpoint candidates_from (window_size step_size w0 : Z) (vs : list Z) (i : Z)
  : list Z :=
  match vs with
  | [] => []
  | v :: vs' =>
      (if covers window_size step_size w0 i then [v] else [])
      ++ candidates_from window_size step_size (w0 + 1) vs' i
  end.

Definition candidates (window_size step_size : Z) (vs : list Z) (i : Z)
  : list Z :=
  candidates_from window_size step_size 0 vs i.

(** What the last loop of the sliding branch puts out for one slot. *)
Definition resolved (slot : list Z) : list Z :=
  if 1 <? len slot then
    match slot with
    | [] => []
    | x :: rest => [foldl Z.max x rest]
    end
  else slot.

(** The slots of the sliding branch after the first [w] windows of a
    channel holding the epoch values [vs]: slot [i] holds the candidates
    that the first [w] epochs give it; and the state of the [while] loop at
    that point. *)
Definition slots_after (window_size step_size : Z) (vs : list Z) (w : nat)
  : list (list Z) :=
  candidates window_size step_size (take w vs)
    <$> seqZ 0 (window_size + (Z.of_nat w - 1) * step_size).

Definition state_after (window_size step_size : Z) (vs : list Z) (w : nat)
  : Interpolate.merge_state :=
  Interpolate.mk_state (Z.of_nat w)
    (window_size + (Z.of_nat w - 1) * step_size)
    (slots_after window_size step_size vs w).

(** The outcomes that the validation of a node documents: acceptance, or one
    of the two exceptions of the framework carrying the module and the node
    name. *)
Definition documented_outcome (module name : string) (r : result unit)
  : Prop :=
  r = Ok tt ∨
  (∃ parameter, r = Raise (MissingParameterError module name parameter)) ∨
  (∃ parameter cause,
     r = Raise (InvalidParameterValue module name parameter cause)).

(** The parameter sets that the checks of [Interpolate._validate_parameters]
    let through. *)
Definition interpolate_domain (parameters : gmap string pyval) : Prop :=
  ∃ ws sw,
    parameters !! "window_size" = Some (PyInt ws) ∧ 1 < ws ∧
    parameters !! "sliding_window" = Some (PyBool sw) ∧
    (sw = true →
     ∃ v, parameters !! "step_size" = Some v ∧ interpolate_step_domain ws v).

(** The parameter sets that the checks of
    [DataReplicate._validate_parameters] let through. *)
Definition replicate_domain (parameters : gmap string pyval) : Prop :=
  ∃ count use_extra,
    parameters !! "data_repetition_count" = Some (PyInt count) ∧ 1 < count ∧
    parameters !! "use_extra_data" = Some (PyBool use_extra) ∧
    (use_extra = true →
     ∃ extra, parameters !! "extra_data" = Some (PyInt extra) ∧
              1 < extra < count).


(* ===================================================================== *)
(** * Part II: properties                                                 *)
(* ===================================================================== *)

(** ** Parameter validation *)

Lemma has_key_Some {V} (d : gmap string V) k v :
  d !! k = Some v → has_key d k = true.
Proof. intros H. unfold has_key. apply bool_decide_eq_true. by exists v. Qed.

Lemma has_key_None {V} (d : gmap string V) k :
  d !! k = None → has_key d k = false.
Proof.
  intros H. unfold has_key. apply bool_decide_eq_false.
  rewrite H. by intros [? ?].
Qed.

Lemma dict_getitem_Some {V} (d : gmap string V) k v :
  d !! k = Some v → dict_getitem d k = Ok v.
Proof. intros H. unfold dict_getitem. by rewrite H. Qed.

(** Rewrites the accesses to a dictionary whose entries are known. *)
Ltac known_keys :=
  repeat match goal with
  | H : ?d !! ?k = Some _ |- context [has_key ?d ?k] =>
      rewrite (has_key_Some _ _ _ H)
  | H : ?d !! ?k = None |- context [has_key ?d ?k] =>
      rewrite (has_key_None _ _ H)
  | H : ?d !! ?k = Some _ |- context [dict_getitem ?d ?k] =>
      rewrite (dict_getitem_Some _ _ _ H)
  end.

(** Closes a case in which a value has the wrong type or lies outside the
    domain: the domain predicate is refuted and the exception exhibited. *)
Ltac out_of_domain :=
  solve [ right; split;
          [ intros (?&?&?&?&?&?&?&?); simplify_eq; lia
          | simpl; eauto ] ].

Section SegmenterValidation.
Import SlidingWindowSegmenter.
Variable name : string.
Variable super_validate_parameters : gmap string pyval → result unit.

Lemma segmenter_validate_present parameters wv fv sv :
  super_validate_parameters parameters = Ok tt →
  parameters !! "window_size" = Some wv →
  parameters !! "filling_value" = Some fv →
  parameters !! "step_size" = Some sv →
  (segmenter_domain wv fv sv ∧
   _validate_parameters name super_validate_parameters parameters = Ok tt) ∨
  (¬ segmenter_domain wv fv sv ∧
   ∃ parameter cause,
     _validate_parameters name super_validate_parameters parameters
     = Raise (InvalidParameterValue _MODULE_NAME name parameter cause)).
Proof.
  intros Hsuper Hw Hf Hs. unfold _validate_parameters.
  rewrite Hsuper. simpl. known_keys. simpl.
  destruct wv as [ | b | ws | s | | m e ]; try out_of_domain.
  simpl. destruct (Z.ltb_spec ws 1) as [Hlt|Hge]; simpl; [out_of_domain |].
  destruct fv as [ | b | z | fvs | | m e ]; try out_of_domain.
  simpl. case_bool_decide as Hin; simpl; last first.
  { right. split; [| eauto].
    intros (?&?&?&?&?&?&[?|?]&?); simplify_eq; apply Hin;
      [apply list_elem_of_here | apply list_elem_of_further, list_elem_of_here]. }
  destruct sv as [ | b | ss | s | | m e ]; try out_of_domain.
  simpl. unfold py_or, py_lt, py_ge. simpl.
  destruct (Z.ltb_spec ss 1) as [Hs1|Hs1]; simpl; [out_of_domain |].
  destruct (Z.leb_spec ws ss) as [Hs2|Hs2]; simpl; [out_of_domain |].
  left. split; [| done].
  exists ws, fvs, ss. repeat split; try done; try lia.
  apply elem_of_cons in Hin as [-> | Hin]; [by left |].
  apply elem_of_cons in Hin as [-> | Hin]; [by right |].
  by apply elem_of_nil in Hin.
Qed.

End SegmenterValidation.

(** C5 (as amended). With the three keys present and the parent's validation
    passed, [SlidingWindowSegmenter._validate_parameters] raises
    [InvalidParameterValue], with a cause code, for every parameter set in
    which [window_size] is not an integer greater than 1, [filling_value] is
    not one of [zero] and [latest], or [step_size] is not an integer with
    [1 <= step_size < window_size]; and it accepts every other one. So
    [window_size = 1] is rejected, and [step_size = 1] is accepted under any
    larger window. *)
Theorem C5_segmenter_validation
  (name : string) (super_validate : gmap string pyval → result unit)
  (parameters : gmap string pyval) (window_size filling_value step_size : pyval) :
  super_validate parameters = Ok tt →
  parameters !! "window_size" = Some window_size →
  parameters !! "filling_value" = Some filling_value →
  parameters !! "step_size" = Some step_size →
  let outcome :=
    SlidingWindowSegmenter._validate_parameters name super_validate parameters in
  let rejected :=
    ∃ parameter cause,
      outcome = Raise (InvalidParameterValue
                         SlidingWindowSegmenter._MODULE_NAME name parameter cause) in
  ((¬ ∃ ws, window_size = PyInt ws ∧ 1 < ws) → rejected) ∧
  ((¬ ∃ fv, filling_value = PyStr fv ∧ (fv = "zero" ∨ fv = "latest")) → rejected) ∧
  ((¬ ∃ ws ss, window_size = PyInt ws ∧ step_size = PyInt ss ∧ 1 ≤ ss < ws)
   → rejected) ∧
  (window_size = PyInt 1 → rejected) ∧
  (outcome = Ok tt ↔ segmenter_domain window_size filling_value step_size) ∧
  (step_size = PyInt 1 →
   (∃ ws, window_size = PyInt ws ∧ 1 < ws) →
   (∃ fv, filling_value = PyStr fv ∧ (fv = "zero" ∨ fv = "latest")) →
   outcome = Ok tt).
Proof.
  intros Hsuper Hw Hf Hs outcome rejected.
  destruct (segmenter_validate_present name super_validate parameters
              _ _ _ Hsuper Hw Hf Hs) as [[Hdom Hok] | [Hdom Hraise]].
  - destruct Hdom as (ws & fv & ss & -> & -> & -> & Hfv & Hss).
    repeat split.
    + intros Hn. exfalso. apply Hn. exists ws. split; [done | lia].
    + intros Hn. exfalso. apply Hn. by exists fv.
    + intros Hn. exfalso. apply Hn. by exists ws, ss.
    + intros [= ->]. lia.
    + intros _. by exists ws, fv, ss.
    + done.
    + done.
  - assert (Hrej : rejected) by exact Hraise.
    repeat split; try (intros; exact Hrej).
    + intros Hok. exfalso. destruct Hraise as (p & c & Hr).
      unfold outcome in Hok. congruence.
    + intros Hd. by exfalso.
    + intros -> (ws & -> & Hgt) (fv & -> & Hfv). exfalso. apply Hdom.
      exists ws, fv, 1. repeat split; try done; lia.
Qed.

(** Witness of C5: a window of 3 samples stepping by 1 is accepted. *)
Lemma C5_segmenter_validation_witness :
  let parameters : gmap string pyval :=
    <["window_size" := PyInt 3]>
      (<["filling_value" := PyStr "zero"]> (<["step_size" := PyInt 1]> ∅)) in
  SlidingWindowSegmenter._validate_parameters "segmenter" (λ _, Ok tt) parameters
  = Ok tt.
Proof.
  intros parameters.
  apply (C5_segmenter_validation "segmenter" (λ _, Ok tt) parameters
           (PyInt 3) (PyStr "zero") (PyInt 1));
    try reflexivity.
  - exists 3. split; [reflexivity | lia].
  - exists "zero". split; [reflexivity | by left].
Defined.

(** Counterexample to C5 as stated: [step_size = 1] lies outside
    [1 < step_size < window_size], and the same holds of [window_size = 3],
    yet validation succeeds. *)
Lemma C5_step_size_one_accepted :
  let parameters : gmap string pyval :=
    <["window_size" := PyInt 3]>
      (<["filling_value" := PyStr "zero"]> (<["step_size" := PyInt 1]> ∅)) in
  ¬ (1 < 1 < 3) ∧
  SlidingWindowSegmenter._validate_parameters "segmenter" (λ _, Ok tt) parameters
  = Ok tt ∧
  ¬ ∃ parameter cause,
      SlidingWindowSegmenter._validate_parameters "segmenter" (λ _, Ok tt)
        parameters
      = Raise (InvalidParameterValue SlidingWindowSegmenter._MODULE_NAME
                 "segmenter" parameter cause).
Proof.
  intros parameters. split; [lia |]. split; [reflexivity |].
  intros (p & c & H). vm_compute in H. discriminate H.
Qed.

Section InterpolateValidation.
Import Interpolate.
Variable name : string.

(** The checks that precede the [sliding_window] branch all pass. *)
Lemma interpolate_validate_prefix parameters ws sw :
  parameters !! "window_size" = Some (PyInt ws) →
  1 < ws →
  parameters !! "sliding_window" = Some (PyBool sw) →
  _validate_parameters name parameters =
    if sw then
      _ ← raise_if (negb (has_key parameters "step_size"))
            (MissingParameterError _MODULE_NAME name "step_size");
      step_size ← dict_getitem parameters "step_size";
      _ ← raise_if (negb (is_int step_size))
            (InvalidParameterValue _MODULE_NAME name "step_size" "must_be_int");
      c ← py_or (py_le step_size (PyInt 1)) (py_ge step_size (PyInt ws));
      raise_if c
        (InvalidParameterValue _MODULE_NAME name "step_size" "invalid_value")
    else Ok tt.
Proof.
  intros Hw Hgt Hs. unfold _validate_parameters. known_keys. simpl.
  destruct (Z.leb_spec ws 1) as [Hle|_]; [lia |]. simpl.
  by destruct sw.
Qed.

(** Whoever sees [MissingParameterError] for [step_size] had
    [sliding_window] set to [True] and no [step_size]. *)
Lemma interpolate_missing_step_only_if_sliding parameters :
  _validate_parameters name parameters
  = Raise (MissingParameterError _MODULE_NAME name "step_size") →
  parameters !! "sliding_window" = Some (PyBool true) ∧
  parameters !! "step_size" = None.
Proof.
  unfold _validate_parameters.
  destruct (parameters !! "window_size") as [wv|] eqn:Hw; known_keys; simpl;
    [| discriminate].
  destruct wv as [ | b | ws | s | | m e ]; simpl; try discriminate.
  destruct (ws <=? 1); simpl; [discriminate |].
  destruct (parameters !! "sliding_window") as [sv|] eqn:Hs; known_keys; simpl;
    [| discriminate].
  destruct sv as [ | [|] | z | s | | m e ]; simpl; try discriminate.
  destruct (parameters !! "step_size") as [tv|] eqn:Ht; known_keys; simpl;
    [| done].
  destruct tv as [ | b | ss | s | | m e ]; simpl; try discriminate.
  unfold py_or, py_le, py_ge; simpl.
  destruct (ss <=? 1); simpl; [discriminate |].
  destruct (ws <=? ss); simpl; discriminate.
Qed.

Lemma interpolate_validate_step parameters ws sv :
  parameters !! "window_size" = Some (PyInt ws) →
  1 < ws →
  parameters !! "sliding_window" = Some (PyBool true) →
  parameters !! "step_size" = Some sv →
  (interpolate_step_domain ws sv ∧ _validate_parameters name parameters = Ok tt) ∨
  (¬ interpolate_step_domain ws sv ∧
   ∃ cause, _validate_parameters name parameters
            = Raise (InvalidParameterValue _MODULE_NAME name "step_size" cause)).
Proof.
  intros Hw Hgt Hs Ht.
  rewrite (interpolate_validate_prefix _ _ _ Hw Hgt Hs). known_keys. simpl.
  destruct sv as [ | b | ss | s | | m e ]; simpl;
    try (right; split; [by intros (? & ? & ?) | eauto]).
  unfold py_or, py_le, py_ge; simpl.
  destruct (Z.leb_spec ss 1); simpl.
  { right. split; [intros (? & [= <-] & ?); lia | eauto]. }
  destruct (Z.leb_spec ws ss); simpl.
  { right. split; [intros (? & [= <-] & ?); lia | eauto]. }
  left. split; [| done]. exists ss. split; [done | lia].
Qed.

End InterpolateValidation.

(** C8. For a parameter set that passes the checks on [window_size] and
    [sliding_window], [Interpolate._validate_parameters] raises
    [MissingParameterError] for an absent [step_size] if and only if
    [sliding_window] is [True]; with [sliding_window] true, a present
    [step_size] is accepted exactly when it is an integer with
    [1 < step_size < window_size] and raises [InvalidParameterValue]
    otherwise; with [sliding_window] false the key [step_size] is neither
    required nor looked at. *)
Theorem C8_interpolate_conditional_step_size
  (name : string) (parameters : gmap string pyval) (ws : Z) (sw : bool) :
  parameters !! "window_size" = Some (PyInt ws) →
  1 < ws →
  parameters !! "sliding_window" = Some (PyBool sw) →
  let validate := Interpolate._validate_parameters name in
  let missing :=
    Raise (MissingParameterError Interpolate._MODULE_NAME name "step_size") in
  (parameters !! "step_size" = None →
   (validate parameters = missing ↔ sw = true)) ∧
  (validate parameters = missing →
   sw = true ∧ parameters !! "step_size" = None) ∧
  (sw = true → ∀ v, parameters !! "step_size" = Some v →
     (validate parameters = Ok tt ↔ interpolate_step_domain ws v) ∧
     (¬ interpolate_step_domain ws v →
      ∃ cause, validate parameters
               = Raise (InvalidParameterValue Interpolate._MODULE_NAME name
                          "step_size" cause))) ∧
  (sw = false →
   validate parameters = Ok tt ∧
   ∀ v, validate (<["step_size" := v]> parameters) = Ok tt ∧
        validate (delete "step_size" parameters) = Ok tt).
Proof.
  intros Hw Hgt Hs validate missing. repeat apply conj.
  - intros Hnone. unfold validate.
    rewrite (interpolate_validate_prefix _ _ _ _ Hw Hgt Hs).
    destruct sw; known_keys; simpl; split; done.
  - intros Hm.
    destruct (interpolate_missing_step_only_if_sliding name parameters Hm)
      as [Hs' Hnone].
    split; [congruence | done].
  - intros -> v Hv.
    destruct (interpolate_validate_step name parameters ws v Hw Hgt Hs Hv)
      as [[Hdom Hok] | [Hdom (cause & Hr)]].
    + split; [by split | by intros Hn].
    + split; [| by eauto]. unfold validate. rewrite Hr. by split.
  - intros ->. split.
    + unfold validate. by rewrite (interpolate_validate_prefix _ _ _ _ Hw Hgt Hs).
    + intros v. unfold validate. split.
      * rewrite (interpolate_validate_prefix name _ ws false); try done;
          by rewrite lookup_insert_ne.
      * rewrite (interpolate_validate_prefix name _ ws false); try done;
          by rewrite lookup_delete_ne.
Qed.

(** Witness of C8: a sliding node without [step_size] is refused for the
    missing key. *)
Lemma C8_interpolate_conditional_step_size_witness :
  let parameters : gmap string pyval :=
    <["window_size" := PyInt 4]> (<["sliding_window" := PyBool true]> ∅) in
  Interpolate._validate_parameters "interpolate" parameters
  = Raise (MissingParameterError Interpolate._MODULE_NAME "interpolate"
             "step_size").
Proof.
  intros parameters.
  assert (Hgt : 1 < 4) by lia.
  destruct (C8_interpolate_conditional_step_size "interpolate" parameters 4 true
              eq_refl Hgt eq_refl) as [Habsent _].
  apply (Habsent eq_refl). reflexivity.
Defined.

(** Settles a decidable statement about concrete data by evaluating its
    decision procedure. *)
Ltac by_evaluation := apply (bool_decide_unpack _); vm_compute; exact I.

(** ** The result monad and the loops *)

Lemma for_each_app {X S} (xs ys : list X) (body : X → S → result S) (s : S) :
  for_each (xs ++ ys) body s = for_each xs body s ≫= for_each ys body.
Proof.
  revert s. induction xs as [|x xs IH]; intros s; simpl; [done |].
  destruct (body x s) as [s1 | e |]; simpl; [apply IH | done | done].
Qed.

(** Two loop bodies that agree on the elements visited give the same
    loop. *)
Lemma for_each_ext {X S} (xs : list X) (f g : X → S → result S) (s : S) :
  (∀ x s, x ∈ xs → f x s = g x s) → for_each xs f s = for_each xs g s.
Proof.
  revert s. induction xs as [|x xs IH]; intros s Hfg; simpl; [done |].
  rewrite Hfg by apply list_elem_of_here.
  destruct (g x s) as [s1 | e |]; simpl; try done.
  apply IH. intros y t Hy. apply Hfg. by apply list_elem_of_further.
Qed.

(** If every body either succeeds or raises [e], and one channel makes it
    raise [e] whatever the container, the loop raises [e]. *)
Lemma for_each_raises {S} (cs : list string) (body : string → S → result S)
  (e : exn) :
  (∀ c st, c ∈ cs → (∃ st', body c st = Ok st') ∨ body c st = Raise e) →
  (∃ c, c ∈ cs ∧ ∀ st, body c st = Raise e) →
  ∀ st, for_each cs body st = Raise e.
Proof.
  induction cs as [|c0 cs IH]; intros Hall (c & Hc & Hbad) st.
  - by apply elem_of_nil in Hc.
  - simpl. apply elem_of_cons in Hc as [-> | Hc].
    + by rewrite Hbad.
    + destruct (Hall c0 st) as [[st1 ->] | ->]; [apply list_elem_of_here | | done].
      simpl. apply IH; [| by eauto].
      intros c' t Hc'. apply Hall. by apply list_elem_of_further.
Qed.

(** ** Python list operations inside their domain *)

Lemma len_nonneg {A} (l : list A) : 0 ≤ len l.
Proof. unfold len. lia. Qed.

Lemma len_app {A} (l k : list A) : len (l ++ k) = len l + len k.
Proof. unfold len. rewrite length_app. lia. Qed.

Lemma len_replicate {A} (n : nat) (x : A) : len (replicate n x) = Z.of_nat n.
Proof. unfold len. by rewrite length_replicate. Qed.

Lemma subscript_in_range n i :
  0 ≤ i < n → subscript n i = Ok (Z.to_nat i).
Proof.
  intros [H0 Hn]. unfold subscript.
  destruct (Z.ltb_spec i 0); [lia |].
  destruct (Z.leb_spec 0 i); [| lia].
  destruct (Z.ltb_spec i n); [done | lia].
Qed.

Lemma py_getitem_lookup {A} (l : list A) (i : Z) (x : A) :
  0 ≤ i → l !! Z.to_nat i = Some x → py_getitem l i = Ok x.
Proof.
  intros H0 Hx. unfold py_getitem.
  rewrite subscript_in_range; [simpl; by rewrite Hx |].
  apply lookup_lt_Some in Hx. unfold len. lia.
Qed.

Lemma py_getitem_last {A} (l : list A) (x : A) :
  last l = Some x → py_getitem l (-1) = Ok x.
Proof.
  intros Hlast. unfold py_getitem, subscript.
  assert (Hlen : (0 < length l)%nat).
  { destruct l; [done | simpl; lia]. }
  change (-1 <? 0) with true. cbv iota.
  destruct (Z.leb_spec 0 (-1 + len l)); [| unfold len in *; lia].
  destruct (Z.ltb_spec (-1 + len l) (len l)); [| lia]. simpl.
  rewrite last_lookup in Hlast.
  replace (Z.to_nat (-1 + len l)) with (Nat.pred (length l))
    by (unfold len; lia).
  by rewrite Hlast.
Qed.

Lemma py_getitem_nil {A} (i : Z) : py_getitem (@nil A) i = Raise IndexError.
Proof.
  unfold py_getitem, subscript. simpl.
  by destruct ((0 <=? _) && _).
Qed.

Lemma py_comprehension_ok {X A} (v : A) (xs : list X) :
  py_comprehension (Ok v) xs = Ok (replicate (length xs) v).
Proof. induction xs as [|x xs IH]; simpl; [done |]. by rewrite IH. Qed.

Lemma py_comprehension_raise {X A} (e : exn) (xs : list X) :
  xs ≠ [] → py_comprehension (A := A) (Raise e) xs = Raise e.
Proof. by destruct xs. Qed.

Lemma length_py_range a b : length (py_range a b) = Z.to_nat (b - a).
Proof. unfold py_range. apply length_seqZ. Qed.

Lemma fmap_const_replicate {X A} (x : A) (l : list X) :
  (λ _, x) <$> l = replicate (length l) x.
Proof. induction l as [|y l IH]; simpl; [done |]. by f_equal. Qed.

Lemma fmap_const_py_range {A} (x : A) (k : Z) :
  (λ _, x) <$> py_range 0 k = py_repeat x k.
Proof.
  rewrite fmap_const_replicate, length_py_range. unfold py_repeat.
  by rewrite Z.sub_0_r.
Qed.

(** ** Containers *)

Section Containers.
Import FrameworkData.
Context {A : Type}.
Implicit Types (s : FrameworkData.t A) (c : string) (p : list A).

Lemma on_channel_Some s c l :
  is_Some (_data s !! c) → on_channel s c = l → _data s !! c = Some l.
Proof. unfold on_channel. intros [l' ->]. simpl. by intros ->. Qed.

Lemma on_channel_ext s s' c :
  _data s !! c = _data s' !! c → on_channel s c = on_channel s' c.
Proof. unfold on_channel. by intros ->. Qed.

Lemma appends_refl c s : appends c [] s s.
Proof. unfold appends. by rewrite app_nil_r. Qed.

Lemma appends_trans c p q s1 s2 s3 :
  appends c p s1 s2 → appends c q s2 s3 → appends c (p ++ q) s1 s3.
Proof.
  intros (Hf1 & Hc1 & Hs1 & Ho1) (Hf2 & Hc2 & Hs2 & Ho2).
  repeat split.
  - congruence.
  - by rewrite Hc2, Hc1, app_assoc.
  - auto.
  - intros c' Hne. rewrite Ho2, Ho1; done.
Qed.

Lemma appends_input c p s : appends c p s (input_data_on_channel p c s).
Proof.
  unfold appends, input_data_on_channel, on_channel.
  destruct (_data s !! c) as [old|] eqn:Hold; simpl;
    rewrite lookup_insert_eq; simpl;
    (repeat split; [by eauto | intros c' Hne; by rewrite lookup_insert_ne]).
Qed.

Lemma input_is_Some c p s : is_Some (_data (input_data_on_channel p c s) !! c).
Proof.
  unfold input_data_on_channel.
  destruct (_data s !! c); simpl; rewrite lookup_insert_eq; eauto.
Qed.

(** A loop that puts [g x] on channel [c] for every [x] visited. *)
Lemma for_each_inputs {X} (xs : list X) (g : X → list A) c s :
  ∃ s', for_each xs
          (λ x s, Ok (input_data_on_channel (g x) c s)) s = Ok s' ∧
        appends c (xs ≫= g) s s'.
Proof.
  revert s. induction xs as [|x xs IH]; intros s; simpl.
  - exists s. split; [done | apply appends_refl].
  - destruct (IH (input_data_on_channel (g x) c s)) as (s' & Hrun & Happ).
    exists s'. split; [done |].
    eapply appends_trans; [apply appends_input | done].
Qed.

(** A loop over distinct channels whose body only appends to its own
    channel: each channel visited gets its own payload. *)
Lemma for_each_channels (cs : list string)
  (body : string → FrameworkData.t A → result (FrameworkData.t A))
  (payload : string → list A) :
  NoDup cs →
  (∀ c s, c ∈ cs → ∃ s', body c s = Ok s' ∧ appends c (payload c) s s') →
  ∀ s, ∃ s',
    for_each cs body s = Ok s' ∧
    sampling_frequency s' = sampling_frequency s ∧
    (∀ c, c ∈ cs →
          on_channel s' c = on_channel s c ++ payload c ∧
          (is_Some (_data s !! c) → is_Some (_data s' !! c))) ∧
    (∀ c, c ∉ cs → _data s' !! c = _data s !! c).
Proof.
  induction cs as [|c0 cs IH]; intros Hnd Hbody s; simpl.
  - exists s. split; [done |]. split; [done |]. split; [| done].
    intros c Hc. by apply elem_of_nil in Hc.
  - apply NoDup_cons in Hnd as [Hfresh Hnd].
    destruct (Hbody c0 s) as (s1 & Hrun1 & Hf1 & Hc1 & Hs1 & Ho1);
      [apply list_elem_of_here |].
    destruct (IH Hnd) with (s := s1) as (s' & Hrun & Hf & Hin & Hout).
    { intros c t Hc. apply Hbody. by apply list_elem_of_further. }
    exists s'. rewrite Hrun1. simpl. split; [done |].
    split; [congruence |]. split.
    + intros c Hc. apply elem_of_cons in Hc as [-> | Hc].
      * rewrite (on_channel_ext s' s1 c0 (Hout c0 Hfresh)).
        split; [done |].
        intros Hsome. rewrite (Hout c0 Hfresh). auto.
      * destruct (Hin c Hc) as [Hpay Hsome].
        assert (Hne : c ≠ c0) by (intros ->; done).
        rewrite (on_channel_ext s1 s c (Ho1 c Hne)) in Hpay.
        rewrite (Ho1 c Hne) in Hsome. done.
    + intros c Hc. apply not_elem_of_cons in Hc as [Hne Hc].
      rewrite (Hout c Hc). by apply Ho1.
Qed.

Lemma from_multi_channel_spec (f : Z) (chans : list string) :
  sampling_frequency (from_multi_channel (A := A) f chans) = Some f ∧
  (∀ c, on_channel (from_multi_channel (A := A) f chans) c = []) ∧
  (∀ c, c ∈ chans → _data (from_multi_channel (A := A) f chans) !! c = Some []).
Proof.
  unfold from_multi_channel.
  assert (Hgen : ∀ (s0 : FrameworkData.t A),
    (∀ c, on_channel s0 c = []) →
    let s := foldl (λ fd c, input_data_on_channel [] c fd) s0 chans in
    sampling_frequency s = sampling_frequency s0 ∧
    (∀ c, on_channel s c = []) ∧
    (∀ c, is_Some (_data s0 !! c) ∨ c ∈ chans → is_Some (_data s !! c))).
  { induction chans as [|c0 chans IH]; intros s0 Hempty; simpl.
    - repeat split; try done. intros c [H|H]; [done | by apply elem_of_nil in H].
    - destruct (appends_input c0 [] s0) as (Hf & Hc & Hs & Ho).
      destruct (IH (input_data_on_channel [] c0 s0)) as (Hf' & He' & Hs').
      { intros c. destruct (decide (c = c0)) as [-> | Hne].
        - rewrite Hc, Hempty. done.
        - unfold on_channel. rewrite (Ho c Hne). apply Hempty. }
      split; [congruence |]. split; [done |].
      intros c Hc'. apply Hs'.
      destruct (decide (c = c0)) as [-> | Hne].
      + left. apply input_is_Some.
      + destruct Hc' as [H | H].
        * left. by rewrite (Ho c Hne).
        * apply elem_of_cons in H as [-> | H]; [done | by right]. }
  destruct (Hgen (new (Some f))) as (Hf & He & Hs); [done |].
  split; [done |]. split; [done |].
  intros c Hc. apply on_channel_Some; [apply Hs; by right | apply He].
Qed.

End Containers.

Lemma well_formed_lookup {A} (d : FrameworkData.t A) (c : string) :
  FrameworkData.well_formed d → c ∈ FrameworkData.channels d →
  ∃ l, FrameworkData._data d !! c = Some l ∧
       len l = FrameworkData.get_data_count d.
Proof.
  intros [_ Hall] Hc. rewrite Forall_forall in Hall.
  specialize (Hall c Hc).
  destruct (FrameworkData._data d !! c) as [l|]; [| done].
  exists l. split; [done |]. by injection Hall.
Qed.

(** ** Blocks of repeated samples *)

Lemma length_bind_replicate {A} (xs : list A) (n : nat) :
  length (xs ≫= replicate n) = (length xs * n)%nat.
Proof.
  induction xs as [|x xs IH]; [done |].
  rewrite bind_cons, length_app, length_replicate, IH. simpl. lia.
Qed.

(** Sample [i] of the upsampled sequence is the sample [i / n] of the
    original one. *)
Lemma lookup_bind_replicate {A} (xs : list A) (n i : nat) :
  (0 < n)%nat → (xs ≫= replicate n) !! i = xs !! (i / n)%nat.
Proof.
  intros Hn. revert i. induction xs as [|x xs IH]; intros i.
  - by rewrite !lookup_nil.
  - rewrite bind_cons. destruct (decide (i < n)%nat) as [Hi|Hi].
    + rewrite lookup_app_l by (by rewrite length_replicate).
      rewrite Nat.div_small by done. simpl.
      by apply lookup_replicate_2.
    + rewrite lookup_app_r by (rewrite length_replicate; lia).
      rewrite length_replicate, IH.
      replace i with ((i - n) + 1 * n)%nat at 2 by lia.
      rewrite Nat.div_add by lia.
      by rewrite Nat.add_1_r.
Qed.

Lemma lookup_bind_py_repeat (xs : list Z) (count i : Z) :
  0 < count → 0 ≤ i →
  (xs ≫= λ x, py_repeat x count) !! Z.to_nat i = xs !! Z.to_nat (i / count).
Proof.
  intros Hc Hi. unfold py_repeat.
  change (λ x : Z, replicate (Z.to_nat count) x) with
    (@replicate Z (Z.to_nat count)).
  rewrite lookup_bind_replicate by lia.
  by rewrite Z2Nat.inj_div by lia.
Qed.

Lemma len_bind_py_repeat (xs : list Z) (count : Z) :
  0 ≤ count → len (xs ≫= λ x, py_repeat x count) = len xs * count.
Proof.
  intros Hc. unfold py_repeat, len.
  change (λ x : Z, replicate (Z.to_nat count) x) with
    (@replicate Z (Z.to_nat count)).
  rewrite length_bind_replicate. lia.
Qed.

(** ** DataReplicate *)

Section DataReplicateChannel.
Import FrameworkData DataReplicate.
Variable self : DataReplicate.t.
Variable main : FrameworkData.t Z.

Let count := data_repetition_count self.

(** The replication loop of one channel never fails. *)
Lemma replicate_elements c xs s :
  ∃ s', for_each xs
          (λ element processed_data,
             Ok (input_data_on_channel
                   ((λ _, element) <$> py_range 0 (data_repetition_count self))
                   c processed_data)) s = Ok s' ∧
        appends c (xs ≫= λ x : Z, py_repeat x count) s s'.
Proof.
  destruct (for_each_inputs xs (λ x : Z, py_repeat x count) c s)
    as (s' & Hrun & Happ).
  exists s'. split; [| done]. rewrite <- Hrun.
  apply for_each_ext. intros x t _. by rewrite fmap_const_py_range.
Qed.

Lemma process_channel_ok c xs s :
  _data main !! c = Some xs →
  (use_extra_data self = true → 0 < extra_data self → xs ≠ []) →
  ∃ s', process_channel self main c s = Ok s' ∧
        appends c (replicated count (use_extra_data self) (extra_data self) xs)
          s s'.
Proof.
  intros Hxs Hne. unfold process_channel, get_data_on_channel.
  rewrite (dict_getitem_Some _ _ _ Hxs). simpl.
  destruct (replicate_elements c xs s) as (s1 & -> & Happ1). simpl.
  unfold replicated. destruct (use_extra_data self) eqn:Huse.
  - destruct (last xs) as [v|] eqn:Hlast.
    + rewrite (py_getitem_last _ _ Hlast), py_comprehension_ok. simpl.
      eexists. split; [done |].
      eapply appends_trans; [exact Happ1 |].
      rewrite length_py_range, Z.sub_0_r. apply appends_input.
    + apply last_None in Hlast as ->.
      destruct (Z.ltb_spec 0 (extra_data self)) as [Hpos | Hle].
      { by destruct Hne. }
      unfold py_range. rewrite seqZ_nil by lia. simpl.
      eexists. split; [done |].
      exact (appends_trans _ _ _ _ _ _ Happ1 (appends_input _ _ _)).
  - exists s1. split; [done |]. by rewrite app_nil_r.
Qed.

Lemma process_channel_empty c s :
  _data main !! c = Some [] →
  use_extra_data self = true → 0 < extra_data self →
  process_channel self main c s = Raise IndexError.
Proof.
  intros Hxs Huse Hpos. unfold process_channel, get_data_on_channel.
  rewrite (dict_getitem_Some _ _ _ Hxs). simpl. rewrite Huse.
  rewrite py_getitem_nil, py_comprehension_raise; [done |].
  intros Hnil. apply (f_equal length) in Hnil.
  rewrite length_py_range in Hnil. simpl in Hnil. lia.
Qed.

End DataReplicateChannel.

(** The whole of [DataReplicate._process] on a container none of whose
    channels would make the tail extension fail. *)
Lemma data_replicate_process self data main :
  data !! "main" = Some main →
  NoDup (FrameworkData.channels main) →
  (∀ c, c ∈ FrameworkData.channels main →
        ∃ xs, FrameworkData._data main !! c = Some xs ∧
              (DataReplicate.use_extra_data self = true →
               0 < DataReplicate.extra_data self → xs ≠ [])) →
  ∃ out,
    DataReplicate._process self data = Ok {[ DataReplicate.OUTPUT_MAIN := out ]} ∧
    FrameworkData.sampling_frequency out = Some 1 ∧
    ∀ c xs, c ∈ FrameworkData.channels main →
            FrameworkData._data main !! c = Some xs →
            FrameworkData._data out !! c =
              Some (replicated (DataReplicate.data_repetition_count self)
                      (DataReplicate.use_extra_data self)
                      (DataReplicate.extra_data self) xs).
Proof.
  intros Hmain Hnd Hall. unfold DataReplicate._process.
  rewrite (dict_getitem_Some _ _ _ Hmain). simpl.
  destruct (from_multi_channel_spec (A := Z) 1 (FrameworkData.channels main))
    as (Hf0 & He0 & Hs0).
  destruct (for_each_channels (FrameworkData.channels main)
              (DataReplicate.process_channel self main)
              (λ c, replicated (DataReplicate.data_repetition_count self)
                      (DataReplicate.use_extra_data self)
                      (DataReplicate.extra_data self)
                      (FrameworkData.on_channel main c)) Hnd)
    with (s := FrameworkData.from_multi_channel (A := Z) 1
                 (FrameworkData.channels main))
    as (out & -> & Hf & Hin & _).
  { intros c s Hc. destruct (Hall c Hc) as (xs & Hxs & Hne).
    unfold FrameworkData.on_channel at 1. rewrite Hxs. simpl.
    by apply process_channel_ok. }
  exists out. simpl. split; [done |]. split; [congruence |].
  intros c xs Hc Hxs. destruct (Hin c Hc) as [Hpay Hsome].
  apply on_channel_Some.
  - apply Hsome. rewrite (Hs0 c Hc). by eexists.
  - rewrite Hpay, He0. simpl.
    unfold FrameworkData.on_channel. by rewrite Hxs.
Qed.

Lemma for_each_total {X S} (xs : list X) (body : X → S → result S) :
  (∀ x st, x ∈ xs → ∃ st', body x st = Ok st') →
  ∀ st, ∃ st', for_each xs body st = Ok st'.
Proof.
  induction xs as [|x xs IH]; intros Hbody st; simpl; [by eexists |].
  destruct (Hbody x st) as [st1 ->]; [apply list_elem_of_here |]. simpl.
  apply IH. intros y t Hy. apply Hbody. by apply list_elem_of_further.
Qed.

(** C3. On a channel of length [L >= 1], [DataReplicate._process] emits
    every sample [data_repetition_count] consecutive times, in the order of
    the samples, and, when [use_extra_data] is on, the last original sample
    [extra_data] more times at the end; the output channel has
    [L * data_repetition_count + (extra_data if enabled else 0)] samples. *)
Theorem C3_data_replicate
  (self : DataReplicate.t) (data : gmap string (FrameworkData.t Z))
  (main : FrameworkData.t Z) (c : string) (xs : list Z) :
  let count := DataReplicate.data_repetition_count self in
  let use_extra := DataReplicate.use_extra_data self in
  let extra := DataReplicate.extra_data self in
  data !! "main" = Some main →
  FrameworkData.well_formed main →
  c ∈ FrameworkData.channels main →
  FrameworkData._data main !! c = Some xs →
  1 ≤ len xs →
  0 ≤ count →
  (use_extra = true → 0 ≤ extra) →
  ∃ out ys latest,
    DataReplicate._process self data = Ok {[ "main" := out ]} ∧
    FrameworkData._data out !! c = Some ys ∧
    last xs = Some latest ∧
    ys = (xs ≫= replicate (Z.to_nat count)) ++
         (if use_extra then replicate (Z.to_nat extra) latest else []) ∧
    len ys = len xs * count + (if use_extra then extra else 0) ∧
    (∀ i, 0 ≤ i < len xs * count →
          ys !! Z.to_nat i = xs !! Z.to_nat (i / count)) ∧
    (use_extra = true →
     ∀ j, 0 ≤ j < extra → ys !! Z.to_nat (len xs * count + j) = Some latest).
Proof.
  intros count use_extra extra Hmain Hwf Hc Hxs Hlen Hcount Hextra.
  destruct (data_replicate_process self data main Hmain) as (out & Hrun & _ & Hout).
  { apply Hwf. }
  { intros c' Hc'. destruct (well_formed_lookup main c' Hwf Hc') as (l & Hl & Hn).
    destruct (well_formed_lookup main c Hwf Hc) as (l0 & Hl0 & Hn0).
    exists l. split; [done |]. intros _ _ ->.
    assert (l0 = xs) as -> by congruence.
    rewrite <- Hn0 in Hn. unfold len in Hn, Hlen. simpl in Hn. lia. }
  destruct (last xs) as [latest|] eqn:Hlast; last first.
  { apply last_None in Hlast as ->. unfold len in Hlen. simpl in Hlen. lia. }
  specialize (Hout c xs Hc Hxs).
  unfold replicated in Hout. rewrite Hlast in Hout.
  fold count use_extra extra in Hout.
  set (body := xs ≫= (λ x : Z, py_repeat x count)) in *.
  assert (Hbody : len body = len xs * count) by by apply len_bind_py_repeat.
  exists out, (body ++ if use_extra then py_repeat latest extra else []), latest.
  split; [exact Hrun |]. split; [exact Hout |]. split; [done |].
  split; [done |]. split; [| split].
  - rewrite len_app, Hbody. f_equal.
    destruct use_extra; [| done].
    unfold py_repeat. rewrite len_replicate. specialize (Hextra eq_refl). lia.
  - intros i [Hi0 Hi].
    rewrite lookup_app_l by (unfold len in *; lia).
    apply lookup_bind_py_repeat; [nia | done].
  - intros -> j [Hj0 Hj].
    rewrite lookup_app_r by (unfold len in *; lia).
    unfold py_repeat. apply lookup_replicate_2.
    unfold len in *. lia.
Qed.

(** Witness of C3, the scenario of the specification: channel [[10, 20]]
    with [data_repetition_count = 3], [use_extra_data] and
    [extra_data = 2]. *)
Lemma C3_data_replicate_witness :
  let main : FrameworkData.t Z :=
    FrameworkData.input_data_on_channel [10; 20] "ch" (FrameworkData.new None) in
  ∃ out,
    DataReplicate._process (DataReplicate.mk 3 true 2) {[ "main" := main ]}
    = Ok {[ "main" := out ]} ∧
    FrameworkData._data out !! "ch" = Some [10; 10; 10; 20; 20; 20; 20; 20].
Proof.
  intros main.
  destruct (C3_data_replicate (DataReplicate.mk 3 true 2) {[ "main" := main ]}
              main "ch" [10; 20])
    as (out & ys & latest & Hrun & Hys & Hlast & Heq & _).
  - reflexivity.
  - by_evaluation.
  - by_evaluation.
  - reflexivity.
  - vm_compute. discriminate.
  - vm_compute. discriminate.
  - intros _. vm_compute. discriminate.
  - exists out. split; [exact Hrun |].
    rewrite Hys, Heq. injection Hlast as <-. reflexivity.
Defined.

(** The whole of [DataReplicate._process] on a container with an empty
    channel, when the tail extension is on. *)
Lemma data_replicate_raises self data main :
  data !! "main" = Some main →
  Forall (λ c, is_Some (FrameworkData._data main !! c))
         (FrameworkData.channels main) →
  DataReplicate.use_extra_data self = true →
  0 < DataReplicate.extra_data self →
  (∃ c, c ∈ FrameworkData.channels main ∧
        FrameworkData._data main !! c = Some []) →
  DataReplicate._process self data = Raise IndexError.
Proof.
  intros Hmain Hall Huse Hpos Hbad. unfold DataReplicate._process.
  rewrite (dict_getitem_Some _ _ _ Hmain). simpl.
  rewrite for_each_raises with (e := IndexError); [done | |].
  - intros c st Hc. rewrite Forall_forall in Hall.
    destruct (Hall c Hc) as [[|x xs] Hxs].
    + right. by apply process_channel_empty.
    + left. destruct (process_channel_ok self main c (x :: xs) st Hxs)
        as (st' & Hrun & _); [done | by exists st'].
  - destruct Hbad as (c & Hc & Hxs). exists c. split; [done |].
    intros st. by apply process_channel_empty.
Qed.

(** C10. With [use_extra_data] on, [DataReplicate._process] reads the last
    element of every channel: it returns on every input all of whose
    channels carry at least one sample, and raises [IndexError] on every
    input that has an empty channel; so the failure is excluded exactly by
    that precondition. *)
Theorem C10_data_replicate_empty_channel
  (self : DataReplicate.t) (data : gmap string (FrameworkData.t Z))
  (main : FrameworkData.t Z) :
  data !! "main" = Some main →
  Forall (λ c, is_Some (FrameworkData._data main !! c))
         (FrameworkData.channels main) →
  DataReplicate.use_extra_data self = true →
  0 < DataReplicate.extra_data self →
  let every_channel_has_a_sample :=
    Forall (λ c, FrameworkData._data main !! c ≠ Some [])
           (FrameworkData.channels main) in
  (every_channel_has_a_sample →
   ∃ out, DataReplicate._process self data = Ok out) ∧
  (¬ every_channel_has_a_sample →
   DataReplicate._process self data = Raise IndexError) ∧
  ((∃ out, DataReplicate._process self data = Ok out)
   ↔ every_channel_has_a_sample).
Proof.
  intros Hmain Hall Huse Hpos nonempty.
  assert (Hgood : nonempty → ∃ out, DataReplicate._process self data = Ok out).
  { intros Hne. unfold DataReplicate._process.
    rewrite (dict_getitem_Some _ _ _ Hmain). simpl.
    destruct (for_each_total (FrameworkData.channels main)
                (DataReplicate.process_channel self main))
      with (st := FrameworkData.from_multi_channel (A := Z) 1
                    (FrameworkData.channels main)) as [out ->].
    - intros c st Hc. unfold nonempty in Hne. rewrite Forall_forall in Hne, Hall.
      destruct (Hall c Hc) as [xs Hxs].
      destruct (process_channel_ok self main c xs st Hxs) as (st' & Hrun & _).
      + intros _ _ ->. by apply (Hne c Hc).
      + by exists st'.
    - simpl. by eexists. }
  assert (Hbad : ¬ nonempty → DataReplicate._process self data = Raise IndexError).
  { intros Hne. apply not_Forall_Exists in Hne; [| apply _].
    apply Exists_exists in Hne as (c & Hc & Hempty).
    apply (data_replicate_raises self data main Hmain Hall Huse Hpos).
    exists c. split; [done |]. simpl in Hempty.
    by destruct (decide (FrameworkData._data main !! c = Some [])). }
  split; [done |]. split; [done |]. split; [| done].
  intros [out Hrun]. destruct (decide nonempty) as [|Hne]; [done |].
  rewrite (Hbad Hne) in Hrun. discriminate.
Qed.

(** Witness of C10: one empty channel, tail extension on. *)
Lemma C10_data_replicate_empty_channel_witness :
  let main : FrameworkData.t Z :=
    FrameworkData.input_data_on_channel [] "ch" (FrameworkData.new None) in
  DataReplicate._process (DataReplicate.mk 3 true 2) {[ "main" := main ]}
  = Raise IndexError.
Proof.
  intros main.
  assert (Hpos : 0 < 2) by lia.
  destruct (C10_data_replicate_empty_channel (DataReplicate.mk 3 true 2)
              {[ "main" := main ]} main) as (_ & Hraise & _).
  - reflexivity.
  - by_evaluation.
  - reflexivity.
  - exact Hpos.
  - apply Hraise. intros Hall. apply Forall_cons in Hall as [Hch _].
    by apply Hch.
Defined.

(** ** Loops over the indices of a list *)

(** [for i in range(len(l)): body(i)] visits the elements of [l] in order,
    provided [body i] only depends on [l[i]]. *)
Lemma for_each_indices {A St} (l : list A) (body : Z → St → result St)
  (g : A → St → result St) :
  (∀ (i : nat) x st, l !! i = Some x → body (Z.of_nat i) st = g x st) →
  ∀ st, for_each (py_range 0 (len l)) body st = for_each l g st.
Proof.
  induction l as [|x l IH] using rev_ind; intros Hbody st; [done |].
  unfold py_range, len in *. rewrite length_app, Z.sub_0_r. simpl.
  replace (Z.of_nat (length l + 1)) with (Z.of_nat (S (length l))) by lia.
  rewrite seqZ_S, !for_each_app. rewrite Z.sub_0_r in IH. rewrite IH.
  - destruct (for_each l g st) as [st1 | e |]; simpl; try done.
    rewrite (Hbody (length l) x); [done |].
    by rewrite lookup_app_r, Nat.sub_diag.
  - intros i y t Hy. apply Hbody. by rewrite lookup_app_l by (by eapply lookup_lt_Some).
Qed.

Lemma channels_as_set_elements {A} (d : FrameworkData.t A) :
  NoDup (elements (FrameworkData.get_channels_as_set d)) ∧
  ∀ c, c ∈ elements (FrameworkData.get_channels_as_set d)
       ↔ c ∈ FrameworkData.channels d.
Proof.
  split; [apply NoDup_elements |].
  intros c. unfold FrameworkData.get_channels_as_set.
  by rewrite elem_of_elements, elem_of_list_to_set.
Qed.

(** ** Interpolate, non-sliding branch *)

Section InterpolatePlain.
Import FrameworkData Interpolate.
Variable self : Interpolate.t.
Variable main : FrameworkData.t Z.

Lemma epoch_value_lookup c vs (w : nat) v :
  _data main !! c = Some vs → vs !! w = Some v →
  epoch_value main c (Z.of_nat w) = Ok v.
Proof.
  intros Hvs Hv. unfold epoch_value. rewrite (dict_getitem_Some _ _ _ Hvs).
  simpl. apply py_getitem_lookup; [lia |]. by rewrite Nat2Z.id.
Qed.

Lemma process_plain_channel_ok c vs s :
  _data main !! c = Some vs →
  len vs = get_data_count main →
  ∃ s', process_plain_channel self main c s = Ok s' ∧
        appends c (upsampled (window_size self) vs) s s'.
Proof.
  intros Hvs Hlen. unfold process_plain_channel. rewrite <- Hlen.
  rewrite (for_each_indices vs _
             (λ v s, Ok (input_data_on_channel
                           (py_repeat v (window_size self)) c s))).
  - apply for_each_inputs.
  - intros w v st Hv. rewrite (epoch_value_lookup c vs w v Hvs Hv).
    rewrite py_comprehension_ok, length_py_range, Z.sub_0_r. done.
Qed.

End InterpolatePlain.

Lemma interpolate_plain_process fuel self data main :
  data !! "main" = Some main →
  FrameworkData.well_formed main →
  Interpolate.sliding_window self = false →
  ∃ out,
    Interpolate._process fuel self data = Ok {[ "main" := out ]} ∧
    FrameworkData.sampling_frequency out = Some 1 ∧
    ∀ c vs, c ∈ FrameworkData.channels main →
            FrameworkData._data main !! c = Some vs →
            FrameworkData._data out !! c =
              Some (upsampled (Interpolate.window_size self) vs).
Proof.
  intros Hmain Hwf Hplain. unfold Interpolate._process.
  change Interpolate.INPUT_MAIN with "main".
  rewrite (dict_getitem_Some _ _ _ Hmain). simpl. rewrite Hplain.
  destruct (channels_as_set_elements main) as [Hnd Hel].
  set (chans := elements (FrameworkData.get_channels_as_set main)) in *.
  destruct (from_multi_channel_spec (A := Z) 1 chans) as (Hf0 & He0 & Hs0).
  destruct (for_each_channels chans
              (Interpolate.process_plain_channel self main)
              (λ c, upsampled (Interpolate.window_size self)
                      (FrameworkData.on_channel main c)) Hnd)
    with (s := FrameworkData.from_multi_channel (A := Z) 1 chans)
    as (out & -> & Hf & Hin & _).
  { intros c s Hc. apply Hel in Hc.
    destruct (well_formed_lookup main c Hwf Hc) as (vs & Hvs & Hlen).
    unfold FrameworkData.on_channel at 1. rewrite Hvs. simpl.
    by apply process_plain_channel_ok. }
  exists out. split; [done |]. split; [congruence |].
  intros c vs Hc Hvs. apply Hel in Hc.
  destruct (Hin c Hc) as [Hpay Hsome].
  apply on_channel_Some.
  - apply Hsome. rewrite (Hs0 c Hc). by eexists.
  - rewrite Hpay, He0. simpl. unfold FrameworkData.on_channel. by rewrite Hvs.
Qed.

(** C7. In non-sliding mode, a channel holding [K] epoch values comes out of
    [Interpolate._process] as a sequence of length [K * window_size] whose
    sample [i] is the epoch value at position [i // window_size]: each value
    replicated [window_size] times, the blocks in epoch order. *)
Theorem C7_interpolate_non_sliding
  (fuel : nat) (self : Interpolate.t) (data : gmap string (FrameworkData.t Z))
  (main : FrameworkData.t Z) (c : string) (vs : list Z) :
  let window_size := Interpolate.window_size self in
  data !! "main" = Some main →
  FrameworkData.well_formed main →
  c ∈ FrameworkData.channels main →
  FrameworkData._data main !! c = Some vs →
  Interpolate.sliding_window self = false →
  0 ≤ window_size →
  ∃ out ys,
    Interpolate._process fuel self data = Ok {[ "main" := out ]} ∧
    FrameworkData._data out !! c = Some ys ∧
    ys = vs ≫= replicate (Z.to_nat window_size) ∧
    len ys = len vs * window_size ∧
    ∀ i, 0 ≤ i < len vs * window_size →
         ys !! Z.to_nat i = vs !! Z.to_nat (i / window_size) ∧
         is_Some (ys !! Z.to_nat i).
Proof.
  intros ws Hmain Hwf Hc Hvs Hplain Hws.
  destruct (interpolate_plain_process fuel self data main Hmain Hwf Hplain)
    as (out & Hrun & _ & Hout).
  exists out, (upsampled ws vs).
  split; [exact Hrun |]. split; [by apply Hout |]. split; [done |].
  assert (Hlen : len (upsampled ws vs) = len vs * ws)
    by by apply len_bind_py_repeat.
  split; [done |]. intros i [Hi0 Hi]. split.
  - pose proof (len_nonneg vs).
    apply lookup_bind_py_repeat; [nia | done].
  - apply lookup_lt_is_Some. unfold len in *. lia.
Qed.

(** Witness of C7: three epoch values under a window of 3 samples. *)
Lemma C7_interpolate_non_sliding_witness :
  let main : FrameworkData.t Z :=
    FrameworkData.input_data_on_channel [5; 9; 2] "ch" (FrameworkData.new None) in
  ∃ out,
    Interpolate._process 0 (Interpolate.mk 3 false 0) {[ "main" := main ]}
    = Ok {[ "main" := out ]} ∧
    FrameworkData._data out !! "ch" = Some [5; 5; 5; 9; 9; 9; 2; 2; 2].
Proof.
  intros main.
  destruct (C7_interpolate_non_sliding 0 (Interpolate.mk 3 false 0)
              {[ "main" := main ]} main "ch" [5; 9; 2])
    as (out & ys & Hrun & Hys & Heq & _).
  - reflexivity.
  - by_evaluation.
  - by_evaluation.
  - reflexivity.
  - reflexivity.
  - vm_compute. discriminate.
  - exists out. split; [exact Hrun |]. rewrite Hys, Heq. reflexivity.
Defined.

(** ** Slices *)

Lemma slice_bound_in_range n i : 0 ≤ i ≤ n → slice_bound n i = i.
Proof.
  intros [H0 Hn]. unfold slice_bound.
  destruct (Z.ltb_spec i 0); lia.
Qed.

Lemma py_slice_window {A} (l : list A) (a b : Z) :
  0 ≤ a ≤ b → b ≤ len l →
  py_slice l a b = take (Z.to_nat (b - a)) (drop (Z.to_nat a) l).
Proof.
  intros Hab Hb. unfold py_slice.
  by rewrite !slice_bound_in_range by lia.
Qed.

Lemma py_slice_suffix {A} (l : list A) (a : Z) :
  0 ≤ a ≤ len l → py_slice l a (len l) = drop (Z.to_nat a) l.
Proof.
  intros Ha. rewrite py_slice_window by lia.
  apply take_ge. rewrite length_drop. unfold len. lia.
Qed.

(** ** The loops, in general *)

Lemma while_S {St} (cond : St → bool) (body : St → result St) fuel st :
  while (S fuel) cond body st
  = if cond st then body st ≫= while fuel cond body else Ok st.
Proof. done. Qed.

Lemma while_done {St} (cond : St → bool) (body : St → result St) fuel st :
  cond st = false → while fuel cond body st = Ok st.
Proof. intros H. destruct fuel; simpl; by rewrite H. Qed.

(** More fuel never changes the outcome of a loop that finished. *)
Lemma while_fuel_mono {St} (cond : St → bool) (body : St → result St)
  (fuel fuel' : nat) (st r : St) :
  (fuel ≤ fuel')%nat →
  while fuel cond body st = Ok r → while fuel' cond body st = Ok r.
Proof.
  revert fuel' st. induction fuel as [|fuel IH]; intros fuel' st Hle.
  - simpl. destruct (cond st) eqn:Hc; [discriminate |].
    intros Hr. destruct fuel'; simpl; by rewrite Hc.
  - destruct fuel' as [|fuel']; [lia |]. simpl.
    destruct (cond st); [| done].
    destruct (body st) as [st1 | e |]; simpl; try discriminate.
    apply IH. lia.
Qed.

(** A property that every round preserves holds when the loop returns. *)
Lemma while_invariant {St} (P : St → Prop) (cond : St → bool)
  (body : St → result St) :
  (∀ st st', body st = Ok st' → P st → P st') →
  ∀ fuel st r, while fuel cond body st = Ok r → P st → P r.
Proof.
  intros Hbody. induction fuel as [|fuel IH]; intros st r; simpl.
  - destruct (cond st); [discriminate |]. by intros [= <-].
  - destruct (cond st); [| by intros [= <-]].
    destruct (body st) as [st1 | e |] eqn:Hb; simpl; try discriminate.
    intros Hr HP. apply (IH st1 r Hr). by apply (Hbody st).
Qed.

Lemma for_each_invariant {X St} (P : St → Prop) (xs : list X)
  (body : X → St → result St) :
  (∀ x st st', body x st = Ok st' → P st → P st') →
  ∀ st r, for_each xs body st = Ok r → P st → P r.
Proof.
  intros Hbody. induction xs as [|x xs IH]; intros st r; simpl.
  - by intros [= <-].
  - destruct (body x st) as [st1 | e |] eqn:Hb; simpl; try discriminate.
    intros Hr HP. apply (IH st1 r Hr). by apply (Hbody x st).
Qed.

(** ** The number of rounds *)

Lemma loop_rounds_nonneg ws step n : 1 ≤ step → 0 ≤ loop_rounds ws step n.
Proof.
  intros Hs. unfold loop_rounds.
  destruct (Z.leb_spec (n - ws) 0); [lia |].
  apply Z.div_pos; lia.
Qed.

(** [loop_rounds] is the first [k] at which the loop condition fails. *)
Lemma loop_rounds_spec ws step n :
  1 ≤ step →
  (∀ k, 0 ≤ k < loop_rounds ws step n → k * step + ws < n) ∧
  ¬ (loop_rounds ws step n * step + ws < n).
Proof.
  intros Hs. unfold loop_rounds.
  destruct (Z.leb_spec (n - ws) 0) as [Hle | Hgt]; [split; intros; lia |].
  pose proof (Z.div_mod (n - ws + step - 1) step) as Hdm.
  pose proof (Z.mod_pos_bound (n - ws + step - 1) step) as Hmod.
  set (q := (n - ws + step - 1) / step) in *.
  set (r := (n - ws + step - 1) mod step) in *.
  split; [intros k [Hk0 Hk] |]; nia.
Qed.

Lemma loop_rounds_iff ws step n k :
  1 ≤ step → 0 ≤ k → (k < loop_rounds ws step n ↔ k * step + ws < n).
Proof.
  intros Hs Hk. destruct (loop_rounds_spec ws step n Hs) as [Hbelow Hstop].
  split; [by eauto |]. intros Hin.
  destruct (Z.lt_ge_cases k (loop_rounds ws step n)) as [|Hge]; [done |].
  exfalso. apply Hstop. nia.
Qed.

(** ** The sliding-window segmenter *)

Section Segmenter.
Import FrameworkData SlidingWindowSegmenter.
Variable self : SlidingWindowSegmenter.t.
Variable data : FrameworkData.t Z.
Hypothesis Hwf : well_formed data.

Let ws := window_size self.
Let step := step_size self.
Let N := get_data_count data.

(** One round of the loop: every channel receives its window. *)
Lemma loop_body_spec seg index :
  ∃ seg',
    loop_body self data (get_channels_as_set data) (seg, index)
    = Ok (seg', index + step) ∧
    sampling_frequency seg' = sampling_frequency seg ∧
    ∀ c xs, c ∈ channels data → _data data !! c = Some xs →
      on_channel seg' c = on_channel seg c ++ [py_slice xs index (index + ws)].
Proof.
  unfold loop_body.
  destruct (channels_as_set_elements data) as [Hnd Hel].
  destruct (for_each_channels (elements (get_channels_as_set data))
              (λ channel segmented_data,
                 samples ← dict_getitem (_data data) channel;
                 Ok (input_data_on_channel
                       [py_slice samples index (index + window_size self)]
                       channel segmented_data))
              (λ c, [py_slice (on_channel data c) index (index + ws)]) Hnd)
    with (s := seg) as (seg' & -> & Hf & Hin & _).
  { intros c s Hc. apply Hel in Hc.
    destruct (well_formed_lookup data c Hwf Hc) as (xs & Hxs & _).
    rewrite (dict_getitem_Some _ _ _ Hxs). simpl.
    eexists. split; [done |].
    unfold on_channel at 1. rewrite Hxs. apply appends_input. }
  exists seg'. split; [done |]. split; [done |].
  intros c xs Hc Hxs. apply Hel in Hc. destruct (Hin c Hc) as [-> _].
  unfold on_channel at 2. by rewrite Hxs.
Qed.

(** [n] rounds of the loop, when the condition holds exactly [n] times. *)
Lemma windows_rounds (n : nat) :
  ∀ fuel index seg,
    (n ≤ fuel)%nat →
    (∀ k : nat, (k < n)%nat → index + Z.of_nat k * step + ws < N) →
    ¬ (index + Z.of_nat n * step + ws < N) →
    ∃ seg',
      while fuel (λ st, snd st + window_size self <? get_data_count data)
        (loop_body self data (get_channels_as_set data)) (seg, index)
      = Ok (seg', index + Z.of_nat n * step) ∧
      sampling_frequency seg' = sampling_frequency seg ∧
      ∀ c xs, c ∈ channels data → _data data !! c = Some xs →
        on_channel seg' c =
          on_channel seg c ++
          ((λ k : nat, py_slice xs (index + Z.of_nat k * step)
                         (index + Z.of_nat k * step + ws)) <$> seq 0 n).
Proof.
  induction n as [|n IH]; intros fuel index seg Hfuel Hin Hstop.
  - exists seg. split; [| split; [done |]].
    + replace (index + Z.of_nat 0 * step) with index in * by lia.
      apply while_done. cbn [snd]. apply Z.ltb_ge. fold ws N. lia.
    + intros c xs _ _. simpl. by rewrite app_nil_r.
  - destruct fuel as [|fuel]; [lia |]. rewrite while_S. cbn [snd].
    destruct (Z.ltb_spec (index + window_size self) (get_data_count data))
      as [_ | Hge].
    2: { specialize (Hin O). fold ws N in Hge. lia. }
    destruct (loop_body_spec seg index) as (seg1 & -> & Hf1 & Hc1).
    cbn [mbind result_bind].
    destruct (IH fuel (index + step) seg1) as (seg' & Hrun & Hf & Hc).
    + lia.
    + intros k Hk. specialize (Hin (S k)). lia.
    + intros Hlt. apply Hstop. lia.
    + exists seg'. split; [| split; [congruence |]].
      * rewrite Hrun. do 2 f_equal. lia.
      * intros c xs Hch Hxs.
        rewrite (Hc c xs Hch Hxs), (Hc1 c xs Hch Hxs), <- app_assoc.
        f_equal. simpl. f_equal.
        { f_equal; lia. }
        rewrite <- fmap_S_seq, <- list_fmap_compose.
        apply list_fmap_ext. intros i k _. simpl. f_equal; lia.
Qed.

(** The trailing block on one channel. *)
Lemma fill_and_emit_spec c xs index seg :
  _data data !! c = Some xs → len xs = N →
  filling_value self = "zero" ∨ filling_value self = "latest" →
  0 ≤ index → 0 < N - index ≤ ws →
  ∃ seg',
    fill_and_emit self data N index (N - index) c seg = Ok seg' ∧
    appends c (tail_epochs xs ws index (pad_value (filling_value self) xs))
      seg seg'.
Proof.
  intros Hxs Hlen Hfv Hidx Hrem. unfold fill_and_emit.
  rewrite (dict_getitem_Some _ _ _ Hxs). simpl.
  assert (Hpad :
    (if String.eqb (filling_value self) "zero"
     then Ok (py_repeat 0 (window_size self - (N - index)))
     else if String.eqb (filling_value self) "latest"
          then py_getitem xs (N - 1) ≫= λ latest,
               Ok (py_repeat latest (window_size self - (N - index)))
          else Ok [])
    = Ok (py_repeat (pad_value (filling_value self) xs) (ws - (N - index)))).
  { unfold pad_value. destruct Hfv as [-> | ->]; simpl; [done |].
    destruct (last xs) as [v|] eqn:Hlast.
    - rewrite last_lookup in Hlast.
      rewrite (py_getitem_lookup xs (N - 1) v); [done | lia |].
      rewrite <- Hlast. f_equal. unfold len in Hlen. lia.
    - apply last_None in Hlast as ->. unfold len in Hlen. simpl in Hlen. lia. }
  rewrite Hpad. simpl. eexists. split; [done |].
  rewrite <- Hlen, py_slice_suffix by lia.
  replace (tail_epochs xs ws index (pad_value (filling_value self) xs))
    with [drop (Z.to_nat index) xs
          ++ py_repeat (pad_value (filling_value self) xs)
               (ws - (len xs - index))].
  { apply appends_input. }
  unfold tail_epochs. rewrite Hlen.
  destruct (Z.eqb_spec (N - index) 0); [lia |].
  destruct (Z.eqb_spec (N - index) ws) as [-> | _]; [| done].
  unfold py_repeat. rewrite Z.sub_diag. simpl. by rewrite app_nil_r.
Qed.

Lemma seq_windows xs (rounds : Z) :
  1 ≤ step → 0 ≤ ws → len xs = N →
  (∀ k, 0 ≤ k < rounds → k * step + ws < N) →
  (λ k : nat, py_slice xs (0 + Z.of_nat k * step) (0 + Z.of_nat k * step + ws))
    <$> seq 0 (Z.to_nat rounds)
  = loop_windows xs ws step rounds.
Proof.
  intros Hs Hw Hlen Hin. unfold loop_windows, seqZ.
  rewrite <- list_fmap_compose. apply list_fmap_ext.
  intros i k Hk. apply lookup_seq in Hk as [-> Hk]. simpl.
  rewrite Z.add_0_r. specialize (Hin (Z.of_nat i)).
  rewrite py_slice_window by lia. unfold window_at.
  do 2 f_equal; lia.
Qed.

(** The whole of [segment_data], channel by channel. *)
Lemma segment_data_channels fuel :
  1 ≤ step < ws →
  filling_value self = "zero" ∨ filling_value self = "latest" →
  (Z.to_nat (loop_rounds ws step N) ≤ fuel)%nat →
  ∃ seg out,
    windows_loop fuel self data = Ok (seg, loop_rounds ws step N * step) ∧
    segment_data fuel self data = Ok out ∧
    sampling_frequency out = sampling_frequency data ∧
    0 ≤ N - loop_rounds ws step N * step ≤ ws ∧
    ∀ c xs, c ∈ channels data → _data data !! c = Some xs →
      len xs = N ∧
      on_channel seg c = loop_windows xs ws step (loop_rounds ws step N) ∧
      on_channel out c =
        on_channel seg c ++
        tail_epochs xs ws (loop_rounds ws step N * step)
          (pad_value (filling_value self) xs).
Proof.
  intros Hstep Hfv Hfuel.
  set (K := loop_rounds ws step N) in *.
  assert (HK0 : 0 ≤ K) by (apply loop_rounds_nonneg; lia).
  destruct (loop_rounds_spec ws step N) as [Hbelow Hstop]; [lia |].
  fold K in Hbelow, Hstop.
  assert (HN0 : 0 ≤ N).
  { unfold N, get_data_count. destruct (channels data); [done |].
    apply len_nonneg. }
  assert (Hrem : 0 ≤ N - K * step ≤ ws).
  { split; [| lia].
    destruct (Z.eq_dec K 0) as [-> | HKpos]; [lia |].
    specialize (Hbelow (K - 1)). nia. }
  destruct (windows_rounds (Z.to_nat K) fuel 0
              (new (sampling_frequency data)) Hfuel)
    as (seg & Hloop & Hfseg & Hcseg).
  { intros k Hk. specialize (Hbelow (Z.of_nat k)). lia. }
  { rewrite Z2Nat.id by done. lia. }
  rewrite Z2Nat.id, Z.add_0_l in Hloop by done. simpl in Hfseg.
  assert (Hseg : ∀ c xs, c ∈ channels data → _data data !! c = Some xs →
            len xs = N ∧ on_channel seg c = loop_windows xs ws step K).
  { intros c xs Hc Hxs.
    destruct (well_formed_lookup data c Hwf Hc) as (xs' & Hxs' & Hlen).
    assert (xs' = xs) as -> by congruence. split; [done |].
    rewrite (Hcseg c xs Hc Hxs). unfold on_channel at 1. simpl.
    apply seq_windows; try done; lia. }
  unfold segment_data, windows_loop. rewrite Hloop. simpl. fold N.
  destruct (Z.eqb_spec (N - K * step) 0) as [Hzero | Hnz]; simpl.
  - exists seg, seg.
    split; [done |]. split; [done |]. split; [done |]. split; [lia |].
    intros c xs Hc Hxs. destruct (Hseg c xs Hc Hxs) as [Hlen Hon].
    split; [done |]. split; [done |].
    unfold tail_epochs. rewrite Hlen.
    destruct (Z.eqb_spec (N - K * step) 0); [| lia]. by rewrite app_nil_r.
  - destruct (channels_as_set_elements data) as [Hnd Hel].
    destruct (for_each_channels (elements (get_channels_as_set data))
                (fill_and_emit self data N (K * step) (N - K * step))
                (λ c, tail_epochs (on_channel data c) ws (K * step)
                        (pad_value (filling_value self) (on_channel data c)))
                Hnd)
      with (s := seg) as (out & -> & Hf & Hin & _).
    { intros c s Hc. apply Hel in Hc.
      destruct (well_formed_lookup data c Hwf Hc) as (xs & Hxs & Hlen).
      unfold on_channel. rewrite Hxs. simpl.
      apply fill_and_emit_spec; try done; lia. }
    exists seg, out.
    split; [done |]. split; [done |]. split; [congruence |]. split; [lia |].
    intros c xs Hc Hxs. destruct (Hseg c xs Hc Hxs) as [Hlen Hon].
    split; [done |]. split; [done |].
    destruct (Hin c) as [-> _]; [by apply Hel |].
    unfold on_channel at 2 3. by rewrite Hxs.
Qed.

End Segmenter.

(** C1. On a channel of length [N] the loop of [segment_data] starts at
    index 0 and emits the window [[index, index + window_size)] exactly while
    [index + window_size < N], strictly, advancing by [step_size]; a final
    window with [remaining == window_size] is left to the trailing block,
    which emits it as it is. *)
Theorem C1_segmenter_loop_boundary
  (fuel : nat) (self : SlidingWindowSegmenter.t) (data : FrameworkData.t Z)
  (c : string) (xs : list Z) :
  let window_size := SlidingWindowSegmenter.window_size self in
  let step_size := SlidingWindowSegmenter.step_size self in
  let N := len xs in
  let rounds := loop_rounds window_size step_size N in
  FrameworkData.well_formed data →
  c ∈ FrameworkData.channels data →
  FrameworkData._data data !! c = Some xs →
  1 ≤ step_size < window_size →
  SlidingWindowSegmenter.filling_value self = "zero"
  ∨ SlidingWindowSegmenter.filling_value self = "latest" →
  (Z.to_nat rounds ≤ fuel)%nat →
  ∃ seg out,
    SlidingWindowSegmenter.windows_loop fuel self data
    = Ok (seg, rounds * step_size) ∧
    (∀ k, 0 ≤ k → (k < rounds ↔ k * step_size + window_size < N)) ∧
    FrameworkData.on_channel seg c =
      (λ k, window_at xs (k * step_size) window_size) <$> seqZ 0 rounds ∧
    SlidingWindowSegmenter.segment_data fuel self data = Ok out ∧
    (N - rounds * step_size = window_size →
     ¬ (rounds * step_size + window_size < N) ∧
     length (drop (Z.to_nat (rounds * step_size)) xs) = Z.to_nat window_size ∧
     FrameworkData.on_channel out c =
       FrameworkData.on_channel seg c
       ++ [drop (Z.to_nat (rounds * step_size)) xs]).
Proof.
  intros ws step N K Hwf Hc Hxs Hstep Hfv Hfuel.
  destruct (well_formed_lookup data c Hwf Hc) as (xs' & Hxs' & Hlen).
  assert (xs' = xs) as -> by congruence. fold N in Hlen.
  unfold K in Hfuel. rewrite Hlen in Hfuel.
  destruct (segment_data_channels self data Hwf fuel Hstep Hfv Hfuel)
    as (seg & out & Hloop & Hrun & _ & Hrem & Hch).
  destruct (Hch c xs Hc Hxs) as (_ & Hseg & Hout).
  rewrite <- Hlen in Hloop, Hseg, Hout, Hrem.
  fold ws step K in Hloop, Hseg, Hout, Hrem.
  exists seg, out. split; [exact Hloop |].
  split; [intros k Hk; apply loop_rounds_iff; [lia | done] |].
  split; [exact Hseg |]. split; [exact Hrun |].
  intros Hfull. split; [lia |]. split.
  - assert (0 ≤ K * step).
    { pose proof (loop_rounds_nonneg ws step N). unfold K. nia. }
    rewrite length_drop. unfold N, len in Hfull. lia.
  - rewrite Hout. f_equal. unfold tail_epochs. fold N. rewrite Hfull.
    destruct (Z.eqb_spec ws 0); [lia |]. by rewrite Z.eqb_refl.
Qed.

(** Witness of C1, the scenario of the specification: channel
    [[1, 2, 3, 4, 5]] with [window_size = 3], [step_size = 2] and [zero]
    filling gives the epochs [[1, 2, 3]] and [[3, 4, 5]]. *)
Lemma C1_segmenter_loop_boundary_witness :
  let data : FrameworkData.t Z :=
    FrameworkData.input_data_on_channel [1; 2; 3; 4; 5] "ch"
      (FrameworkData.new (Some 250)) in
  ∃ seg out,
    SlidingWindowSegmenter.windows_loop 1
      (SlidingWindowSegmenter.mk 3 "zero" 2) data = Ok (seg, 2) ∧
    FrameworkData.on_channel seg "ch" = [[1; 2; 3]] ∧
    SlidingWindowSegmenter.segment_data 1
      (SlidingWindowSegmenter.mk 3 "zero" 2) data = Ok out ∧
    FrameworkData.on_channel out "ch" = [[1; 2; 3]; [3; 4; 5]].
Proof.
  intros data.
  destruct (C1_segmenter_loop_boundary 1 (SlidingWindowSegmenter.mk 3 "zero" 2)
              data "ch" [1; 2; 3; 4; 5])
    as (seg & out & Hloop & _ & Hseg & Hrun & Htail).
  - by_evaluation.
  - by_evaluation.
  - reflexivity.
  - simpl. lia.
  - by left.
  - vm_compute. lia.
  - exists seg, out. split; [exact Hloop |]. split; [exact Hseg |].
    split; [exact Hrun |].
    destruct (Htail eq_refl) as (_ & _ & ->). rewrite Hseg. reflexivity.
Defined.

(** C4. After the loop, with [remaining = N - index]: nothing more is
    emitted when [remaining = 0]; the remaining samples are emitted unfilled
    when [remaining = window_size]; and otherwise the final epoch is the
    remaining samples followed by a fill of length
    [window_size - remaining > 0], all zeros under [zero] and the last sample
    of the channel repeated under [latest]. *)
Theorem C4_segmenter_filling
  (fuel : nat) (self : SlidingWindowSegmenter.t) (data : FrameworkData.t Z)
  (c : string) (xs : list Z) :
  let window_size := SlidingWindowSegmenter.window_size self in
  let step_size := SlidingWindowSegmenter.step_size self in
  let filling_value := SlidingWindowSegmenter.filling_value self in
  let N := len xs in
  let index := loop_rounds window_size step_size N * step_size in
  let remaining := N - index in
  FrameworkData.well_formed data →
  c ∈ FrameworkData.channels data →
  FrameworkData._data data !! c = Some xs →
  1 ≤ step_size < window_size →
  filling_value = "zero" ∨ filling_value = "latest" →
  (Z.to_nat (loop_rounds window_size step_size N) ≤ fuel)%nat →
  ∃ seg out,
    SlidingWindowSegmenter.windows_loop fuel self data = Ok (seg, index) ∧
    SlidingWindowSegmenter.segment_data fuel self data = Ok out ∧
    0 ≤ remaining ≤ window_size ∧
    (remaining = 0 →
     FrameworkData.on_channel out c = FrameworkData.on_channel seg c) ∧
    (remaining = window_size →
     FrameworkData.on_channel out c =
       FrameworkData.on_channel seg c ++ [drop (Z.to_nat index) xs]) ∧
    (remaining ≠ 0 → remaining ≠ window_size →
     ∃ fill,
       FrameworkData.on_channel out c =
         FrameworkData.on_channel seg c ++ [drop (Z.to_nat index) xs ++ fill] ∧
       len fill = window_size - remaining ∧
       0 < len fill ∧
       len (drop (Z.to_nat index) xs ++ fill) = window_size ∧
       (filling_value = "zero" →
        fill = replicate (Z.to_nat (window_size - remaining)) 0) ∧
       (filling_value = "latest" →
        ∃ latest, last xs = Some latest ∧
                  fill = replicate (Z.to_nat (window_size - remaining)) latest)).
Proof.
  intros ws step fv N index remaining Hwf Hc Hxs Hstep Hfv Hfuel.
  destruct (well_formed_lookup data c Hwf Hc) as (xs' & Hxs' & Hlen).
  assert (xs' = xs) as -> by congruence. fold N in Hlen.
  rewrite Hlen in Hfuel.
  destruct (segment_data_channels self data Hwf fuel Hstep Hfv Hfuel)
    as (seg & out & Hloop & Hrun & _ & Hrem & Hch).
  destruct (Hch c xs Hc Hxs) as (_ & _ & Hout).
  rewrite <- Hlen in Hloop, Hout, Hrem.
  fold ws step index in Hloop, Hout, Hrem. fold remaining in Hrem.
  unfold tail_epochs in Hout. fold N remaining in Hout.
  exists seg, out. split; [exact Hloop |]. split; [exact Hrun |].
  split; [exact Hrem |].
  destruct (Z.eqb_spec remaining 0) as [Hz | Hnz].
  { rewrite app_nil_r in Hout. repeat split; (done || lia). }
  destruct (Z.eqb_spec remaining ws) as [Hfull | Hpart].
  { repeat split; (done || lia). }
  split; [done |]. split; [done |]. intros _ _.
  exists (replicate (Z.to_nat (ws - remaining))
            (pad_value (SlidingWindowSegmenter.filling_value self) xs)).
  split; [exact Hout |]. rewrite len_app, !len_replicate.
  assert (Hidx : 0 ≤ index).
  { unfold index. pose proof (loop_rounds_nonneg ws step N). nia. }
  split; [lia |]. split; [lia |]. split.
  { unfold len. rewrite length_drop. unfold remaining, N, len in *. lia. }
  unfold pad_value. split.
  - intros Hzero. fold fv. by rewrite Hzero.
  - intros Hlatest. fold fv. rewrite Hlatest. simpl.
    destruct (last xs) as [latest|] eqn:Hlast; [by exists latest |].
    apply last_None in Hlast. subst xs.
    unfold remaining, N, len in *. simpl in *. lia.
Qed.

(** Witness of C4: six samples under a window of 4 stepping by 3 leave
    three samples, padded with one copy of the last sample. *)
Lemma C4_segmenter_filling_witness :
  let data : FrameworkData.t Z :=
    FrameworkData.input_data_on_channel [1; 2; 3; 4; 5; 6] "ch"
      (FrameworkData.new (Some 250)) in
  ∃ out,
    SlidingWindowSegmenter.segment_data 1
      (SlidingWindowSegmenter.mk 4 "latest" 3) data = Ok out ∧
    FrameworkData.on_channel out "ch" = [[1; 2; 3; 4]; [4; 5; 6; 6]].
Proof.
  intros data.
  destruct (C4_segmenter_filling 1 (SlidingWindowSegmenter.mk 4 "latest" 3)
              data "ch" [1; 2; 3; 4; 5; 6])
    as (seg & out & Hloop & Hrun & _ & _ & _ & Hfill).
  - by_evaluation.
  - by_evaluation.
  - reflexivity.
  - simpl. lia.
  - by right.
  - vm_compute. lia.
  - exists out. split; [exact Hrun |].
    destruct Hfill as (fill & -> & _ & _ & _ & _ & Hlatest).
    + vm_compute. discriminate.
    + vm_compute. discriminate.
    + destruct (Hlatest eq_refl) as (latest & [= <-] & ->).
      assert (Hseg : FrameworkData.on_channel seg "ch" = [[1; 2; 3; 4]]).
      { vm_compute in Hloop. injection Hloop as <-. reflexivity. }
      rewrite Hseg. reflexivity.
Defined.

(** ** No window is emitted twice *)

Lemma head_window_at xs index ws :
  0 ≤ index → 0 < ws →
  head (window_at xs index ws) = xs !! Z.to_nat index.
Proof.
  intros Hi Hw. unfold window_at.
  rewrite head_lookup, lookup_take_lt, lookup_drop by lia.
  f_equal. lia.
Qed.

Lemma head_tail_epochs xs ws index pad :
  0 ≤ index < len xs →
  head <$> tail_epochs xs ws index pad = [xs !! Z.to_nat index].
Proof.
  intros Hi. unfold tail_epochs.
  assert (Hhd : ∀ fill, head (drop (Z.to_nat index) xs ++ fill)
                        = xs !! Z.to_nat index).
  { intros fill. rewrite head_lookup, lookup_app_l, lookup_drop.
    - f_equal. lia.
    - rewrite length_drop. unfold len in Hi. lia. }
  destruct (Z.eqb_spec (len xs - index) 0); [lia |].
  destruct (len xs - index =? ws); simpl; f_equal.
  - rewrite <- (Hhd []). by rewrite app_nil_r.
  - apply Hhd.
Qed.

(** The epochs of a channel start at the positions [0], [step], ...,
    [rounds * step] (the last one only if something remains): on a channel
    whose samples are pairwise different, the epochs are pairwise
    different. *)
Lemma segment_epochs_NoDup xs ws step pad :
  1 ≤ step → 0 < ws → NoDup xs →
  0 ≤ len xs - loop_rounds ws step (len xs) * step →
  NoDup (loop_windows xs ws step (loop_rounds ws step (len xs))
         ++ tail_epochs xs ws (loop_rounds ws step (len xs) * step) pad).
Proof.
  intros Hs Hw Hnd Hrem.
  set (N := len xs) in *. set (K := loop_rounds ws step N) in *.
  assert (HK0 : 0 ≤ K) by by apply loop_rounds_nonneg.
  destruct (loop_rounds_spec ws step N Hs) as [Hbelow _]. fold K in Hbelow.
  assert (Hpos : ∀ k, 0 ≤ k → k * step < N →
            is_Some (xs !! Z.to_nat (k * step))).
  { intros k Hk Hlt. apply lookup_lt_is_Some. unfold N, len in Hlt. nia. }
  assert (Hinj : ∀ j k, 0 ≤ j → 0 ≤ k → j * step < N → k * step < N →
            xs !! Z.to_nat (j * step) = xs !! Z.to_nat (k * step) → j = k).
  { intros j k Hj Hk Hjn Hkn Heq.
    destruct (Hpos j Hj Hjn) as [x Hx].
    assert (Z.to_nat (j * step) = Z.to_nat (k * step)) as Hjk.
    { apply (NoDup_lookup xs _ _ x Hnd); [done | by rewrite <- Heq]. }
    nia. }
  apply (NoDup_fmap_1 head). rewrite fmap_app.
  assert (Hheads :
    head <$> loop_windows xs ws step K
    = (λ k, xs !! Z.to_nat (k * step)) <$> seqZ 0 K).
  { unfold loop_windows. rewrite <- list_fmap_compose.
    apply list_fmap_ext. intros i k Hk. simpl.
    apply lookup_seqZ in Hk as [-> Hk].
    apply head_window_at; [nia | done]. }
  rewrite Hheads. apply NoDup_app. split; [| split].
  - apply NoDup_fmap_2_strong; [| apply NoDup_seqZ].
    intros j k Hj Hk. apply elem_of_seqZ in Hj, Hk.
    pose proof (Hbelow j). pose proof (Hbelow k).
    apply Hinj; lia.
  - intros v Hv Htail. apply list_elem_of_fmap in Hv as (k & -> & Hk).
    apply elem_of_seqZ in Hk. pose proof (Hbelow k).
    destruct (Z.eq_dec (N - K * step) 0) as [Hz | Hnz].
    + unfold tail_epochs in Htail. fold N in Htail.
      destruct (Z.eqb_spec (N - K * step) 0); [| lia].
      by apply elem_of_nil in Htail.
    + rewrite head_tail_epochs in Htail by (fold N; nia).
      apply list_elem_of_singleton in Htail.
      assert (k = K); [| lia]. apply Hinj; (done || lia).
  - unfold tail_epochs. fold N.
    destruct (N - K * step =? 0); [apply NoDup_nil_2 |].
    destruct (N - K * step =? ws); apply NoDup_singleton.
Qed.

(** The outcome of [segment_data] is that of its loop followed by the
    trailing block, whatever the fuel that let the loop finish. *)
Lemma segment_data_fuel fuel fuel' self data st :
  SlidingWindowSegmenter.windows_loop fuel self data = Ok st →
  SlidingWindowSegmenter.windows_loop fuel' self data = Ok st →
  SlidingWindowSegmenter.segment_data fuel self data
  = SlidingWindowSegmenter.segment_data fuel' self data.
Proof.
  intros H H'. unfold SlidingWindowSegmenter.segment_data. by rewrite H, H'.
Qed.

Lemma segmenter_never_emits_twice fuel self data c xs :
  FrameworkData.well_formed data →
  c ∈ FrameworkData.channels data →
  FrameworkData._data data !! c = Some xs →
  1 ≤ SlidingWindowSegmenter.step_size self
    < SlidingWindowSegmenter.window_size self →
  SlidingWindowSegmenter.filling_value self = "zero"
  ∨ SlidingWindowSegmenter.filling_value self = "latest" →
  NoDup xs →
  ¬ last_window_emitted_twice fuel self data c.
Proof.
  intros Hwf Hc Hxs Hstep Hfv Hnd
    (seg & index & out & e & Hloop & Hrun & Hout & He).
  set (ws := SlidingWindowSegmenter.window_size self) in *.
  set (step := SlidingWindowSegmenter.step_size self) in *.
  set (fuel' := (fuel `max` Z.to_nat (loop_rounds ws step
                    (FrameworkData.get_data_count data)))%nat).
  destruct (segment_data_channels self data Hwf fuel' Hstep Hfv)
    as (seg' & out' & Hloop' & Hrun' & _ & Hrem & Hch);
    [unfold fuel', ws, step; lia |].
  assert (Hmono : SlidingWindowSegmenter.windows_loop fuel' self data
                  = Ok (seg, index)).
  { unfold SlidingWindowSegmenter.windows_loop in *.
    eapply while_fuel_mono; [| exact Hloop]. unfold fuel'. lia. }
  rewrite (segment_data_fuel fuel fuel' self data _ Hloop Hmono) in Hrun.
  assert (seg' = seg) as -> by congruence.
  assert (out' = out) as -> by congruence.
  destruct (Hch c xs Hc Hxs) as (Hlen & Hseg & Hout').
  fold ws step in Hseg, Hout', Hrem.
  rewrite <- Hlen in Hseg, Hout', Hrem.
  assert (Hall : NoDup (FrameworkData.on_channel out c)).
  { rewrite Hout', Hseg. apply segment_epochs_NoDup; try done; lia. }
  rewrite Hout in Hall. apply NoDup_app in Hall as (_ & Hdisj & _).
  apply (Hdisj e He), list_elem_of_here.
Qed.

(** Where the loop stops: at most [window_size] samples remain, and nothing
    remains only if there was nothing. *)
Lemma remaining_bounds ws step n :
  1 ≤ step < ws → 0 ≤ n →
  0 ≤ loop_rounds ws step n ∧
  0 ≤ loop_rounds ws step n * step ∧
  0 ≤ n - loop_rounds ws step n * step ≤ ws ∧
  (n - loop_rounds ws step n * step = 0 ↔ n = 0).
Proof.
  intros Hs Hn.
  pose proof (loop_rounds_nonneg ws step n) as HK.
  destruct (loop_rounds_spec ws step n) as [Hbelow Hstop]; [lia |].
  set (K := loop_rounds ws step n) in *.
  destruct (Z.eq_dec K 0) as [HK0 | HK0].
  - rewrite HK0 in *. lia.
  - specialize (Hbelow (K - 1)). nia.
Qed.

Lemma len_window_at xs index ws :
  0 ≤ index → 0 ≤ ws → index + ws ≤ len xs →
  len (window_at xs index ws) = ws.
Proof.
  intros Hi Hw Hlen. unfold window_at, len in *.
  rewrite length_take, length_drop. lia.
Qed.

(** Counterexample to C6 as stated: there is no channel length and valid
    parameter combination for which the trailing block emits a window the
    loop had emitted; samples are taken pairwise different so that equal
    epochs are equal windows. *)
Lemma C6_no_double_emission :
  ¬ ∃ (fuel : nat) (self : SlidingWindowSegmenter.t)
      (data : FrameworkData.t Z) (c : string) (xs : list Z),
      FrameworkData.well_formed data ∧
      c ∈ FrameworkData.channels data ∧
      FrameworkData._data data !! c = Some xs ∧
      1 ≤ SlidingWindowSegmenter.step_size self
        < SlidingWindowSegmenter.window_size self ∧
      (SlidingWindowSegmenter.filling_value self = "zero"
       ∨ SlidingWindowSegmenter.filling_value self = "latest") ∧
      NoDup xs ∧
      last_window_emitted_twice fuel self data c.
Proof.
  intros (fuel & self & data & c & xs & Hwf & Hc & Hxs & Hstep & Hfv & Hnd & Htwice).
  by apply (segmenter_never_emits_twice fuel self data c xs).
Qed.

(** C6 (as amended). For every channel length and every valid
    [(window_size, step_size)], no window is emitted twice. By position:
    the loop emits exactly the full windows that start at [0], [step_size],
    ..., [(rounds - 1) * step_size], one each, and stops at
    [index = rounds * step_size], past all of them, without emitting the
    window that starts there; the trailing block emits nothing when no
    sample remains (only on an empty channel) and exactly one epoch
    otherwise, which starts at [index]. In particular a final full window
    ([remaining = window_size]) is emitted exactly once, by the trailing
    block, unpadded. By value: on a channel whose samples are pairwise
    different, the output epochs are pairwise different. *)
Theorem C6_segmenter_windows_emitted_once
  (fuel : nat) (self : SlidingWindowSegmenter.t) (data : FrameworkData.t Z)
  (c : string) (xs : list Z) :
  let window_size := SlidingWindowSegmenter.window_size self in
  let step_size := SlidingWindowSegmenter.step_size self in
  let pad := pad_value (SlidingWindowSegmenter.filling_value self) xs in
  let rounds := loop_rounds window_size step_size (len xs) in
  let index := rounds * step_size in
  let remaining := len xs - index in
  FrameworkData.well_formed data →
  c ∈ FrameworkData.channels data →
  FrameworkData._data data !! c = Some xs →
  1 ≤ step_size < window_size →
  SlidingWindowSegmenter.filling_value self = "zero"
  ∨ SlidingWindowSegmenter.filling_value self = "latest" →
  (Z.to_nat rounds ≤ fuel)%nat →
  ∃ seg out,
    SlidingWindowSegmenter.windows_loop fuel self data = Ok (seg, index) ∧
    SlidingWindowSegmenter.segment_data fuel self data = Ok out ∧
    FrameworkData.on_channel seg c =
      (λ k, window_at xs (k * step_size) window_size) <$> seqZ 0 rounds ∧
    (∀ k, 0 ≤ k < rounds → k * step_size + window_size < len xs) ∧
    (∀ j k, 0 ≤ j < k → k ≤ rounds → 0 ≤ j * step_size < k * step_size) ∧
    ¬ (index + window_size < len xs) ∧
    0 ≤ remaining ≤ window_size ∧
    (remaining = 0 ↔ len xs = 0) ∧
    (remaining = 0 →
     FrameworkData.on_channel out c = FrameworkData.on_channel seg c) ∧
    (remaining = window_size →
     FrameworkData.on_channel out c
     = FrameworkData.on_channel seg c ++ [window_at xs index window_size] ∧
     window_at xs index window_size = drop (Z.to_nat index) xs ∧
     len (window_at xs index window_size) = window_size) ∧
    (0 < remaining < window_size →
     FrameworkData.on_channel out c
     = FrameworkData.on_channel seg c
       ++ [drop (Z.to_nat index) xs
           ++ replicate (Z.to_nat (window_size - remaining)) pad]) ∧
    len (FrameworkData.on_channel out c)
    = (if len xs =? 0 then 0 else rounds + 1) ∧
    (NoDup xs →
     NoDup (FrameworkData.on_channel out c) ∧
     ¬ last_window_emitted_twice fuel self data c).
Proof.
  intros ws step pad K index rem Hwf Hc Hxs Hstep Hfv Hfuel.
  destruct (well_formed_lookup data c Hwf Hc) as (xs' & Hxs' & Hlen).
  assert (xs' = xs) as -> by congruence.
  unfold K in Hfuel. rewrite Hlen in Hfuel.
  destruct (segment_data_channels self data Hwf fuel Hstep Hfv Hfuel)
    as (seg & out & Hloop & Hrun & _ & _ & Hch).
  destruct (Hch c xs Hc Hxs) as (_ & Hseg & Hout).
  rewrite <- Hlen in Hloop, Hseg, Hout.
  fold ws step K index pad in Hloop, Hseg, Hout.
  destruct (remaining_bounds ws step (len xs) Hstep (len_nonneg xs))
    as (HK & Hidx & Hrem & Hzero).
  destruct (loop_rounds_spec ws step (len xs)) as [Hbelow Hstop]; [lia |].
  fold K index in HK, Hidx, Hrem, Hzero, Hbelow, Hstop. fold rem in Hrem, Hzero.
  assert (Htail : tail_epochs xs ws index pad
            = if rem =? 0 then []
              else if rem =? ws then [drop (Z.to_nat index) xs]
              else [drop (Z.to_nat index) xs
                    ++ replicate (Z.to_nat (ws - rem)) pad]) by done.
  assert (Hfull : rem = ws → window_at xs index ws = drop (Z.to_nat index) xs).
  { intros Hr. unfold window_at. apply take_ge.
    rewrite length_drop. unfold rem, len in Hr. lia. }
  exists seg, out.
  split; [exact Hloop |]. split; [exact Hrun |]. split; [exact Hseg |].
  split; [exact Hbelow |]. split; [intros j k Hj Hk; nia |].
  split; [exact Hstop |]. split; [exact Hrem |]. split; [exact Hzero |].
  split; [| split; [| split; [| split; [| intros Hnd; split]]]].
  - intros Hr. rewrite Hout, Htail, Hr. simpl. by rewrite app_nil_r.
  - intros Hr. rewrite Hfull by done. split; [| split; [done |]].
    + rewrite Hout, Htail.
      destruct (Z.eqb_spec rem 0); [lia |].
      destruct (Z.eqb_spec rem ws); [done | lia].
    + unfold len. rewrite length_drop. unfold rem, len in Hr. lia.
  - intros Hr. rewrite Hout, Htail.
    destruct (Z.eqb_spec rem 0); [lia |].
    destruct (Z.eqb_spec rem ws); [lia | done].
  - rewrite Hout, Hseg, Htail.
    assert (Hcount : ∀ l : list (list Z),
              len (loop_windows xs ws step K ++ l) = K + len l).
    { intros l. unfold len, loop_windows.
      rewrite length_app, length_fmap, length_seqZ. lia. }
    destruct (Z.eqb_spec (len xs) 0) as [Hn | Hn];
      destruct (Z.eqb_spec rem 0) as [Hr | Hr]; try lia.
    + assert (K = 0) as HK' by (unfold rem, index in Hr; nia).
      rewrite Hcount, HK'. reflexivity.
    + destruct (rem =? ws); rewrite Hcount; unfold len; simpl; lia.
  - rewrite Hout, Hseg. apply segment_epochs_NoDup; try done; lia.
  - by apply (segmenter_never_emits_twice fuel self data c xs).
Qed.

(** Witness of C6: five samples, windows of three, steps of two. The loop
    emits the window at [0] and stops at [2], where exactly a window
    remains: the trailing block emits it, once. *)
Lemma C6_segmenter_windows_emitted_once_witness :
  let data : FrameworkData.t Z :=
    FrameworkData.input_data_on_channel [1; 2; 3; 4; 5] "ch"
      (FrameworkData.new (Some 250)) in
  ∃ seg out,
    SlidingWindowSegmenter.windows_loop 1
      (SlidingWindowSegmenter.mk 3 "zero" 2) data = Ok (seg, 2) ∧
    SlidingWindowSegmenter.segment_data 1
      (SlidingWindowSegmenter.mk 3 "zero" 2) data = Ok out ∧
    FrameworkData.on_channel seg "ch" = [[1; 2; 3]] ∧
    FrameworkData.on_channel out "ch" = [[1; 2; 3]; [3; 4; 5]] ∧
    NoDup (FrameworkData.on_channel out "ch") ∧
    ¬ last_window_emitted_twice 1 (SlidingWindowSegmenter.mk 3 "zero" 2)
        data "ch".
Proof.
  intros data.
  destruct (C6_segmenter_windows_emitted_once 1
              (SlidingWindowSegmenter.mk 3 "zero" 2) data "ch" [1; 2; 3; 4; 5])
    as (seg & out & Hloop & Hrun & Hseg & _ & _ & _ & _ & _ & _ & Hfull
        & _ & _ & Hvalue).
  - by_evaluation.
  - by_evaluation.
  - reflexivity.
  - simpl. lia.
  - by left.
  - vm_compute. lia.
  - destruct Hfull as (Hout & _); [reflexivity |].
    destruct Hvalue as (Hnd & Hnever); [by_evaluation |].
    exists seg, out. split; [exact Hloop |]. split; [exact Hrun |].
    split; [exact Hseg |]. split; [| split; [exact Hnd | exact Hnever]].
    rewrite Hout, Hseg. reflexivity.
Defined.

(** ** Candidates of a slot *)

Lemma covers_true ws step w i :
  w * step ≤ i < w * step + ws → covers ws step w i = true.
Proof.
  intros [H1 H2]. unfold covers. apply andb_true_iff.
  split; [by apply Z.leb_le | by apply Z.ltb_lt].
Qed.

Lemma covers_false ws step w i :
  i < w * step ∨ w * step + ws ≤ i → covers ws step w i = false.
Proof.
  intros H. unfold covers. apply andb_false_iff.
  destruct H; [left; by apply Z.leb_gt | right; by apply Z.ltb_ge].
Qed.

Lemma candidates_from_snoc ws step w0 vs v i :
  candidates_from ws step w0 (vs ++ [v]) i
  = candidates_from ws step w0 vs i
    ++ (if covers ws step (w0 + len vs) i then [v] else []).
Proof.
  revert w0. induction vs as [|x vs IH]; intros w0; simpl.
  - unfold len. simpl. by rewrite Z.add_0_r, app_nil_r.
  - rewrite IH, app_assoc.
    by replace (w0 + 1 + len vs) with (w0 + len (x :: vs))
      by (unfold len; simpl; lia).
Qed.

(** No candidate beyond the last window. *)
Lemma candidates_from_beyond ws step w0 vs i :
  0 ≤ step → (w0 + len vs - 1) * step + ws ≤ i →
  candidates_from ws step w0 vs i = [].
Proof.
  intros Hs. revert w0. induction vs as [|x vs IH]; intros w0 Hi; [done |].
  simpl. unfold len in *. simpl in Hi.
  rewrite IH by (unfold len; nia).
  rewrite covers_false; [done | right; nia].
Qed.

(** The candidates of slot [i] are the values of the epochs whose window
    covers [i]. *)
Lemma elem_of_candidates_from ws step w0 vs i v :
  v ∈ candidates_from ws step w0 vs i
  ↔ ∃ w : nat, vs !! w = Some v ∧ covers ws step (w0 + Z.of_nat w) i = true.
Proof.
  revert w0. induction vs as [|x vs IH]; intros w0; simpl.
  - split; [by intros ?%elem_of_nil | by intros (w & ? & _)].
  - rewrite elem_of_app, IH. split.
    + intros [Hhere | (w & Hw & Hcov)].
      * destruct (covers ws step w0 i) eqn:Hcov; [| by apply elem_of_nil in Hhere].
        apply list_elem_of_singleton in Hhere as ->.
        exists O. by rewrite Z.add_0_r.
      * exists (S w). split; [done |].
        by replace (w0 + Z.of_nat (S w)) with (w0 + 1 + Z.of_nat w) by lia.
    + intros ([|w] & Hw & Hcov).
      * left. injection Hw as ->. rewrite Z.add_0_r in Hcov. rewrite Hcov.
        apply list_elem_of_here.
      * right. exists w. split; [done |].
        by replace (w0 + 1 + Z.of_nat w) with (w0 + Z.of_nat (S w)) by lia.
Qed.

(** Every slot of the output range has a candidate. *)
Lemma candidates_nonempty ws step vs i :
  1 ≤ step ≤ ws → 1 ≤ len vs →
  0 ≤ i < ws + (len vs - 1) * step →
  candidates ws step vs i ≠ [].
Proof.
  intros Hs Hlen Hi Hnil.
  assert (Hq : 0 ≤ i / step) by (apply Z.div_pos; lia).
  assert (Hdm : i = step * (i / step) + i mod step) by (apply Z.div_mod; lia).
  assert (Hmod : 0 ≤ i mod step < step) by (apply Z.mod_pos_bound; lia).
  set (q := i / step) in *. set (r := i mod step) in *.
  assert (Hcov : ∃ w, 0 ≤ w < len vs ∧ w * step ≤ i < w * step + ws).
  { destruct (Z.le_gt_cases q (len vs - 1)).
    - exists q. nia.
    - exists (len vs - 1). nia. }
  destruct Hcov as (w & Hw & Hcov).
  destruct (lookup_lt_is_Some_2 vs (Z.to_nat w)) as [v Hv];
    [unfold len in Hw; lia |].
  assert (Hin : v ∈ candidates ws step vs i).
  { apply elem_of_candidates_from. exists (Z.to_nat w). split; [done |].
    rewrite Z2Nat.id, Z.add_0_l by lia. unfold covers.
    apply andb_true_iff. split; [apply Z.leb_le | apply Z.ltb_lt]; lia. }
  rewrite Hnil in Hin. by apply elem_of_nil in Hin.
Qed.

(** ** Resolution of a slot *)

Lemma foldl_max_spec (l : list Z) (x : Z) :
  foldl Z.max x l ∈ x :: l ∧ ∀ v, v ∈ x :: l → v ≤ foldl Z.max x l.
Proof.
  revert x. induction l as [|y l IH]; intros x; simpl.
  - split; [apply list_elem_of_here |].
    intros v Hv. apply list_elem_of_singleton in Hv. lia.
  - destruct (IH (Z.max x y)) as [Hin Hub]. split.
    + apply elem_of_cons in Hin as [Heq | Hin].
      * rewrite Heq. destruct (Z.max_spec x y) as [[_ ->] | [_ ->]].
        -- apply list_elem_of_further, list_elem_of_here.
        -- apply list_elem_of_here.
      * by do 2 apply list_elem_of_further.
    + intros v Hv.
      assert (Hm : Z.max x y ≤ foldl Z.max (Z.max x y) l)
        by apply Hub, list_elem_of_here.
      apply elem_of_cons in Hv as [-> | Hv]; [lia |].
      apply elem_of_cons in Hv as [-> | Hv]; [lia |].
      by apply Hub, list_elem_of_further.
Qed.

(** A slot with at least one candidate resolves to one sample: the greatest
    candidate. *)
Lemma resolved_spec (slot : list Z) :
  slot ≠ [] →
  ∃ y, resolved slot = [y] ∧ y ∈ slot ∧ ∀ v, v ∈ slot → v ≤ y.
Proof.
  intros Hne. destruct slot as [|x rest]; [done |].
  unfold resolved. destruct (Z.ltb_spec 1 (len (x :: rest))) as [Hlen | Hlen].
  - exists (foldl Z.max x rest). split; [done |]. apply foldl_max_spec.
  - destruct rest; [| unfold len in Hlen; simpl in Hlen; lia].
    exists x. split; [done |]. split; [apply list_elem_of_here |].
    intros v Hv. apply list_elem_of_singleton in Hv. lia.
Qed.

(** ** Interpolate, sliding branch *)

(** [for index in range(a, b): merged[index].append(v)] on a list that has
    the slots [a, ..., b-1]. *)
Lemma for_each_append_at (v : Z) (mid : list (list Z)) :
  ∀ pre post,
    for_each (seqZ (len pre) (len mid))
      (λ index merged, py_append_at merged index v) (pre ++ mid ++ post)
    = Ok (pre ++ ((λ slot, slot ++ [v]) <$> mid) ++ post).
Proof.
  induction mid as [|x mid IH]; intros pre post; [done |].
  rewrite seqZ_cons by (unfold len; simpl; lia).
  cbn [for_each].
  assert (Hat : py_append_at (pre ++ (x :: mid) ++ post) (len pre) v
                = Ok ((pre ++ [x ++ [v]]) ++ mid ++ post)).
  { unfold py_append_at. rewrite subscript_in_range.
    - cbn [mbind result_bind]. f_equal. unfold len. rewrite Nat2Z.id.
      rewrite <- (Nat.add_0_r (length pre)), alter_app_r. simpl.
      by rewrite <- app_assoc.
    - rewrite !len_app. unfold len. simpl. lia. }
  rewrite Hat. cbn [mbind result_bind].
  replace (Z.succ (len pre)) with (len (pre ++ [x ++ [v]]))
    by (rewrite len_app; unfold len; simpl; lia).
  replace (Z.pred (len (x :: mid))) with (len mid)
    by (unfold len; simpl; lia).
  rewrite IH. f_equal. by rewrite <- app_assoc.
Qed.

(** [for _ in xs: merged.append(slot)] *)
Lemma for_each_push {X} (slot : list Z) (xs : list X) :
  ∀ merged,
    for_each xs (λ _ merged, Ok (merged ++ [slot])) merged
    = Ok (merged ++ replicate (length xs) slot).
Proof.
  induction xs as [|x xs IH]; intros merged; simpl; [by rewrite app_nil_r |].
  by rewrite IH, <- app_assoc.
Qed.

Lemma len_fmap {A B} (f : A → B) (l : list A) : len (f <$> l) = len l.
Proof. unfold len. by rewrite length_fmap. Qed.

Lemma len_seqZ m n : 0 ≤ n → len (seqZ m n) = n.
Proof. intros Hn. unfold len. rewrite length_seqZ. lia. Qed.

Section InterpolateSliding.
Import FrameworkData Interpolate.
Variable self : Interpolate.t.
Variable main : FrameworkData.t Z.
Variable c : string.
Variable vs : list Z.
Hypothesis Hvs : _data main !! c = Some vs.

Let ws := window_size self.
Let step := step_size self.
Hypothesis Hstep : 1 ≤ step ≤ ws.

Let slots := slots_after ws step vs.
Let state := state_after ws step vs.

Lemma first_window v0 :
  vs !! O = Some v0 →
  for_each (py_range 0 (window_size self))
    (λ _ merged, v ← epoch_value main c 0; Ok (merged ++ [[v]])) []
  = Ok (slots 1).
Proof.
  intros Hv0.
  rewrite (for_each_ext _ _ (λ _ merged, Ok (merged ++ [[v0]]))).
  2: { intros x m _.
       pose proof (epoch_value_lookup main c vs O v0 Hvs Hv0) as He.
       change (Z.of_nat 0) with 0 in He. by rewrite He. }
  rewrite for_each_push, length_py_range, Z.sub_0_r. simpl. f_equal.
  unfold slots, slots_after. destruct vs as [|v vs']; [done |].
  injection Hv0 as ->. cbn [take]. rewrite take_0. cbn [Z.of_nat Pos.of_succ_nat].
  fold ws. replace (ws + (Z.of_nat 1 - 1) * step) with ws by lia.
  rewrite <- (length_seqZ 0 ws), <- fmap_const_replicate.
  apply list_fmap_ext. intros i k Hk. apply lookup_seqZ in Hk as [-> Hk].
  unfold candidates. simpl. by rewrite covers_true by lia.
Qed.

(** One round of the [while] loop takes the slots after [w] windows to the
    slots after [w + 1] windows. *)
Lemma merge_body_step (w : nat) v :
  (1 ≤ w)%nat → vs !! w = Some v →
  merge_body self main c (ws - step) (state w) = Ok (state (S w)).
Proof.
  intros Hw Hv. unfold merge_body, state, state_after.
  cbn [window window_end_index merged_data].
  set (wei := ws + (Z.of_nat w - 1) * step).
  set (a := wei - (ws - step)).
  assert (Ha : a = Z.of_nat w * step) by (unfold a, wei; lia).
  assert (Ha0 : 0 ≤ a) by nia.
  set (f := candidates ws step (take w vs)).
  set (g := candidates ws step (take (S w) vs)).
  assert (Hg : ∀ i, g i = f i ++ if covers ws step (Z.of_nat w) i then [v] else []).
  { intros i. unfold g, f, candidates.
    rewrite (take_S_r vs w v Hv), candidates_from_snoc.
    replace (0 + len (take w vs)) with (Z.of_nat w); [done |].
    unfold len. rewrite length_take. apply lookup_lt_Some in Hv. lia. }
  rewrite (for_each_ext _ _ (λ index merged, py_append_at merged index v)).
  2: { intros i m _. by rewrite (epoch_value_lookup main c vs w v Hvs Hv). }
  assert (Hsplit : slots_after ws step vs w
                   = (f <$> seqZ 0 a) ++ (f <$> seqZ a (ws - step)) ++ []).
  { unfold slots_after. fold wei f.
    replace wei with (a + (ws - step)) by (unfold a; lia).
    rewrite seqZ_app by lia. by rewrite fmap_app, app_nil_r. }
  assert (Hjoin :
    for_each (py_range a wei)
      (λ index merged, py_append_at merged index v) (slots_after ws step vs w)
    = Ok ((f <$> seqZ 0 a)
          ++ ((λ slot, slot ++ [v]) <$> (f <$> seqZ a (ws - step))) ++ [])).
  { rewrite Hsplit. unfold py_range.
    replace (wei - a) with (ws - step) by (unfold a; lia).
    pose proof (for_each_append_at v (f <$> seqZ a (ws - step))
                  (f <$> seqZ 0 a) []) as Hrun.
    rewrite !len_fmap, !len_seqZ in Hrun by lia. exact Hrun. }
  rewrite Hjoin. cbn [mbind result_bind].
  rewrite (for_each_ext _ _ (λ _ merged, Ok (merged ++ [[v]]))).
  2: { intros i m _. by rewrite (epoch_value_lookup main c vs w v Hvs Hv). }
  rewrite for_each_push. cbn [mbind result_bind]. rewrite length_py_range.
  f_equal. f_equal; [lia | lia |].
  unfold slots_after. fold g.
  replace (ws + (Z.of_nat (S w) - 1) * step) with (a + (ws - step) + step)
    by (unfold a, wei; lia).
  rewrite !seqZ_app by lia. rewrite !fmap_app, app_nil_r, <- !app_assoc.
  f_equal; [| f_equal].
  - apply list_fmap_ext. intros i k Hk. apply lookup_seqZ in Hk as [-> Hk].
    rewrite Hg, covers_false by lia. by rewrite app_nil_r.
  - rewrite <- list_fmap_compose.
    apply list_fmap_ext. intros i k Hk. apply lookup_seqZ in Hk as [-> Hk].
    simpl. by rewrite Hg, covers_true by lia.
  - fold step. rewrite Z.sub_0_r, <- (length_seqZ (0 + a + (ws - step)) step).
    rewrite <- fmap_const_replicate.
    apply list_fmap_ext. intros i k Hk. apply lookup_seqZ in Hk as [-> Hk].
    rewrite Hg, covers_true by lia. unfold f, candidates.
    rewrite candidates_from_beyond; [done | lia |].
    unfold len. rewrite length_take. apply lookup_lt_Some in Hv.
    replace (length vs `min` w)%nat with w by lia. lia.
Qed.

(** The [while] loop, from any window on. *)
Lemma merge_rounds (n : nat) :
  ∀ fuel w,
    (n ≤ fuel)%nat → (1 ≤ w)%nat → (w + n = length vs)%nat →
    while fuel (λ st, window st <? len vs)
      (merge_body self main c (ws - step)) (state w)
    = Ok (state (length vs)).
Proof.
  induction n as [|n IH]; intros fuel w Hfuel Hw Hn.
  - replace w with (length vs) by lia.
    apply while_done. unfold state, state_after. cbn [window]. apply Z.ltb_ge. unfold len. lia.
  - destruct fuel as [|fuel]; [lia |]. rewrite while_S.
    unfold state at 1, state_after at 1. cbn [window]. fold (state_after ws step vs w). fold state.
    destruct (Z.ltb_spec (Z.of_nat w) (len vs)) as [_ | Hge];
      [| unfold len in Hge; lia].
    destruct (lookup_lt_is_Some_2 vs w) as [v Hv]; [lia |].
    rewrite (merge_body_step w v Hw Hv). cbn [mbind result_bind].
    apply IH; lia.
Qed.

Lemma merge_channel_spec fuel :
  1 ≤ len vs → (length vs - 1 ≤ fuel)%nat →
  merge_channel fuel self main (len vs) (ws - step) c
  = Ok (state (length vs)).
Proof.
  intros Hlen Hfuel. unfold merge_channel.
  destruct (lookup_lt_is_Some_2 vs O) as [v0 Hv0]; [unfold len in Hlen; lia |].
  rewrite (first_window v0 Hv0). cbn [mbind result_bind].
  replace (mk_state (0 + 1) (window_size self) (slots 1))
    with (state 1).
  - unfold len in Hlen. apply (merge_rounds (length vs - 1)); lia.
  - unfold state, state_after. f_equal. fold ws. lia.
Qed.

End InterpolateSliding.

(** The last loop of the sliding branch puts one resolved slot after the
    other on the channel. *)
Lemma resolve_spec c merged s :
  ∃ s', Interpolate.resolve c merged s = Ok s' ∧
        appends c (merged ≫= resolved) s s'.
Proof.
  unfold Interpolate.resolve.
  rewrite (for_each_indices merged _
             (λ slot s, Ok (FrameworkData.input_data_on_channel
                              (resolved slot) c s))).
  - apply for_each_inputs.
  - intros i slot st Hslot.
    rewrite (py_getitem_lookup merged (Z.of_nat i) slot);
      [| lia | by rewrite Nat2Z.id].
    cbn [mbind result_bind]. unfold resolved.
    destruct (1 <? len slot) eqn:Hlen; [| done].
    destruct slot as [|x rest]; [done | done].
Qed.

(** A list of singletons, flattened. *)
Lemma bind_singletons {A B} (g : A → list B) (h : A → B) (l : list A) :
  (∀ x, x ∈ l → g x = [h x]) → l ≫= g = h <$> l.
Proof.
  induction l as [|x l IH]; intros Hg; [done |].
  rewrite bind_cons, fmap_cons, Hg by apply list_elem_of_here.
  simpl. f_equal. apply IH. intros y Hy. by apply Hg, list_elem_of_further.
Qed.

Lemma process_sliding_channel_ok fuel self main c vs s :
  FrameworkData._data main !! c = Some vs →
  1 ≤ Interpolate.step_size self ≤ Interpolate.window_size self →
  1 ≤ len vs → (length vs - 1 ≤ fuel)%nat →
  ∃ s',
    Interpolate.process_sliding_channel fuel self main (len vs)
      (Interpolate.window_size self - Interpolate.step_size self) c s = Ok s' ∧
    appends c
      (slots_after (Interpolate.window_size self) (Interpolate.step_size self)
         vs (length vs) ≫= resolved) s s'.
Proof.
  intros Hvs Hstep Hlen Hfuel. unfold Interpolate.process_sliding_channel.
  rewrite (merge_channel_spec self main c vs Hvs Hstep fuel Hlen Hfuel).
  cbn [mbind result_bind]. apply resolve_spec.
Qed.

Lemma interpolate_sliding_process fuel self data main :
  data !! "main" = Some main →
  FrameworkData.well_formed main →
  Interpolate.sliding_window self = true →
  1 ≤ Interpolate.step_size self ≤ Interpolate.window_size self →
  1 ≤ FrameworkData.get_data_count main →
  (Z.to_nat (FrameworkData.get_data_count main) - 1 ≤ fuel)%nat →
  ∃ out,
    Interpolate._process fuel self data = Ok {[ "main" := out ]} ∧
    FrameworkData.sampling_frequency out = Some 1 ∧
    ∀ c vs, c ∈ FrameworkData.channels main →
            FrameworkData._data main !! c = Some vs →
            FrameworkData._data out !! c =
              Some (slots_after (Interpolate.window_size self)
                      (Interpolate.step_size self) vs (length vs) ≫= resolved).
Proof.
  intros Hmain Hwf Hsliding Hstep Hcount Hfuel. unfold Interpolate._process.
  change Interpolate.INPUT_MAIN with "main".
  rewrite (dict_getitem_Some _ _ _ Hmain). cbn [mbind result_bind].
  rewrite Hsliding.
  destruct (channels_as_set_elements main) as [Hnd Hel].
  set (chans := elements (FrameworkData.get_channels_as_set main)) in *.
  destruct (from_multi_channel_spec (A := Z) 1 chans) as (Hf0 & He0 & Hs0).
  set (payload := λ vs : list Z,
         slots_after (Interpolate.window_size self)
           (Interpolate.step_size self) vs (length vs) ≫= resolved).
  destruct (for_each_channels chans
              (Interpolate.process_sliding_channel fuel self main
                 (FrameworkData.get_data_count main)
                 (Interpolate.window_size self - Interpolate.step_size self))
              (λ c, payload (FrameworkData.on_channel main c)) Hnd)
    with (s := FrameworkData.from_multi_channel (A := Z) 1 chans)
    as (out & -> & Hf & Hin & _).
  { intros c s Hc. apply Hel in Hc.
    destruct (well_formed_lookup main c Hwf Hc) as (vs & Hvs & Hlen).
    unfold FrameworkData.on_channel at 1. rewrite Hvs. simpl.
    rewrite <- Hlen. apply process_sliding_channel_ok; try done.
    - lia.
    - unfold len in Hlen. lia. }
  exists out. split; [done |]. split; [congruence |].
  intros c vs Hc Hvs. apply Hel in Hc.
  destruct (Hin c Hc) as [Hpay Hsome].
  apply on_channel_Some.
  - apply Hsome. rewrite (Hs0 c Hc). by eexists.
  - rewrite Hpay, He0. simpl. unfold FrameworkData.on_channel. by rewrite Hvs.
Qed.

(** C2. In sliding mode, a channel holding [W >= 1] epoch values comes out
    of [Interpolate._process] with [window_size + (W - 1) * step_size]
    samples. The slots built by the merging loop hold, for each position,
    the values of the epochs whose window covers it; the sample of a slot is
    the greatest of its candidates, hence its one candidate when it has a
    single one, and [v2] when it was fed by two epochs with values
    [v1 < v2]. *)
Theorem C2_interpolate_sliding
  (fuel : nat) (self : Interpolate.t) (data : gmap string (FrameworkData.t Z))
  (main : FrameworkData.t Z) (c : string) (vs : list Z) :
  let window_size := Interpolate.window_size self in
  let step_size := Interpolate.step_size self in
  let W := len vs in
  data !! "main" = Some main →
  FrameworkData.well_formed main →
  c ∈ FrameworkData.channels main →
  FrameworkData._data main !! c = Some vs →
  Interpolate.sliding_window self = true →
  1 < step_size < window_size →
  1 ≤ W →
  (Z.to_nat W - 1 ≤ fuel)%nat →
  ∃ st out ys,
    Interpolate.merge_channel fuel self main W (window_size - step_size) c
    = Ok st ∧
    Interpolate._process fuel self data = Ok {[ "main" := out ]} ∧
    FrameworkData._data out !! c = Some ys ∧
    len (Interpolate.merged_data st) = window_size + (W - 1) * step_size ∧
    len ys = window_size + (W - 1) * step_size ∧
    ∀ i, 0 ≤ i < window_size + (W - 1) * step_size →
      ∃ slot y,
        Interpolate.merged_data st !! Z.to_nat i = Some slot ∧
        ys !! Z.to_nat i = Some y ∧
        (∀ v, v ∈ slot ↔
              ∃ w : nat, vs !! w = Some v ∧
                         Z.of_nat w * step_size ≤ i
                           < Z.of_nat w * step_size + window_size) ∧
        slot ≠ [] ∧
        y ∈ slot ∧ (∀ v, v ∈ slot → v ≤ y) ∧
        (∀ v, slot = [v] → y = v) ∧
        (∀ v1 v2, slot = [v1; v2] ∨ slot = [v2; v1] → v1 < v2 → y = v2).
Proof.
  intros ws step W Hmain Hwf Hc Hvs Hsliding Hstep HW Hfuel.
  destruct (well_formed_lookup main c Hwf Hc) as (vs' & Hvs' & Hlen).
  assert (vs' = vs) as -> by congruence. fold W in Hlen.
  assert (Hstep' : 1 ≤ step ≤ ws) by lia.
  destruct (interpolate_sliding_process fuel self data main Hmain Hwf Hsliding)
    as (out & Hrun & _ & Hout); try (rewrite <- Hlen; done); [done |].
  specialize (Hout c vs Hc Hvs). fold ws step in Hout.
  assert (Hlength : Z.to_nat W = length vs) by (unfold W, len; lia).
  assert (Hmerge :
    Interpolate.merge_channel fuel self main W (ws - step) c
    = Ok (state_after ws step vs (length vs))).
  { apply merge_channel_spec; try done. lia. }
  set (L := ws + (W - 1) * step).
  assert (HL : 0 ≤ L) by (unfold L; nia).
  assert (Hslots : slots_after ws step vs (length vs)
                   = candidates ws step vs <$> seqZ 0 L).
  { unfold slots_after. rewrite firstn_all.
    unfold L, W, len. done. }
  set (value := λ i, default 0 (head (resolved (candidates ws step vs i)))).
  assert (Hys : slots_after ws step vs (length vs) ≫= resolved
                = value <$> seqZ 0 L).
  { rewrite Hslots, list_fmap_bind. apply bind_singletons.
    intros i Hi. apply elem_of_seqZ in Hi. simpl. unfold value.
    destruct (resolved_spec (candidates ws step vs i)) as (y & -> & _);
      [| done].
    apply candidates_nonempty;
      first [done | fold W; unfold L in Hi; lia]. }
  rewrite Hys in Hout.
  exists (state_after ws step vs (length vs)), out, (value <$> seqZ 0 L).
  split; [exact Hmerge |]. split; [exact Hrun |]. split; [exact Hout |].
  unfold state_after. cbn [Interpolate.merged_data]. rewrite Hslots.
  split; [by rewrite len_fmap, len_seqZ |].
  split; [by rewrite len_fmap, len_seqZ |].
  intros i Hi. exists (candidates ws step vs i), (value i).
  assert (Hne : candidates ws step vs i ≠ [])
    by (apply candidates_nonempty;
          first [done | fold W; unfold L in Hi; lia]).
  destruct (resolved_spec _ Hne) as (y & Hres & Hin & Hub).
  assert (Hval : value i = y) by (unfold value; by rewrite Hres).
  rewrite !list_lookup_fmap, lookup_seqZ_lt by lia.
  rewrite Z.add_0_l, Z2Nat.id by lia. simpl. rewrite Hval.
  split; [done |]. split; [done |]. split.
  { intros v. unfold candidates. rewrite elem_of_candidates_from.
    split; intros (w & Hw & Hcov); exists w; (split; [done |]).
    - rewrite Z.add_0_l in Hcov. unfold covers in Hcov.
      apply andb_true_iff in Hcov as [H1 H2].
      apply Z.leb_le in H1. apply Z.ltb_lt in H2. done.
    - rewrite Z.add_0_l. by apply covers_true. }
  split; [done |]. split; [done |]. split; [done |]. split.
  - intros v Hv. rewrite Hv in Hin. by apply list_elem_of_singleton in Hin.
  - intros v1 v2 Hslot Hlt.
    assert (Hboth : v1 ∈ candidates ws step vs i ∧ v2 ∈ candidates ws step vs i
                    ∧ (y = v1 ∨ y = v2)).
    { destruct Hslot as [Hs | Hs]; rewrite Hs in Hin |- *;
        apply elem_of_cons in Hin as [-> | Hin];
        try apply list_elem_of_singleton in Hin as ->;
        (split; [| split]);
        auto using list_elem_of_here, list_elem_of_further. }
    destruct Hboth as (Hv1 & Hv2 & [-> | ->]); [| done].
    specialize (Hub v2 Hv2). lia.
Qed.

(** Witness of C2: three epochs with values 5, 9, 2 under a window of 5
    samples stepping by 2. Slot 0 is fed by the first epoch alone, slot 2 by
    the first two, and takes the greater value. *)
Lemma C2_interpolate_sliding_witness :
  let main : FrameworkData.t Z :=
    FrameworkData.input_data_on_channel [5; 9; 2] "ch" (FrameworkData.new None) in
  ∃ out ys,
    Interpolate._process 2 (Interpolate.mk 5 true 2) {[ "main" := main ]}
    = Ok {[ "main" := out ]} ∧
    FrameworkData._data out !! "ch" = Some ys ∧
    len ys = 9 ∧
    ys !! 2%nat = Some 9.
Proof.
  intros main.
  destruct (C2_interpolate_sliding 2 (Interpolate.mk 5 true 2)
              {[ "main" := main ]} main "ch" [5; 9; 2])
    as (st & out & ys & _ & Hrun & Hys & _ & Hlen & Hslots).
  - reflexivity.
  - by_evaluation.
  - by_evaluation.
  - reflexivity.
  - reflexivity.
  - simpl. lia.
  - vm_compute. discriminate.
  - vm_compute. lia.
  - exists out, ys. split; [exact Hrun |]. split; [exact Hys |].
    split; [exact Hlen |].
    destruct (Hslots 2) as (slot & y & _ & Hy & Hmem & _ & Hin & Hub & _).
    { vm_compute. split; [discriminate | reflexivity]. }
    change (Z.to_nat 2) with 2%nat in Hy. rewrite Hy. f_equal.
    assert (Hnine : 9 ≤ y).
    { apply Hub, Hmem. exists 1%nat. split; [reflexivity |]. simpl. lia. }
    apply Hmem in Hin as (w & Hw & Hcov). simpl in Hcov.
    destruct w as [|[|w]]; simpl in Hw.
    + injection Hw as <-. lia.
    + by injection Hw as <-.
    + lia.
Defined.

(** ** Sampling frequency of the outputs *)

Lemma input_frequency {A} (p : list A) c (s : FrameworkData.t A) :
  FrameworkData.sampling_frequency (FrameworkData.input_data_on_channel p c s)
  = FrameworkData.sampling_frequency s.
Proof. apply appends_input. Qed.

Lemma loop_rounds_le ws step n :
  1 ≤ step → 0 ≤ ws → 0 ≤ n → loop_rounds ws step n ≤ n.
Proof.
  intros Hs Hw Hn. destruct (loop_rounds_spec ws step n Hs) as [Hbelow _].
  pose proof (loop_rounds_nonneg ws step n Hs) as HK.
  destruct (Z.eq_dec (loop_rounds ws step n) 0) as [-> | Hpos]; [done |].
  specialize (Hbelow (loop_rounds ws step n - 1)). nia.
Qed.

Section Frequency.
Import FrameworkData.

(** Whatever [segment_data] returns carries the sampling frequency of its
    input. *)
Lemma segmenter_frequency fuel self data out :
  SlidingWindowSegmenter.segment_data fuel self data = Ok out →
  sampling_frequency out = sampling_frequency data.
Proof.
  unfold SlidingWindowSegmenter.segment_data.
  destruct (SlidingWindowSegmenter.windows_loop fuel self data)
    as [[seg index] | e |] eqn:Hloop; cbn [mbind result_bind]; try discriminate.
  assert (Hseg : sampling_frequency seg = sampling_frequency data).
  { unfold SlidingWindowSegmenter.windows_loop in Hloop.
    apply (while_invariant
             (λ st : FrameworkData.t (list Z) * Z,
                sampling_frequency (fst st) = sampling_frequency data))
      in Hloop; [done | | done].
    intros [s i] [s' i'] Hbody Hs. simpl in *.
    unfold SlidingWindowSegmenter.loop_body in Hbody.
    destruct (for_each _ _ s) as [s1 | e |] eqn:Hfor;
      cbn [mbind result_bind] in Hbody; try discriminate.
    injection Hbody as <- _.
    apply (for_each_invariant
             (λ st : FrameworkData.t (list Z),
                sampling_frequency st = sampling_frequency data))
      in Hfor; [done | | done].
    intros ch t t' Ht Hpre.
    destruct (dict_getitem (_data data) ch); cbn [mbind result_bind] in Ht;
      try discriminate.
    injection Ht as <-. by rewrite input_frequency. }
  destruct (negb _); [| by intros [= <-]].
  intros Hfor.
  apply (for_each_invariant
           (λ st : FrameworkData.t (list Z),
              sampling_frequency st = sampling_frequency data))
    in Hfor; [done | | done].
  intros ch t t' Ht Hpre. unfold SlidingWindowSegmenter.fill_and_emit in Ht.
  destruct (if String.eqb _ _ then _ else _) as [fv | e |];
    cbn [mbind result_bind] in Ht; try discriminate.
  destruct (dict_getitem (_data data) ch); cbn [mbind result_bind] in Ht;
    try discriminate.
  injection Ht as <-. by rewrite input_frequency.
Qed.

Lemma resolve_frequency c merged s s' :
  Interpolate.resolve c merged s = Ok s' →
  sampling_frequency s' = sampling_frequency s.
Proof.
  destruct (resolve_spec c merged s) as (s1 & -> & Hf & _).
  by intros [= <-].
Qed.

(** Whatever [Interpolate._process] returns has one port, whose container
    has sampling frequency 1. *)
Lemma interpolate_frequency fuel self data out :
  Interpolate._process fuel self data = Ok out →
  ∃ o, out = {[ Interpolate.OUTPUT_MAIN := o ]} ∧ sampling_frequency o = Some 1.
Proof.
  unfold Interpolate._process.
  destruct (dict_getitem data Interpolate.INPUT_MAIN) as [main | e |];
    cbn [mbind result_bind]; try discriminate.
  set (chans := elements (get_channels_as_set main)).
  destruct (from_multi_channel_spec (A := Z) 1 chans) as (Hf0 & _).
  set (P := λ st : FrameworkData.t Z, sampling_frequency st = Some 1).
  assert (Hboth : ∀ body,
    (∀ ch t t', body ch t = Ok t' → P t → P t') →
    ∀ r, for_each chans body (from_multi_channel 1 chans) = Ok r → P r).
  { intros body Hbody r Hr.
    by apply (for_each_invariant P chans body Hbody _ r Hr). }
  destruct (Interpolate.sliding_window self).
  - destruct (for_each chans _ _) as [o | e |] eqn:Hfor;
      cbn [mbind result_bind]; try discriminate.
    intros [= <-]. exists o. split; [done |].
    apply (Hboth _) in Hfor; [done |].
    intros ch t t' Ht Hpre. unfold Interpolate.process_sliding_channel in Ht.
    destruct (Interpolate.merge_channel _ _ _ _ _ _) as [st | e |];
      cbn [mbind result_bind] in Ht; try discriminate.
    unfold P. by rewrite (resolve_frequency _ _ _ _ Ht).
  - destruct (for_each chans _ _) as [o | e |] eqn:Hfor;
      cbn [mbind result_bind]; try discriminate.
    intros [= <-]. exists o. split; [done |].
    apply (Hboth _) in Hfor; [done |].
    intros ch t t' Ht Hpre. unfold Interpolate.process_plain_channel in Ht.
    apply (for_each_invariant P) in Ht; [done | | done].
    intros w u u' Hu Hpu.
    destruct (py_comprehension _ _); cbn [mbind result_bind] in Hu;
      try discriminate.
    injection Hu as <-. unfold P. by rewrite input_frequency.
Qed.

(** Whatever [DataReplicate._process] returns has one port, whose container
    has sampling frequency 1. *)
Lemma data_replicate_frequency self data out :
  DataReplicate._process self data = Ok out →
  ∃ o, out = {[ DataReplicate.OUTPUT_MAIN := o ]} ∧
       sampling_frequency o = Some 1.
Proof.
  unfold DataReplicate._process.
  destruct (dict_getitem data "main") as [main | e |];
    cbn [mbind result_bind]; try discriminate.
  destruct (from_multi_channel_spec (A := Z) 1 (channels main)) as (Hf0 & _).
  set (P := λ st : FrameworkData.t Z, sampling_frequency st = Some 1).
  destruct (for_each (channels main) _ _) as [o | e |] eqn:Hfor;
    cbn [mbind result_bind]; try discriminate.
  intros [= <-]. exists o. split; [done |].
  apply (for_each_invariant P) in Hfor; [done | | done].
  intros ch t t' Ht Hpre. unfold DataReplicate.process_channel in Ht.
  destruct (get_data_on_channel main ch) as [xs | e |];
    cbn [mbind result_bind] in Ht; try discriminate.
  destruct (for_each xs _ t) as [t1 | e |] eqn:Hrep;
    cbn [mbind result_bind] in Ht; try discriminate.
  assert (Ht1 : P t1).
  { apply (for_each_invariant P) in Hrep; [done | | done].
    intros x u u' [= <-] Hpu. unfold P. by rewrite input_frequency. }
  destruct (DataReplicate.use_extra_data self); [| by injection Ht as <-].
  destruct (py_comprehension _ _); cbn [mbind result_bind] in Ht;
    try discriminate.
  injection Ht as <-. unfold P. by rewrite input_frequency.
Qed.

End Frequency.

(** C9. Whatever [Interpolate._process] and [DataReplicate._process] return
    has sampling frequency 1, whatever the frequency of the input, and
    whatever [segment_data] returns has the sampling frequency of its input;
    and on a well-formed input with at least one element per channel, under
    validated parameters, all three do return. *)
Theorem C9_output_sampling_frequency
  (fuel : nat) (interpolate : Interpolate.t) (replicate : DataReplicate.t)
  (segmenter : SlidingWindowSegmenter.t)
  (data : gmap string (FrameworkData.t Z)) (main : FrameworkData.t Z) :
  data !! "main" = Some main →
  FrameworkData.well_formed main →
  1 ≤ FrameworkData.get_data_count main →
  (Interpolate.sliding_window interpolate = true →
   1 ≤ Interpolate.step_size interpolate ≤ Interpolate.window_size interpolate) →
  1 ≤ SlidingWindowSegmenter.step_size segmenter
    < SlidingWindowSegmenter.window_size segmenter →
  SlidingWindowSegmenter.filling_value segmenter = "zero"
  ∨ SlidingWindowSegmenter.filling_value segmenter = "latest" →
  (Z.to_nat (FrameworkData.get_data_count main) ≤ fuel)%nat →
  (∃ out, Interpolate._process fuel interpolate data = Ok {[ "main" := out ]} ∧
          FrameworkData.sampling_frequency out = Some 1) ∧
  (∃ out, DataReplicate._process replicate data = Ok {[ "main" := out ]} ∧
          FrameworkData.sampling_frequency out = Some 1) ∧
  (∃ out, SlidingWindowSegmenter.segment_data fuel segmenter main = Ok out ∧
          FrameworkData.sampling_frequency out
          = FrameworkData.sampling_frequency main) ∧
  (∀ fuel' node input output,
     Interpolate._process fuel' node input = Ok output →
     ∃ out, output = {[ "main" := out ]} ∧
            FrameworkData.sampling_frequency out = Some 1) ∧
  (∀ node input output,
     DataReplicate._process node input = Ok output →
     ∃ out, output = {[ "main" := out ]} ∧
            FrameworkData.sampling_frequency out = Some 1) ∧
  (∀ fuel' node input output,
     SlidingWindowSegmenter.segment_data fuel' node input = Ok output →
     FrameworkData.sampling_frequency output
     = FrameworkData.sampling_frequency input).
Proof.
  intros Hmain Hwf Hcount Hstep Hseg Hfv Hfuel.
  split; [| split; [| split; [| split; [| split]]]].
  - destruct (Interpolate.sliding_window interpolate) eqn:Hmode.
    + destruct (interpolate_sliding_process fuel interpolate data main)
        as (out & Hrun & Hf & _); try done; [by apply Hstep | lia |].
      by exists out.
    + destruct (interpolate_plain_process fuel interpolate data main)
        as (out & Hrun & Hf & _); try done. by exists out.
  - destruct (data_replicate_process replicate data main Hmain)
      as (out & Hrun & Hf & _); [apply Hwf | | by exists out].
    intros c Hc. destruct (well_formed_lookup main c Hwf Hc) as (xs & Hxs & Hlen).
    exists xs. split; [done |]. intros _ _ ->.
    unfold len in Hlen. simpl in Hlen. lia.
  - destruct (segment_data_channels segmenter main Hwf fuel Hseg Hfv)
      as (seg & out & _ & Hrun & Hf & _); [| by exists out].
    pose proof (loop_rounds_le (SlidingWindowSegmenter.window_size segmenter)
                  (SlidingWindowSegmenter.step_size segmenter)
                  (FrameworkData.get_data_count main)).
    lia.
  - intros fuel' node input output. apply interpolate_frequency.
  - intros node input output. apply data_replicate_frequency.
  - intros fuel' node input output. apply segmenter_frequency.
Qed.

(** Witness of C9: a container sampled at 250 Hz. *)
Lemma C9_output_sampling_frequency_witness :
  let main : FrameworkData.t Z :=
    FrameworkData.input_data_on_channel [1; 2; 3; 4; 5] "ch"
      (FrameworkData.new (Some 250)) in
  (∃ out, Interpolate._process 5 (Interpolate.mk 3 true 2) {[ "main" := main ]}
          = Ok {[ "main" := out ]} ∧
          FrameworkData.sampling_frequency out = Some 1) ∧
  (∃ out, DataReplicate._process (DataReplicate.mk 3 true 2) {[ "main" := main ]}
          = Ok {[ "main" := out ]} ∧
          FrameworkData.sampling_frequency out = Some 1) ∧
  (∃ out, SlidingWindowSegmenter.segment_data 5
            (SlidingWindowSegmenter.mk 3 "zero" 2) main = Ok out ∧
          FrameworkData.sampling_frequency out = Some 250).
Proof.
  intros main.
  destruct (C9_output_sampling_frequency 5 (Interpolate.mk 3 true 2)
              (DataReplicate.mk 3 true 2) (SlidingWindowSegmenter.mk 3 "zero" 2)
              {[ "main" := main ]} main)
    as (Hi & Hr & Hs & _).
  - reflexivity.
  - by_evaluation.
  - vm_compute. discriminate.
  - intros _. simpl. lia.
  - simpl. lia.
  - by left.
  - vm_compute. lia.
  - split; [exact Hi |]. split; [exact Hr | exact Hs].
Defined.

(* ===================================================================== *)
(** * Part III: further properties of the nodes                           *)
(* ===================================================================== *)

(** ** Validation: order of the checks and safety of the accesses *)

(** Either one of the three keys is missing, and this is what validation
    reports, or the three are there. *)
Lemma segmenter_keys_cases
  (name : string) (super_validate : gmap string pyval → result unit)
  (parameters : gmap string pyval) :
  super_validate parameters = Ok tt →
  (∃ parameter,
     SlidingWindowSegmenter._validate_parameters name super_validate parameters
     = Raise (MissingParameterError SlidingWindowSegmenter._MODULE_NAME name
                parameter)) ∨
  (∃ wv fv sv, parameters !! "window_size" = Some wv ∧
               parameters !! "filling_value" = Some fv ∧
               parameters !! "step_size" = Some sv).
Proof.
  intros Hsuper. unfold SlidingWindowSegmenter._validate_parameters.
  rewrite Hsuper. cbn [mbind result_bind].
  destruct (parameters !! "window_size") as [wv|] eqn:Hw; known_keys;
    [| left; by eexists].
  destruct (parameters !! "filling_value") as [fv|] eqn:Hf; known_keys;
    [| left; by eexists].
  destruct (parameters !! "step_size") as [sv|] eqn:Hs; known_keys;
    [| left; by eexists].
  right. by exists wv, fv, sv.
Qed.

(** X1. [SlidingWindowSegmenter._validate_parameters] looks for the three
    keys before it looks at any value: a missing key is reported, in the
    order [window_size], [filling_value], [step_size], whatever the values
    of the keys that are there. *)
Theorem X1_segmenter_missing_key_first
  (name : string) (super_validate : gmap string pyval → result unit)
  (parameters : gmap string pyval) :
  super_validate parameters = Ok tt →
  let outcome :=
    SlidingWindowSegmenter._validate_parameters name super_validate parameters in
  let missing parameter :=
    Raise (MissingParameterError SlidingWindowSegmenter._MODULE_NAME name
             parameter) in
  (parameters !! "window_size" = None → outcome = missing "window_size") ∧
  (is_Some (parameters !! "window_size") →
   parameters !! "filling_value" = None → outcome = missing "filling_value") ∧
  (is_Some (parameters !! "window_size") →
   is_Some (parameters !! "filling_value") →
   parameters !! "step_size" = None → outcome = missing "step_size").
Proof.
  intros Hsuper outcome missing. unfold outcome, missing.
  unfold SlidingWindowSegmenter._validate_parameters. rewrite Hsuper.
  cbn [mbind result_bind]. split; [| split].
  - intros Hw. by known_keys.
  - intros [wv Hw] Hf. by known_keys.
  - intros [wv Hw] [fv Hf] Hs. by known_keys.
Qed.

(** Witness of X1: a window size of the wrong type goes unreported as long
    as [step_size] is missing. *)
Lemma X1_segmenter_missing_key_first_witness :
  let parameters : gmap string pyval :=
    <["window_size" := PyStr "wide"]> (<["filling_value" := PyInt 7]> ∅) in
  SlidingWindowSegmenter._validate_parameters "segmenter" (λ _, Ok tt) parameters
  = Raise (MissingParameterError SlidingWindowSegmenter._MODULE_NAME
             "segmenter" "step_size").
Proof.
  intros parameters.
  destruct (X1_segmenter_missing_key_first "segmenter" (λ _, Ok tt) parameters
              eq_refl) as (_ & _ & Hstep).
  apply Hstep.
  - by exists (PyStr "wide").
  - by exists (PyInt 7).
  - reflexivity.
Defined.

(** X2. Once the parent's validation has passed,
    [SlidingWindowSegmenter._validate_parameters] ends, on every dictionary
    whatever the types of its values, in acceptance or in one of the two
    documented exceptions: every subscript is guarded by a presence check
    and every comparison by a type check, so that no [KeyError] or
    [TypeError] escapes. *)
Theorem X2_segmenter_validation_safe
  (name : string) (super_validate : gmap string pyval → result unit)
  (parameters : gmap string pyval) :
  super_validate parameters = Ok tt →
  documented_outcome SlidingWindowSegmenter._MODULE_NAME name
    (SlidingWindowSegmenter._validate_parameters name super_validate parameters).
Proof.
  intros Hsuper.
  destruct (segmenter_keys_cases name super_validate parameters Hsuper)
    as [Hmiss | Hall].
  - right. left. exact Hmiss.
  - destruct Hall as (wv & fv & sv & Hw & Hf & Hs).
    destruct (segmenter_validate_present name super_validate parameters
                wv fv sv Hsuper Hw Hf Hs) as [[_ Hok] | [_ Hraise]].
    + by left.
    + right. right. exact Hraise.
Qed.

(** Witness of X2: a boolean where an integer is expected is refused with
    [InvalidParameterValue], not with a [TypeError] of the comparison. *)
Lemma X2_segmenter_validation_safe_witness :
  let parameters : gmap string pyval :=
    <["window_size" := PyInt 4]>
      (<["filling_value" := PyStr "zero"]> (<["step_size" := PyBool true]> ∅)) in
  documented_outcome SlidingWindowSegmenter._MODULE_NAME "segmenter"
    (SlidingWindowSegmenter._validate_parameters "segmenter" (λ _, Ok tt)
       parameters).
Proof.
  intros parameters.
  apply (X2_segmenter_validation_safe "segmenter" (λ _, Ok tt) parameters).
  reflexivity.
Defined.

(** Closes a case in which validation raises: acceptance is refuted on both
    sides, and the exception is a documented one. *)
Ltac refused :=
  solve [ split;
          [ split; [ discriminate
                   | intros (? & ? & ? & ? & ? & ?); simplify_eq; lia ]
          | right; eauto ] ].

Section InterpolateAcceptance.
Import Interpolate.
Variable name : string.

Lemma interpolate_validate_cases (parameters : gmap string pyval) :
  (_validate_parameters name parameters = Ok tt ↔ interpolate_domain parameters)
  ∧ documented_outcome _MODULE_NAME name (_validate_parameters name parameters).
Proof.
  unfold documented_outcome.
  destruct (parameters !! "window_size") as [wv|] eqn:Hw.
  2: { unfold _validate_parameters. known_keys. cbn. refused. }
  destruct wv as [ | b | ws | s | | m e ];
    try (unfold _validate_parameters; known_keys; cbn; refused).
  destruct (Z.leb_spec ws 1) as [Hle | Hgt].
  { unfold _validate_parameters. known_keys. cbn.
    destruct (Z.leb_spec ws 1); [| lia]. cbn. refused. }
  destruct (parameters !! "sliding_window") as [sv|] eqn:Hs.
  2: { unfold _validate_parameters. known_keys. cbn.
       destruct (Z.leb_spec ws 1); [lia |]. cbn. refused. }
  destruct sv as [ | sw | z | s | | m e ];
    try (unfold _validate_parameters; known_keys; cbn;
         destruct (Z.leb_spec ws 1); [lia |]; cbn; refused).
  destruct sw.
  - destruct (parameters !! "step_size") as [tv|] eqn:Ht.
    + destruct (interpolate_validate_step name parameters ws tv Hw Hgt Hs Ht)
        as [[Hdom Hok] | [Hdom (cause & Hr)]]; rewrite ?Hok, ?Hr.
      * split; [| by left]. split; [| done]. intros _.
        exists ws, true. repeat split; try done. intros _. by exists tv.
      * split; [| right; right; by eauto]. split; [discriminate |].
        intros (ws' & sw' & Hw' & _ & Hs' & Hstep). simplify_eq.
        destruct (Hstep eq_refl) as (v & Hv & Hd). by simplify_eq.
    + rewrite (interpolate_validate_prefix name _ ws true Hw Hgt Hs).
      known_keys. cbn. split; [| right; left; by eauto].
      split; [discriminate |].
      intros (ws' & sw' & Hw' & _ & Hs' & Hstep). simplify_eq.
      destruct (Hstep eq_refl) as (v & Hv & _). by simplify_eq.
  - rewrite (interpolate_validate_prefix name _ ws false Hw Hgt Hs).
    split; [| by left]. split; [| done]. intros _.
    exists ws, false. repeat split; try done.
Qed.

End InterpolateAcceptance.

(** X3. [Interpolate._validate_parameters] accepts exactly the parameter
    sets with an integer [window_size > 1], a boolean [sliding_window] and,
    when [sliding_window] is true, an integer [step_size] with
    [1 < step_size < window_size]; on every other dictionary, whatever the
    types of its values, it raises one of the two documented exceptions,
    never a [KeyError] or a [TypeError]. *)
Theorem X3_interpolate_acceptance
  (name : string) (parameters : gmap string pyval) :
  (Interpolate._validate_parameters name parameters = Ok tt
   ↔ interpolate_domain parameters) ∧
  documented_outcome Interpolate._MODULE_NAME name
    (Interpolate._validate_parameters name parameters).
Proof. apply interpolate_validate_cases. Qed.

Section ReplicateAcceptance.
Import DataReplicate.
Variable name : string.

(** The checks that precede the [use_extra_data] branch all pass. *)
Lemma replicate_validate_prefix parameters count use_extra :
  parameters !! "data_repetition_count" = Some (PyInt count) →
  1 < count →
  parameters !! "use_extra_data" = Some (PyBool use_extra) →
  _validate_parameters name parameters =
    if use_extra then
      _ ← raise_if (negb (has_key parameters "extra_data"))
            (MissingParameterError _MODULE_NAME name "extra_data");
      extra_data ← dict_getitem parameters "extra_data";
      _ ← raise_if (negb (is_int extra_data))
            (InvalidParameterValue _MODULE_NAME name "extra_data" "must_be_int");
      c ← py_or (py_le extra_data (PyInt 1)) (py_ge extra_data (PyInt count));
      raise_if c
        (InvalidParameterValue _MODULE_NAME name "extra_data" "invalid_value")
    else Ok tt.
Proof.
  intros Hc Hgt Hu. unfold _validate_parameters. known_keys. simpl.
  destruct (Z.leb_spec count 1) as [Hle|_]; [lia |]. simpl.
  by destruct use_extra.
Qed.

Lemma replicate_validate_cases (parameters : gmap string pyval) :
  (_validate_parameters name parameters = Ok tt ↔ replicate_domain parameters)
  ∧ documented_outcome _MODULE_NAME name (_validate_parameters name parameters).
Proof.
  unfold documented_outcome.
  destruct (parameters !! "data_repetition_count") as [cv|] eqn:Hc.
  2: { unfold _validate_parameters. known_keys. cbn. refused. }
  destruct cv as [ | b | count | s | | m e ];
    try (unfold _validate_parameters; known_keys; cbn; refused).
  destruct (Z.leb_spec count 1) as [Hle | Hgt].
  { unfold _validate_parameters. known_keys. cbn.
    destruct (Z.leb_spec count 1); [| lia]. cbn. refused. }
  destruct (parameters !! "use_extra_data") as [uv|] eqn:Hu.
  2: { unfold _validate_parameters. known_keys. cbn.
       destruct (Z.leb_spec count 1); [lia |]. cbn. refused. }
  destruct uv as [ | use_extra | z | s | | m e ];
    try (unfold _validate_parameters; known_keys; cbn;
         destruct (Z.leb_spec count 1); [lia |]; cbn; refused).
  rewrite (replicate_validate_prefix _ count use_extra Hc Hgt Hu).
  destruct use_extra.
  - assert (Hno : (∀ extra, parameters !! "extra_data" = Some (PyInt extra) →
                             ¬ 1 < extra < count) →
                  ¬ replicate_domain parameters).
    { intros Hbad (count' & use' & Hc' & _ & Hu' & Hextra).
      simplify_eq. destruct (Hextra eq_refl) as (extra & He & Hd).
      by apply (Hbad extra). }
    destruct (parameters !! "extra_data") as [ev|] eqn:He; known_keys; cbn.
    2: { split; [| right; left; by eauto]. split; [discriminate |].
         intros Hd. apply Hno in Hd; [done | by intros ? ?]. }
    destruct ev as [ | b | extra | s | | m e ]; cbn;
      try (split; [| right; right; by eauto]; split; [discriminate |];
           intros Hd; apply Hno in Hd; [done | by intros ? ?]).
    unfold py_or, py_le, py_ge. cbn.
    destruct (Z.leb_spec extra 1); cbn.
    { split; [| right; right; by eauto]. split; [discriminate |].
      intros Hd. apply Hno in Hd; [done |]. intros extra' [= <-]. lia. }
    destruct (Z.leb_spec count extra); cbn.
    { split; [| right; right; by eauto]. split; [discriminate |].
      intros Hd. apply Hno in Hd; [done |]. intros extra' [= <-]. lia. }
    split; [| by left]. split; [| done]. intros _.
    exists count, true. repeat split; try done. intros _.
    exists extra. split; [done | lia].
  - split; [| by left]. split; [| done]. intros _.
    exists count, false. repeat split; try done.
Qed.

End ReplicateAcceptance.

(** X4. [DataReplicate._validate_parameters] accepts exactly the parameter
    sets with an integer [data_repetition_count > 1], a boolean
    [use_extra_data] and, when [use_extra_data] is true, an integer
    [extra_data] with [1 < extra_data < data_repetition_count]; on every
    other dictionary, whatever the types of its values, it raises one of the
    two documented exceptions, never a [KeyError] or a [TypeError]. *)
Theorem X4_data_replicate_acceptance
  (name : string) (parameters : gmap string pyval) :
  (DataReplicate._validate_parameters name parameters = Ok tt
   ↔ replicate_domain parameters) ∧
  documented_outcome DataReplicate._MODULE_NAME name
    (DataReplicate._validate_parameters name parameters).
Proof. apply replicate_validate_cases. Qed.

(** Whatever [SlidingWindowSegmenter._validate_parameters] accepts has the
    three keys, with values in the domain. *)
Lemma segmenter_accepted
  (name : string) (super_validate : gmap string pyval → result unit)
  (parameters : gmap string pyval) :
  SlidingWindowSegmenter._validate_parameters name super_validate parameters
  = Ok tt →
  ∃ ws fv ss,
    parameters !! "window_size" = Some (PyInt ws) ∧
    parameters !! "filling_value" = Some (PyStr fv) ∧
    parameters !! "step_size" = Some (PyInt ss) ∧
    (fv = "zero" ∨ fv = "latest") ∧ 1 ≤ ss < ws.
Proof.
  intros Hok.
  assert (Hsuper : super_validate parameters = Ok tt).
  { unfold SlidingWindowSegmenter._validate_parameters in Hok.
    destruct (super_validate parameters) as [[] | e |]; [done | done | done]. }
  destruct (segmenter_keys_cases name super_validate parameters Hsuper)
    as [[p Hmiss] | (wv & fv & sv & Hw & Hf & Hs)]; [congruence |].
  destruct (segmenter_validate_present name super_validate parameters
              wv fv sv Hsuper Hw Hf Hs)
    as [[(ws & fvs & ss & -> & -> & -> & Hfv & Hss) _] | [_ (p & c & Hr)]];
    [| congruence].
  by exists ws, fvs, ss.
Qed.

(** X5. The strict bounds of the validations leave no room under small
    sizes: an accepted segmenter has [window_size >= 2]; an accepted
    [Interpolate] has [window_size >= 2], and [window_size >= 3] in sliding
    mode; an accepted [DataReplicate] has [data_repetition_count >= 2], and
    [data_repetition_count >= 3] when the tail extension is on. *)
Theorem X5_minimum_sizes :
  (∀ name super_validate parameters,
     SlidingWindowSegmenter._validate_parameters name super_validate parameters
     = Ok tt →
     ∃ ws, parameters !! "window_size" = Some (PyInt ws) ∧ 2 ≤ ws) ∧
  (∀ name parameters,
     Interpolate._validate_parameters name parameters = Ok tt →
     ∃ ws sw, parameters !! "window_size" = Some (PyInt ws) ∧
              parameters !! "sliding_window" = Some (PyBool sw) ∧
              2 ≤ ws ∧ (sw = true → 3 ≤ ws)) ∧
  (∀ name parameters,
     DataReplicate._validate_parameters name parameters = Ok tt →
     ∃ count use_extra,
       parameters !! "data_repetition_count" = Some (PyInt count) ∧
       parameters !! "use_extra_data" = Some (PyBool use_extra) ∧
       2 ≤ count ∧ (use_extra = true → 3 ≤ count)).
Proof.
  split; [| split].
  - intros name super_validate parameters Hok.
    destruct (segmenter_accepted name super_validate parameters Hok)
      as (ws & fv & ss & Hw & _ & _ & _ & Hss).
    exists ws. split; [done | lia].
  - intros name parameters Hok.
    apply (interpolate_validate_cases name) in Hok
      as (ws & sw & Hw & Hgt & Hs & Hstep).
    exists ws, sw. repeat split; try done; [lia |].
    intros Hsw. destruct (Hstep Hsw) as (v & _ & ss & _ & Hss). lia.
  - intros name parameters Hok.
    apply (replicate_validate_cases name) in Hok
      as (count & use_extra & Hc & Hgt & Hu & Hextra).
    exists count, use_extra. repeat split; try done; [lia |].
    intros Huse. destruct (Hextra Huse) as (extra & _ & He). lia.
Qed.

(** Witness of X5: a sliding [Interpolate] with the smallest window. *)
Lemma X5_minimum_sizes_witness :
  let parameters : gmap string pyval :=
    <["window_size" := PyInt 3]>
      (<["sliding_window" := PyBool true]> (<["step_size" := PyInt 2]> ∅)) in
  Interpolate._validate_parameters "interpolate" parameters = Ok tt ∧
  ∃ ws sw, parameters !! "window_size" = Some (PyInt ws) ∧
           parameters !! "sliding_window" = Some (PyBool sw) ∧
           2 ≤ ws ∧ (sw = true → 3 ≤ ws).
Proof.
  intros parameters. split; [reflexivity |].
  destruct X5_minimum_sizes as (_ & Hinterpolate & _).
  apply (Hinterpolate "interpolate" parameters). reflexivity.
Defined.

(** ** The segmenter: shape of the output *)

Lemma get_data_count_nonneg {A} (d : FrameworkData.t A) :
  0 ≤ FrameworkData.get_data_count d.
Proof.
  unfold FrameworkData.get_data_count.
  destruct (FrameworkData.channels d); [done | apply len_nonneg].
Qed.

Lemma len_loop_windows xs ws step rounds :
  0 ≤ rounds → len (loop_windows xs ws step rounds) = rounds.
Proof. intros H. unfold loop_windows. by rewrite len_fmap, len_seqZ. Qed.

Lemma len_tail_epochs xs ws index pad :
  len (tail_epochs xs ws index pad) = if len xs - index =? 0 then 0 else 1.
Proof.
  unfold tail_epochs. destruct (len xs - index =? 0); [done |].
  by destruct (len xs - index =? ws).
Qed.

(** Every epoch has [window_size] samples. *)
Lemma epochs_window_size xs ws step pad :
  1 ≤ step < ws →
  Forall (λ e, len e = ws)
    (loop_windows xs ws step (loop_rounds ws step (len xs))
     ++ tail_epochs xs ws (loop_rounds ws step (len xs) * step) pad).
Proof.
  intros Hs.
  destruct (remaining_bounds ws step (len xs) Hs (len_nonneg xs))
    as (HK & Hidx & Hrem & _).
  destruct (loop_rounds_spec ws step (len xs)) as [Hbelow _]; [lia |].
  set (K := loop_rounds ws step (len xs)) in *.
  apply Forall_app. split.
  - unfold loop_windows. apply Forall_fmap, Forall_forall.
    intros k Hk. apply elem_of_seqZ in Hk. simpl.
    specialize (Hbelow k). apply len_window_at; nia.
  - unfold tail_epochs.
    destruct (Z.eqb_spec (len xs - K * step) 0); [apply Forall_nil_2 |].
    destruct (Z.eqb_spec (len xs - K * step) ws) as [Hfull | Hpart];
      apply Forall_singleton.
    + unfold len in *. rewrite length_drop. lia.
    + rewrite len_app, len_replicate. unfold len in *.
      rewrite length_drop. lia.
Qed.

(** The first [step_size] samples of the loop's windows, put end to end,
    are the samples before the final index. *)
Lemma loop_windows_strides xs ws step (n : nat) :
  1 ≤ step ≤ ws →
  loop_windows xs ws step (Z.of_nat n) ≫= take (Z.to_nat step)
  = take (n * Z.to_nat step) xs.
Proof.
  intros Hs. induction n as [|n IH]; [done |].
  unfold loop_windows in *. rewrite seqZ_S, fmap_app, bind_app, IH.
  cbn [fmap list_fmap]. rewrite bind_singleton. unfold window_at.
  rewrite take_take.
  replace (Z.to_nat step `min` Z.to_nat ws)%nat with (Z.to_nat step) by lia.
  replace (Z.to_nat ((0 + Z.of_nat n) * step)) with (n * Z.to_nat step)%nat
    by nia.
  rewrite take_take_drop. f_equal. lia.
Qed.

(** The original samples are recovered from the epochs: the first
    [step_size] samples of every window of the loop, then the first
    [remaining] samples of the trailing epoch. *)
Lemma epochs_reconstruct xs ws step pad :
  1 ≤ step < ws →
  let rounds := loop_rounds ws step (len xs) in
  let epochs := loop_windows xs ws step rounds
                ++ tail_epochs xs ws (rounds * step) pad in
  (take (Z.to_nat rounds) epochs ≫= take (Z.to_nat step))
  ++ (drop (Z.to_nat rounds) epochs
      ≫= take (Z.to_nat (len xs - rounds * step)))
  = xs.
Proof.
  intros Hs rounds epochs.
  destruct (remaining_bounds ws step (len xs) Hs (len_nonneg xs))
    as (HK & Hidx & Hrem & Hzero). fold rounds in HK, Hidx, Hrem, Hzero.
  assert (Hlen : length (loop_windows xs ws step rounds) = Z.to_nat rounds).
  { pose proof (len_loop_windows xs ws step rounds HK) as H.
    unfold len in H. lia. }
  unfold epochs. rewrite take_app_length', drop_app_length' by done.
  rewrite <- (Z2Nat.id rounds HK) at 1.
  rewrite loop_windows_strides by lia.
  replace (Z.to_nat rounds * Z.to_nat step)%nat with (Z.to_nat (rounds * step))
    by nia.
  rewrite <- (take_drop (Z.to_nat (rounds * step)) xs) at 4. f_equal.
  unfold tail_epochs.
  destruct (Z.eqb_spec (len xs - rounds * step) 0) as [Hz | Hnz].
  - simpl. symmetry. apply drop_ge. unfold len in *. lia.
  - assert (Hdrop : length (drop (Z.to_nat (rounds * step)) xs)
                    = Z.to_nat (len xs - rounds * step)).
    { rewrite length_drop. unfold len in *. lia. }
    destruct (len xs - rounds * step =? ws); rewrite bind_singleton.
    + apply take_ge. lia.
    + by apply take_app_length'.
Qed.

(** The epochs that [segment_data] leaves on a channel, in terms of the
    samples of that channel alone. *)
Lemma segment_data_on_channel
  (fuel : nat) (self : SlidingWindowSegmenter.t) (data : FrameworkData.t Z)
  (c : string) (xs : list Z) :
  let ws := SlidingWindowSegmenter.window_size self in
  let step := SlidingWindowSegmenter.step_size self in
  let rounds := loop_rounds ws step (len xs) in
  FrameworkData.well_formed data →
  c ∈ FrameworkData.channels data →
  FrameworkData._data data !! c = Some xs →
  1 ≤ step < ws →
  SlidingWindowSegmenter.filling_value self = "zero"
  ∨ SlidingWindowSegmenter.filling_value self = "latest" →
  (Z.to_nat rounds ≤ fuel)%nat →
  len xs = FrameworkData.get_data_count data ∧
  ∃ out,
    SlidingWindowSegmenter.segment_data fuel self data = Ok out ∧
    FrameworkData.on_channel out c =
      loop_windows xs ws step rounds
      ++ tail_epochs xs ws (rounds * step)
           (pad_value (SlidingWindowSegmenter.filling_value self) xs).
Proof.
  intros ws step rounds Hwf Hc Hxs Hstep Hfv Hfuel.
  destruct (well_formed_lookup data c Hwf Hc) as (xs' & Hxs' & Hlen).
  assert (xs' = xs) as -> by congruence. split; [done |].
  unfold rounds in Hfuel. rewrite Hlen in Hfuel.
  destruct (segment_data_channels self data Hwf fuel Hstep Hfv Hfuel)
    as (seg & out & _ & Hrun & _ & _ & Hch).
  destruct (Hch c xs Hc Hxs) as (_ & Hseg & Hout).
  exists out. split; [exact Hrun |].
  rewrite Hout, Hseg. unfold rounds. by rewrite Hlen.
Qed.

(** X6. A segmenter built from parameters that pass validation never fails
    at run time: its constructor finds the three keys it copies, the
    attributes are an integer window, a filling policy and an integer step
    with [1 <= step_size < window_size], and [segment_data] returns on every
    well-formed container, the empty one included, within [data_count]
    rounds of its loop. *)
Theorem X6_segmenter_constructed_runs
  (name : string) (super_validate super_init : gmap string pyval → result unit)
  (parameters : gmap string pyval) :
  SlidingWindowSegmenter._validate_parameters name super_validate parameters
  = Ok tt →
  super_init parameters = Ok tt →
  ∃ f self,
    SlidingWindowSegmenter.__init__ super_init parameters = Ok f ∧
    SlidingWindowSegmenter.reads_as f self ∧
    1 ≤ SlidingWindowSegmenter.step_size self
      < SlidingWindowSegmenter.window_size self ∧
    ∀ (data : FrameworkData.t Z) (fuel : nat),
      FrameworkData.well_formed data →
      (Z.to_nat (FrameworkData.get_data_count data) ≤ fuel)%nat →
      ∃ out, SlidingWindowSegmenter.segment_data fuel self data = Ok out.
Proof.
  intros Hok Hinit.
  destruct (segmenter_accepted name super_validate parameters Hok)
    as (ws & fv & ss & Hw & Hf & Hs & Hfv & Hss).
  exists (SlidingWindowSegmenter.mk_fields (PyInt ws) (PyStr fv) (PyInt ss)),
         (SlidingWindowSegmenter.mk ws fv ss).
  split; [| split; [done | split; [done |]]].
  - unfold SlidingWindowSegmenter.__init__. rewrite Hinit.
    cbn [mbind result_bind]. by known_keys.
  - intros data fuel Hwf Hfuel.
    destruct (segment_data_channels (SlidingWindowSegmenter.mk ws fv ss)
                data Hwf fuel Hss Hfv)
      as (seg & out & _ & Hrun & _); [| by exists out].
    pose proof (loop_rounds_le ws ss (FrameworkData.get_data_count data)).
    pose proof (get_data_count_nonneg data). simpl. lia.
Qed.

(** Witness of X6: a window of 3 samples stepping by 2, run on five
    samples. *)
Lemma X6_segmenter_constructed_runs_witness :
  let parameters : gmap string pyval :=
    <["window_size" := PyInt 3]>
      (<["filling_value" := PyStr "zero"]> (<["step_size" := PyInt 2]> ∅)) in
  ∃ f self,
    SlidingWindowSegmenter.__init__ (λ _, Ok tt) parameters = Ok f ∧
    SlidingWindowSegmenter.reads_as f self ∧
    ∃ out,
      SlidingWindowSegmenter.segment_data 5 self
        (FrameworkData.input_data_on_channel [1; 2; 3; 4; 5] "ch"
           (FrameworkData.new None)) = Ok out.
Proof.
  intros parameters.
  destruct (X6_segmenter_constructed_runs "segmenter" (λ _, Ok tt) (λ _, Ok tt)
              parameters) as (f & self & Hinit & Hreads & _ & Hrun).
  - reflexivity.
  - reflexivity.
  - exists f, self. split; [exact Hinit |]. split; [exact Hreads |].
    apply Hrun; [by_evaluation | vm_compute; lia].
Defined.

(** X7. Every epoch that [segment_data] emits has exactly [window_size]
    samples, the trailing one included, whatever the length of the
    channel. *)
Theorem X7_segmenter_epoch_length
  (fuel : nat) (self : SlidingWindowSegmenter.t) (data : FrameworkData.t Z)
  (c : string) (xs : list Z) :
  let window_size := SlidingWindowSegmenter.window_size self in
  let step_size := SlidingWindowSegmenter.step_size self in
  FrameworkData.well_formed data →
  c ∈ FrameworkData.channels data →
  FrameworkData._data data !! c = Some xs →
  1 ≤ step_size < window_size →
  SlidingWindowSegmenter.filling_value self = "zero"
  ∨ SlidingWindowSegmenter.filling_value self = "latest" →
  (Z.to_nat (loop_rounds window_size step_size (len xs)) ≤ fuel)%nat →
  ∃ out,
    SlidingWindowSegmenter.segment_data fuel self data = Ok out ∧
    Forall (λ epoch, len epoch = window_size) (FrameworkData.on_channel out c).
Proof.
  intros ws step Hwf Hc Hxs Hstep Hfv Hfuel.
  destruct (segment_data_on_channel fuel self data c xs Hwf Hc Hxs Hstep Hfv
              Hfuel) as (_ & out & Hrun & Hout).
  exists out. split; [exact Hrun |]. rewrite Hout.
  by apply epochs_window_size.
Qed.

(** Witness of X7: six samples, a window of 4 stepping by 3; the second
    epoch is padded up to four samples. *)
Lemma X7_segmenter_epoch_length_witness :
  let data : FrameworkData.t Z :=
    FrameworkData.input_data_on_channel [1; 2; 3; 4; 5; 6] "ch"
      (FrameworkData.new None) in
  ∃ out,
    SlidingWindowSegmenter.segment_data 1
      (SlidingWindowSegmenter.mk 4 "latest" 3) data = Ok out ∧
    Forall (λ epoch, len epoch = 4) (FrameworkData.on_channel out "ch").
Proof.
  intros data.
  apply (X7_segmenter_epoch_length 1 (SlidingWindowSegmenter.mk 4 "latest" 3)
           data "ch" [1; 2; 3; 4; 5; 6]).
  - by_evaluation.
  - by_evaluation.
  - reflexivity.
  - simpl. lia.
  - by right.
  - vm_compute. lia.
Defined.

(** X8. On a channel of [N] samples [segment_data] emits
    [loop_rounds + 1] epochs, where [loop_rounds] counts the [k >= 0] with
    [k * step_size + window_size < N], and none at all when [N = 0]; in
    particular a channel with [0 < N <= window_size] gives one epoch. *)
Theorem X8_segmenter_epoch_count
  (fuel : nat) (self : SlidingWindowSegmenter.t) (data : FrameworkData.t Z)
  (c : string) (xs : list Z) :
  let window_size := SlidingWindowSegmenter.window_size self in
  let step_size := SlidingWindowSegmenter.step_size self in
  let rounds := loop_rounds window_size step_size (len xs) in
  FrameworkData.well_formed data →
  c ∈ FrameworkData.channels data →
  FrameworkData._data data !! c = Some xs →
  1 ≤ step_size < window_size →
  SlidingWindowSegmenter.filling_value self = "zero"
  ∨ SlidingWindowSegmenter.filling_value self = "latest" →
  (Z.to_nat rounds ≤ fuel)%nat →
  ∃ out,
    SlidingWindowSegmenter.segment_data fuel self data = Ok out ∧
    len (FrameworkData.on_channel out c)
    = (if len xs =? 0 then 0 else rounds + 1) ∧
    (∀ k, 0 ≤ k → (k < rounds ↔ k * step_size + window_size < len xs)) ∧
    (0 < len xs ≤ window_size → len (FrameworkData.on_channel out c) = 1).
Proof.
  intros ws step rounds Hwf Hc Hxs Hstep Hfv Hfuel.
  destruct (segment_data_on_channel fuel self data c xs Hwf Hc Hxs Hstep Hfv
              Hfuel) as (_ & out & Hrun & Hout).
  destruct (remaining_bounds ws step (len xs) Hstep (len_nonneg xs))
    as (HK & _ & _ & Hzero). fold rounds in HK, Hzero.
  assert (Hiff : ∀ k, 0 ≤ k → (k < rounds ↔ k * step + ws < len xs)).
  { intros k Hk. apply loop_rounds_iff; [lia | done]. }
  assert (Hcount : len (FrameworkData.on_channel out c)
                   = if len xs =? 0 then 0 else rounds + 1).
  { rewrite Hout, len_app, len_loop_windows, len_tail_epochs by done.
    fold ws step. fold rounds.
    assert (Hnone : len xs = 0 → rounds = 0).
    { intros Hn. destruct (Z.eq_dec rounds 0) as [| Hne]; [done |].
      assert (H0 : 0 < rounds) by lia. apply (Hiff 0) in H0; lia. }
    destruct (Z.eqb_spec (len xs - rounds * step) 0) as [Hz | Hnz];
      destruct (Z.eqb_spec (len xs) 0) as [Hn | Hn]; lia. }
  exists out. split; [exact Hrun |]. split; [exact Hcount |].
  split; [exact Hiff |].
  intros [Hpos Hshort]. rewrite Hcount.
  destruct (Z.eqb_spec (len xs) 0); [lia |].
  assert (rounds = 0); [| lia].
  destruct (Z.eq_dec rounds 0) as [| Hne]; [done |].
  assert (H0 : 0 < rounds) by lia. apply (Hiff 0) in H0; lia.
Qed.

(** Witness of X8: six samples under a window of 4 stepping by 3 give two
    epochs. *)
Lemma X8_segmenter_epoch_count_witness :
  let data : FrameworkData.t Z :=
    FrameworkData.input_data_on_channel [1; 2; 3; 4; 5; 6] "ch"
      (FrameworkData.new None) in
  ∃ out,
    SlidingWindowSegmenter.segment_data 1
      (SlidingWindowSegmenter.mk 4 "latest" 3) data = Ok out ∧
    len (FrameworkData.on_channel out "ch") = 2.
Proof.
  intros data.
  destruct (X8_segmenter_epoch_count 1 (SlidingWindowSegmenter.mk 4 "latest" 3)
              data "ch" [1; 2; 3; 4; 5; 6])
    as (out & Hrun & Hcount & _).
  - by_evaluation.
  - by_evaluation.
  - reflexivity.
  - simpl. lia.
  - by right.
  - vm_compute. lia.
  - exists out. split; [exact Hrun |]. rewrite Hcount. reflexivity.
Defined.

(** X9. No sample is lost: the channel is recovered from its epochs by
    taking the first [step_size] samples of each epoch of the loop and then
    the first [remaining] samples of the trailing epoch, the rest of which
    is filling. *)
Theorem X9_segmenter_reconstruction
  (fuel : nat) (self : SlidingWindowSegmenter.t) (data : FrameworkData.t Z)
  (c : string) (xs : list Z) :
  let window_size := SlidingWindowSegmenter.window_size self in
  let step_size := SlidingWindowSegmenter.step_size self in
  let rounds := loop_rounds window_size step_size (len xs) in
  FrameworkData.well_formed data →
  c ∈ FrameworkData.channels data →
  FrameworkData._data data !! c = Some xs →
  1 ≤ step_size < window_size →
  SlidingWindowSegmenter.filling_value self = "zero"
  ∨ SlidingWindowSegmenter.filling_value self = "latest" →
  (Z.to_nat rounds ≤ fuel)%nat →
  ∃ out,
    SlidingWindowSegmenter.segment_data fuel self data = Ok out ∧
    (take (Z.to_nat rounds) (FrameworkData.on_channel out c)
       ≫= take (Z.to_nat step_size))
    ++ (drop (Z.to_nat rounds) (FrameworkData.on_channel out c)
          ≫= take (Z.to_nat (len xs - rounds * step_size)))
    = xs.
Proof.
  intros ws step rounds Hwf Hc Hxs Hstep Hfv Hfuel.
  destruct (segment_data_on_channel fuel self data c xs Hwf Hc Hxs Hstep Hfv
              Hfuel) as (_ & out & Hrun & Hout).
  exists out. split; [exact Hrun |]. rewrite Hout.
  by apply epochs_reconstruct.
Qed.

(** Witness of X9: the six samples come back from the two epochs. *)
Lemma X9_segmenter_reconstruction_witness :
  let data : FrameworkData.t Z :=
    FrameworkData.input_data_on_channel [1; 2; 3; 4; 5; 6] "ch"
      (FrameworkData.new None) in
  ∃ out,
    SlidingWindowSegmenter.segment_data 1
      (SlidingWindowSegmenter.mk 4 "latest" 3) data = Ok out ∧
    (take 1 (FrameworkData.on_channel out "ch") ≫= take 3)
    ++ (drop 1 (FrameworkData.on_channel out "ch") ≫= take 3)
    = [1; 2; 3; 4; 5; 6].
Proof.
  intros data.
  apply (X9_segmenter_reconstruction 1 (SlidingWindowSegmenter.mk 4 "latest" 3)
           data "ch" [1; 2; 3; 4; 5; 6]).
  - by_evaluation.
  - by_evaluation.
  - reflexivity.
  - simpl. lia.
  - by right.
  - vm_compute. lia.
Defined.

(** ** The segmenter: edge cases *)

(** X10. On a container that counts no element, [segment_data] returns at
    once an empty container with the sampling frequency of its input: the
    loop is not entered, whatever the budget, and nothing is filled. *)
Theorem X10_segmenter_empty_input
  (fuel : nat) (self : SlidingWindowSegmenter.t) (data : FrameworkData.t Z) :
  FrameworkData.get_data_count data = 0 →
  0 ≤ SlidingWindowSegmenter.window_size self →
  SlidingWindowSegmenter.segment_data fuel self data
  = Ok (FrameworkData.new (FrameworkData.sampling_frequency data)).
Proof.
  intros Hcount Hws.
  unfold SlidingWindowSegmenter.segment_data, SlidingWindowSegmenter.windows_loop.
  rewrite Hcount, while_done; [done |].
  cbn [snd]. apply Z.ltb_ge. lia.
Qed.

(** Witness of X10: a container with one channel that holds nothing. *)
Lemma X10_segmenter_empty_input_witness :
  let data : FrameworkData.t Z :=
    FrameworkData.input_data_on_channel [] "ch" (FrameworkData.new (Some 250)) in
  SlidingWindowSegmenter.segment_data 0 (SlidingWindowSegmenter.mk 3 "zero" 2)
    data
  = Ok (FrameworkData.new (Some 250)).
Proof.
  intros data.
  apply (X10_segmenter_empty_input 0 (SlidingWindowSegmenter.mk 3 "zero" 2) data).
  - reflexivity.
  - simpl. lia.
Defined.

(** X11. What the check [step_size < 1] of the validation protects from: on
    a node whose [step_size] is zero or negative, [segment_data] never
    leaves its loop once the data is longer than the window; every budget
    of rounds is used up. *)
Theorem X11_segmenter_needs_positive_step
  (self : SlidingWindowSegmenter.t) (data : FrameworkData.t Z) :
  FrameworkData.well_formed data →
  SlidingWindowSegmenter.step_size self ≤ 0 →
  SlidingWindowSegmenter.window_size self < FrameworkData.get_data_count data →
  ∀ fuel, SlidingWindowSegmenter.segment_data fuel self data = OutOfFuel.
Proof.
  intros Hwf Hstep Hlong fuel.
  assert (Hloop : ∀ fuel seg index, index ≤ 0 →
    while fuel
      (λ st, snd st + SlidingWindowSegmenter.window_size self
             <? FrameworkData.get_data_count data)
      (SlidingWindowSegmenter.loop_body self data
         (FrameworkData.get_channels_as_set data)) (seg, index)
    = OutOfFuel).
  { clear fuel. induction fuel as [|fuel IH]; intros seg index Hidx.
    - simpl. destruct (Z.ltb_spec
                         (index + SlidingWindowSegmenter.window_size self)
                         (FrameworkData.get_data_count data)); [done | lia].
    - rewrite while_S. cbn [snd].
      destruct (Z.ltb_spec (index + SlidingWindowSegmenter.window_size self)
                  (FrameworkData.get_data_count data)); [| lia].
      destruct (loop_body_spec self data Hwf seg index) as (seg' & -> & _).
      cbn [mbind result_bind]. apply IH. lia. }
  unfold SlidingWindowSegmenter.segment_data, SlidingWindowSegmenter.windows_loop.
  by rewrite Hloop.
Qed.

(** Witness of X11: a step of 0 on five samples under a window of 3. *)
Lemma X11_segmenter_needs_positive_step_witness :
  let data : FrameworkData.t Z :=
    FrameworkData.input_data_on_channel [1; 2; 3; 4; 5] "ch"
      (FrameworkData.new None) in
  SlidingWindowSegmenter.segment_data 1000
    (SlidingWindowSegmenter.mk 3 "zero" 0) data = OutOfFuel.
Proof.
  intros data.
  apply (X11_segmenter_needs_positive_step
           (SlidingWindowSegmenter.mk 3 "zero" 0) data).
  - by_evaluation.
  - simpl. lia.
  - vm_compute. reflexivity.
Defined.

Lemma head_loop_windows xs ws step rounds :
  0 < rounds →
  head (loop_windows xs ws step rounds) = Some (take (Z.to_nat ws) xs).
Proof.
  intros Hr. unfold loop_windows. rewrite seqZ_cons by done. simpl.
  unfold window_at. by rewrite Z.mul_0_l.
Qed.

(** X12. What [_is_processing_condition_satisfied] guards: when the buffer
    holds at least [window_size] samples, the first epoch is the first
    [window_size] samples of the channel, without any filling; when it holds
    fewer, the one epoch emitted is the whole channel followed by filling. *)
Theorem X12_segmenter_processing_condition
  (INPUT_MAIN : string) (buffer : gmap string (FrameworkData.t Z))
  (fuel : nat) (self : SlidingWindowSegmenter.t) (data : FrameworkData.t Z)
  (c : string) (xs : list Z) :
  let window_size := SlidingWindowSegmenter.window_size self in
  let step_size := SlidingWindowSegmenter.step_size self in
  let pad := pad_value (SlidingWindowSegmenter.filling_value self) xs in
  buffer !! INPUT_MAIN = Some data →
  FrameworkData.well_formed data →
  c ∈ FrameworkData.channels data →
  FrameworkData._data data !! c = Some xs →
  1 ≤ step_size < window_size →
  SlidingWindowSegmenter.filling_value self = "zero"
  ∨ SlidingWindowSegmenter.filling_value self = "latest" →
  (Z.to_nat (loop_rounds window_size step_size (len xs)) ≤ fuel)%nat →
  ∃ satisfied out,
    SlidingWindowSegmenter._is_processing_condition_satisfied INPUT_MAIN self
      buffer = Ok satisfied ∧
    SlidingWindowSegmenter.segment_data fuel self data = Ok out ∧
    (satisfied = true →
     head (FrameworkData.on_channel out c)
     = Some (take (Z.to_nat window_size) xs) ∧
     len (take (Z.to_nat window_size) xs) = window_size) ∧
    (satisfied = false → xs ≠ [] →
     FrameworkData.on_channel out c
     = [xs ++ replicate (Z.to_nat (window_size - len xs)) pad] ∧
     0 < window_size - len xs).
Proof.
  intros ws step pad Hbuf Hwf Hc Hxs Hstep Hfv Hfuel.
  destruct (segment_data_on_channel fuel self data c xs Hwf Hc Hxs Hstep Hfv
              Hfuel) as (Hlen & out & Hrun & Hout).
  fold ws step in Hout. fold pad in Hout.
  destruct (remaining_bounds ws step (len xs) Hstep (len_nonneg xs))
    as (HK & _ & Hrem & _).
  destruct (loop_rounds_spec ws step (len xs)) as [_ Hstop]; [lia |].
  set (rounds := loop_rounds ws step (len xs)) in *.
  exists (ws <=? len xs), out.
  split; [| split; [exact Hrun | split]].
  - unfold SlidingWindowSegmenter._is_processing_condition_satisfied.
    rewrite (dict_getitem_Some _ _ _ Hbuf). cbn [mbind result_bind].
    fold ws. by rewrite Hlen.
  - intros Hsat. apply Z.leb_le in Hsat. split.
    + rewrite Hout. destruct (Z.eq_dec rounds 0) as [H0 | Hpos].
      * rewrite H0 in *. assert (Hfull : len xs = ws) by lia.
        unfold loop_windows, tail_epochs. rewrite Z.mul_0_l. simpl.
        rewrite Z.sub_0_r, Hfull.
        destruct (Z.eqb_spec ws 0); [lia |]. rewrite Z.eqb_refl. simpl.
        f_equal. symmetry. apply take_ge. rewrite length_drop.
        unfold len, ws in *. lia.
      * destruct (loop_windows xs ws step rounds) as [|e l] eqn:Hlw.
        { apply (f_equal len) in Hlw.
          rewrite len_loop_windows in Hlw by done.
          unfold len in Hlw. simpl in Hlw. lia. }
        rewrite <- Hlw, <- (head_loop_windows xs ws step rounds) by lia.
        by rewrite Hlw.
    + unfold len in *. rewrite length_take. lia.
  - intros Hsat Hne. apply Z.leb_gt in Hsat.
    assert (H0 : rounds = 0).
    { destruct (Z.eq_dec rounds 0) as [| Hpos]; [done |].
      assert (Hlt : 0 < rounds) by lia.
      apply (loop_rounds_iff ws step (len xs) 0) in Hlt; lia. }
    split; [| lia]. rewrite Hout, H0.
    unfold loop_windows, tail_epochs. rewrite Z.mul_0_l. simpl.
    rewrite Z.sub_0_r.
    assert (Hpos : len xs ≠ 0).
    { intros Hz. destruct xs; [done |]. unfold len in Hz. simpl in Hz. lia. }
    destruct (Z.eqb_spec (len xs) 0); [done |].
    destruct (Z.eqb_spec (len xs) ws); [lia | done].
Qed.

(** Witness of X12: five samples under a window of 3, the condition
    holds. *)
Lemma X12_segmenter_processing_condition_witness :
  let data : FrameworkData.t Z :=
    FrameworkData.input_data_on_channel [1; 2; 3; 4; 5] "ch"
      (FrameworkData.new None) in
  ∃ out,
    SlidingWindowSegmenter._is_processing_condition_satisfied "main"
      (SlidingWindowSegmenter.mk 3 "zero" 2) {[ "main" := data ]} = Ok true ∧
    SlidingWindowSegmenter.segment_data 1
      (SlidingWindowSegmenter.mk 3 "zero" 2) data = Ok out ∧
    head (FrameworkData.on_channel out "ch") = Some [1; 2; 3].
Proof.
  intros data.
  destruct (X12_segmenter_processing_condition "main" {[ "main" := data ]} 1
              (SlidingWindowSegmenter.mk 3 "zero" 2) data "ch" [1; 2; 3; 4; 5])
    as (satisfied & out & Hcond & Hrun & Htrue & _).
  - reflexivity.
  - by_evaluation.
  - by_evaluation.
  - reflexivity.
  - simpl. lia.
  - by left.
  - vm_compute. lia.
  - assert (Hsat : satisfied = true).
    { vm_compute in Hcond. by injection Hcond as <-. }
    exists out. split; [by rewrite Hcond, Hsat |]. split; [exact Hrun |].
    by destruct (Htrue Hsat) as [-> _].
Defined.

(** ** Interpolate and DataReplicate: from validation to processing *)

Lemma condition_positive_count (buffer : gmap string (FrameworkData.t Z))
  (main : FrameworkData.t Z) (b : bool) :
  buffer !! "main" = Some main →
  (main' ← dict_getitem buffer "main";
   Ok (0 <? FrameworkData.get_data_count main')) = Ok b →
  b = (0 <? FrameworkData.get_data_count main).
Proof.
  intros Hbuf. rewrite (dict_getitem_Some _ _ _ Hbuf).
  cbn [mbind result_bind]. by intros [= <-].
Qed.

(** [_initialize_parameter_fields] reads [step_size] whenever
    [sliding_window] compares equal to [True], which the numbers [1] and
    [1.0] do as well: on parameters that were not validated it raises
    [KeyError] when the key is missing. *)
Lemma interpolate_initialize_needs_step
  (super_initialize : gmap string pyval → result unit)
  (parameters : gmap string pyval) (wv sv : pyval) :
  super_initialize parameters = Ok tt →
  parameters !! "window_size" = Some wv →
  parameters !! "sliding_window" = Some sv →
  py_eq_True sv = true →
  parameters !! "step_size" = None →
  Interpolate._initialize_parameter_fields super_initialize parameters
  = Raise KeyError.
Proof.
  intros Hsuper Hw Hs Heq Hstep.
  unfold Interpolate._initialize_parameter_fields. rewrite Hsuper.
  cbn [mbind result_bind]. known_keys. cbn [mbind result_bind].
  rewrite Heq. unfold dict_getitem. by rewrite Hstep.
Qed.

Lemma data_replicate_initialize_needs_extra
  (super_initialize : gmap string pyval → result unit)
  (parameters : gmap string pyval) (cv uv : pyval) :
  super_initialize parameters = Ok tt →
  parameters !! "data_repetition_count" = Some cv →
  parameters !! "use_extra_data" = Some uv →
  py_eq_True uv = true →
  parameters !! "extra_data" = None →
  DataReplicate._initialize_parameter_fields super_initialize parameters
  = Raise KeyError.
Proof.
  intros Hsuper Hc Hu Heq Hextra.
  unfold DataReplicate._initialize_parameter_fields. rewrite Hsuper.
  cbn [mbind result_bind]. known_keys. cbn [mbind result_bind].
  rewrite Heq. unfold dict_getitem. by rewrite Hextra.
Qed.

Lemma py_eq_True_numbers :
  py_eq_True (PyInt 1) = true ∧ py_eq_True (PyFloat 1 0) = true ∧
  py_eq_True (PyFloat 2 (-1)) = true ∧ py_eq_True (PyFloat 3 (-1)) = false ∧
  py_eq_True (PyStr "True") = false.
Proof. by repeat split. Qed.

(** X13. An [Interpolate] node built from parameters that pass validation
    never fails at run time: [_initialize_parameter_fields] finds every key
    it copies, the attributes are an integer window above 1, a boolean mode
    and, in sliding mode, an integer step with
    [1 < step_size < window_size]; and whenever
    [_is_processing_condition_satisfied] holds of a well-formed buffer,
    [_process] returns on it. *)
Theorem X13_interpolate_validated_runs
  (name : string) (super_initialize : gmap string pyval → result unit)
  (parameters : gmap string pyval) :
  Interpolate._validate_parameters name parameters = Ok tt →
  super_initialize parameters = Ok tt →
  ∃ f self,
    Interpolate._initialize_parameter_fields super_initialize parameters = Ok f ∧
    Interpolate.reads_as f self ∧
    1 < Interpolate.window_size self ∧
    (Interpolate.sliding_window self = true →
     1 < Interpolate.step_size self < Interpolate.window_size self) ∧
    ∀ (buffer : gmap string (FrameworkData.t Z)) (main : FrameworkData.t Z)
      (fuel : nat),
      buffer !! "main" = Some main →
      FrameworkData.well_formed main →
      Interpolate._is_processing_condition_satisfied buffer = Ok true →
      (Z.to_nat (FrameworkData.get_data_count main) ≤ fuel)%nat →
      ∃ out, Interpolate._process fuel self buffer = Ok {[ "main" := out ]}.
Proof.
  intros Hok Hsuper.
  apply (interpolate_validate_cases name) in Hok
    as (ws & sw & Hw & Hgt & Hs & Hstep).
  unfold Interpolate._initialize_parameter_fields. rewrite Hsuper.
  cbn [mbind result_bind]. known_keys. cbn [mbind result_bind py_eq_True].
  destruct sw.
  - destruct (Hstep eq_refl) as (v & Hv & ss & -> & Hss). known_keys.
    cbn [mbind result_bind].
    exists (Interpolate.mk_fields (PyInt ws) (PyBool true) (Some (PyInt ss))),
           (Interpolate.mk ws true ss).
    split; [done |]. split; [done |]. split; [done |]. split; [done |].
    intros buffer main fuel Hbuf Hwf Hcond Hfuel.
    apply (condition_positive_count buffer main true Hbuf) in Hcond.
    symmetry in Hcond. apply Z.ltb_lt in Hcond.
    destruct (interpolate_sliding_process fuel (Interpolate.mk ws true ss)
                buffer main Hbuf Hwf) as (out & Hrun & _);
      [done | simpl; lia | lia | lia | by exists out].
  - exists (Interpolate.mk_fields (PyInt ws) (PyBool false) None),
           (Interpolate.mk ws false 0).
    split; [done |]. split; [done |]. split; [done |]. split; [done |].
    intros buffer main fuel Hbuf Hwf _ _.
    destruct (interpolate_plain_process fuel (Interpolate.mk ws false 0)
                buffer main Hbuf Hwf) as (out & Hrun & _);
      [done | by exists out].
Qed.

(** Witness of X13: a sliding node with a window of 5 stepping by 2, on
    three epoch values. *)
Lemma X13_interpolate_validated_runs_witness :
  let parameters : gmap string pyval :=
    <["window_size" := PyInt 5]>
      (<["sliding_window" := PyBool true]> (<["step_size" := PyInt 2]> ∅)) in
  let main : FrameworkData.t Z :=
    FrameworkData.input_data_on_channel [5; 9; 2] "ch" (FrameworkData.new None) in
  ∃ f self,
    Interpolate._initialize_parameter_fields (λ _, Ok tt) parameters = Ok f ∧
    Interpolate.reads_as f self ∧
    ∃ out, Interpolate._process 3 self {[ "main" := main ]}
           = Ok {[ "main" := out ]}.
Proof.
  intros parameters main.
  destruct (X13_interpolate_validated_runs "interpolate" (λ _, Ok tt) parameters)
    as (f & self & Hinit & Hreads & _ & _ & Hrun).
  - reflexivity.
  - reflexivity.
  - exists f, self. split; [exact Hinit |]. split; [exact Hreads |].
    apply (Hrun {[ "main" := main ]} main 3%nat).
    + reflexivity.
    + by_evaluation.
    + reflexivity.
    + vm_compute. lia.
Defined.

(** X14. A [DataReplicate] node built from parameters that pass validation
    never fails at run time: [_initialize_parameter_fields] finds every key
    it copies, the attributes are an integer count above 1, a boolean switch
    and, with the switch on, an integer [extra_data] with
    [1 < extra_data < data_repetition_count]; and whenever
    [_is_processing_condition_satisfied] holds of a well-formed buffer,
    [_process] returns on it, the last element that the tail extension reads
    being there. *)
Theorem X14_data_replicate_validated_runs
  (name : string) (super_initialize : gmap string pyval → result unit)
  (parameters : gmap string pyval) :
  DataReplicate._validate_parameters name parameters = Ok tt →
  super_initialize parameters = Ok tt →
  ∃ f self,
    DataReplicate._initialize_parameter_fields super_initialize parameters
    = Ok f ∧
    DataReplicate.reads_as f self ∧
    1 < DataReplicate.data_repetition_count self ∧
    (DataReplicate.use_extra_data self = true →
     1 < DataReplicate.extra_data self
       < DataReplicate.data_repetition_count self) ∧
    ∀ (buffer : gmap string (FrameworkData.t Z)) (main : FrameworkData.t Z),
      buffer !! "main" = Some main →
      FrameworkData.well_formed main →
      DataReplicate._is_processing_condition_satisfied buffer = Ok true →
      ∃ out, DataReplicate._process self buffer = Ok {[ "main" := out ]}.
Proof.
  intros Hok Hsuper.
  apply (replicate_validate_cases name) in Hok
    as (count & use_extra & Hc & Hgt & Hu & Hextra).
  unfold DataReplicate._initialize_parameter_fields. rewrite Hsuper.
  cbn [mbind result_bind]. known_keys. cbn [mbind result_bind py_eq_True].
  assert (Hruns : ∀ self (buffer : gmap string (FrameworkData.t Z)) main,
    buffer !! "main" = Some main →
    FrameworkData.well_formed main →
    DataReplicate._is_processing_condition_satisfied buffer = Ok true →
    ∃ out, DataReplicate._process self buffer = Ok {[ "main" := out ]}).
  { intros self buffer main Hbuf Hwf Hcond.
    apply (condition_positive_count buffer main true Hbuf) in Hcond.
    symmetry in Hcond. apply Z.ltb_lt in Hcond.
    destruct (data_replicate_process self buffer main Hbuf)
      as (out & Hrun & _); [apply Hwf | | by exists out].
    intros c Hch.
    destruct (well_formed_lookup main c Hwf Hch) as (xs & Hxs & Hlen).
    exists xs. split; [done |]. intros _ _ ->.
    unfold len in Hlen. simpl in Hlen. lia. }
  destruct use_extra.
  - destruct (Hextra eq_refl) as (extra & He & Hbounds). known_keys.
    cbn [mbind result_bind].
    exists (DataReplicate.mk_fields (PyInt count) (PyBool true)
              (Some (PyInt extra))),
           (DataReplicate.mk count true extra).
    split; [done |]. split; [done |]. split; [done |]. split; [done |].
    apply Hruns.
  - exists (DataReplicate.mk_fields (PyInt count) (PyBool false) None),
           (DataReplicate.mk count false 0).
    split; [done |]. split; [done |]. split; [done |]. split; [done |].
    apply Hruns.
Qed.

(** Witness of X14: three repetitions and two extra samples, on two
    samples. *)
Lemma X14_data_replicate_validated_runs_witness :
  let parameters : gmap string pyval :=
    <["data_repetition_count" := PyInt 3]>
      (<["use_extra_data" := PyBool true]> (<["extra_data" := PyInt 2]> ∅)) in
  let main : FrameworkData.t Z :=
    FrameworkData.input_data_on_channel [10; 20] "ch" (FrameworkData.new None) in
  ∃ f self,
    DataReplicate._initialize_parameter_fields (λ _, Ok tt) parameters = Ok f ∧
    DataReplicate.reads_as f self ∧
    ∃ out, DataReplicate._process self {[ "main" := main ]}
           = Ok {[ "main" := out ]}.
Proof.
  intros parameters main.
  destruct (X14_data_replicate_validated_runs "replicate" (λ _, Ok tt)
              parameters)
    as (f & self & Hinit & Hreads & _ & _ & Hrun).
  - reflexivity.
  - reflexivity.
  - exists f, self. split; [exact Hinit |]. split; [exact Hreads |].
    apply (Hrun {[ "main" := main ]} main).
    + reflexivity.
    + by_evaluation.
    + reflexivity.
Defined.

(** ** Interpolate: edge cases and values *)




Lemma resolved_subset (slot : list Z) (y : Z) : y ∈ resolved slot → y ∈ slot.
Proof.
  destruct slot as [|x rest]; [done |].
  destruct (resolved_spec (x :: rest)) as (m & -> & Hin & _); [done |].
  intros Hy. by apply list_elem_of_singleton in Hy as ->.
Qed.

(** The output of the sliding branch, one sample per slot. *)
Lemma sliding_output_samples ws step vs :
  1 ≤ step ≤ ws → 1 ≤ len vs →
  slots_after ws step vs (length vs) ≫= resolved
  = (λ i, default 0 (head (resolved (candidates ws step vs i))))
      <$> seqZ 0 (ws + (len vs - 1) * step).
Proof.
  intros Hs Hlen. unfold slots_after. rewrite firstn_all, list_fmap_bind.
  apply bind_singletons. intros i Hi. apply elem_of_seqZ in Hi. simpl.
  destruct (resolved_spec (candidates ws step vs i)) as (y & -> & _); [| done].
  apply candidates_nonempty; first [done | unfold len in *; lia].
Qed.

(** X16. [Interpolate] never invents a value: in both modes, every sample
    of an output channel is one of the epoch values of that channel. *)
Theorem X16_interpolate_output_values
  (fuel : nat) (self : Interpolate.t) (data : gmap string (FrameworkData.t Z))
  (main : FrameworkData.t Z) (c : string) (vs : list Z) :
  data !! "main" = Some main →
  FrameworkData.well_formed main →
  c ∈ FrameworkData.channels main →
  FrameworkData._data main !! c = Some vs →
  (Interpolate.sliding_window self = true →
   1 ≤ Interpolate.step_size self ≤ Interpolate.window_size self ∧
   1 ≤ len vs) →
  (Z.to_nat (len vs) ≤ fuel)%nat →
  ∃ out ys,
    Interpolate._process fuel self data = Ok {[ "main" := out ]} ∧
    FrameworkData._data out !! c = Some ys ∧
    ∀ y, y ∈ ys → y ∈ vs.
Proof.
  intros Hmain Hwf Hc Hvs Hsliding Hfuel.
  destruct (well_formed_lookup main c Hwf Hc) as (vs' & Hvs' & Hlen).
  assert (vs' = vs) as -> by congruence.
  destruct (Interpolate.sliding_window self) eqn:Hmode.
  - destruct (Hsliding eq_refl) as [Hstep Hone].
    destruct (interpolate_sliding_process fuel self data main Hmain Hwf Hmode
                Hstep) as (out & Hrun & _ & Hout); [lia | lia |].
    eexists out, _. split; [exact Hrun |]. split; [by apply Hout |].
    intros y Hy. apply list_elem_of_bind in Hy as (slot & Hy & Hslot).
    apply resolved_subset in Hy. unfold slots_after in Hslot.
    apply list_elem_of_fmap in Hslot as (i & -> & _).
    apply elem_of_candidates_from in Hy as (w & Hw & _).
    rewrite firstn_all in Hw. by eapply list_elem_of_lookup_2.
  - destruct (interpolate_plain_process fuel self data main Hmain Hwf Hmode)
      as (out & Hrun & _ & Hout).
    eexists out, _. split; [exact Hrun |]. split; [by apply Hout |].
    intros y Hy. unfold upsampled in Hy.
    apply list_elem_of_bind in Hy as (v & Hy & Hv).
    unfold py_repeat in Hy. by apply elem_of_replicate_inv in Hy as ->.
Qed.

(** Witness of X16: the epoch values 5, 9, 2 in sliding mode. *)
Lemma X16_interpolate_output_values_witness :
  let main : FrameworkData.t Z :=
    FrameworkData.input_data_on_channel [5; 9; 2] "ch" (FrameworkData.new None) in
  ∃ out ys,
    Interpolate._process 3 (Interpolate.mk 5 true 2) {[ "main" := main ]}
    = Ok {[ "main" := out ]} ∧
    FrameworkData._data out !! "ch" = Some ys ∧
    ∀ y, y ∈ ys → y ∈ [5; 9; 2].
Proof.
  intros main.
  apply (X16_interpolate_output_values 3 (Interpolate.mk 5 true 2)
           {[ "main" := main ]} main "ch" [5; 9; 2]).
  - reflexivity.
  - by_evaluation.
  - by_evaluation.
  - reflexivity.
  - intros _. split; [simpl; lia | vm_compute; discriminate].
  - vm_compute. lia.
Defined.

(** ** How the nodes compose *)

(** X17. Segmenting and interpolating back: when a channel of [N >= 1]
    samples is segmented, and one value per epoch is then interpolated in
    sliding mode with the same window and step, the reconstructed channel
    has [loop_rounds * step_size + window_size] samples, that is the [N]
    original positions followed by as many positions as the trailing epoch
    was filled with; it is never shorter than the original and exceeds it by
    less than a window. *)
Theorem X17_segment_then_interpolate_length
  (fuel : nat) (segmenter : SlidingWindowSegmenter.t)
  (interpolate : Interpolate.t) (data : FrameworkData.t Z)
  (epochs : FrameworkData.t (list Z)) (labels : FrameworkData.t Z)
  (c : string) (xs vs : list Z) :
  let window_size := SlidingWindowSegmenter.window_size segmenter in
  let step_size := SlidingWindowSegmenter.step_size segmenter in
  let rounds := loop_rounds window_size step_size (len xs) in
  FrameworkData.well_formed data →
  c ∈ FrameworkData.channels data →
  FrameworkData._data data !! c = Some xs →
  1 ≤ len xs →
  1 ≤ step_size < window_size →
  SlidingWindowSegmenter.filling_value segmenter = "zero"
  ∨ SlidingWindowSegmenter.filling_value segmenter = "latest" →
  Interpolate.sliding_window interpolate = true →
  Interpolate.window_size interpolate = window_size →
  Interpolate.step_size interpolate = step_size →
  SlidingWindowSegmenter.segment_data fuel segmenter data = Ok epochs →
  FrameworkData.well_formed labels →
  c ∈ FrameworkData.channels labels →
  FrameworkData._data labels !! c = Some vs →
  len vs = len (FrameworkData.on_channel epochs c) →
  (Z.to_nat rounds ≤ fuel)%nat →
  ∃ out ys,
    Interpolate._process fuel interpolate {[ "main" := labels ]}
    = Ok {[ "main" := out ]} ∧
    FrameworkData._data out !! c = Some ys ∧
    len ys = rounds * step_size + window_size ∧
    len ys - len xs = window_size - (len xs - rounds * step_size) ∧
    len xs ≤ len ys < len xs + window_size.
Proof.
  intros ws step rounds Hwf Hc Hxs Hone Hstep Hfv Hmode Hws Hss Hseg
    Hwfl Hcl Hvs Hcount Hfuel.
  destruct (segment_data_on_channel fuel segmenter data c xs Hwf Hc Hxs Hstep
              Hfv Hfuel) as (_ & epochs' & Hrun & Hout).
  assert (epochs' = epochs) as -> by congruence.
  fold ws step in Hout. fold rounds in Hout.
  destruct (remaining_bounds ws step (len xs) Hstep (len_nonneg xs))
    as (HK & Hidx & Hrem & Hzero). fold rounds in HK, Hidx, Hrem, Hzero.
  assert (Hepochs : len vs = rounds + 1).
  { rewrite Hcount, Hout, len_app, len_loop_windows, len_tail_epochs by done.
    destruct (Z.eqb_spec (len xs - rounds * step) 0); lia. }
  destruct (well_formed_lookup labels c Hwfl Hcl) as (vs' & Hvs' & Hlen).
  assert (vs' = vs) as -> by congruence.
  destruct (interpolate_sliding_process fuel interpolate {[ "main" := labels ]}
              labels) as (out & Hproc & _ & Hys); try done.
  { rewrite Hws, Hss. fold ws step. lia. }
  { lia. }
  { lia. }
  specialize (Hys c vs Hcl Hvs). rewrite Hws, Hss in Hys. fold ws step in Hys.
  rewrite sliding_output_samples in Hys by lia.
  eexists out, _. split; [exact Hproc |]. split; [exact Hys |].
  rewrite len_fmap, len_seqZ by nia. lia.
Qed.

(** Witness of X17: six samples, a window of 4 stepping by 3, two epochs,
    two labels; the reconstruction has seven samples. *)
Lemma X17_segment_then_interpolate_length_witness :
  let data : FrameworkData.t Z :=
    FrameworkData.input_data_on_channel [1; 2; 3; 4; 5; 6] "ch"
      (FrameworkData.new None) in
  let labels : FrameworkData.t Z :=
    FrameworkData.input_data_on_channel [0; 1] "ch" (FrameworkData.new None) in
  ∃ out ys,
    Interpolate._process 1 (Interpolate.mk 4 true 3) {[ "main" := labels ]}
    = Ok {[ "main" := out ]} ∧
    FrameworkData._data out !! "ch" = Some ys ∧
    len ys = 7.
Proof.
  intros data labels.
  destruct (X17_segment_then_interpolate_length 1
              (SlidingWindowSegmenter.mk 4 "latest" 3) (Interpolate.mk 4 true 3)
              data
              (FrameworkData.input_data_on_channel [[1; 2; 3; 4]; [4; 5; 6; 6]]
                 "ch" (FrameworkData.new None))
              labels "ch" [1; 2; 3; 4; 5; 6] [0; 1])
    as (out & ys & Hrun & Hys & Hlen & _).
  - by_evaluation.
  - by_evaluation.
  - reflexivity.
  - vm_compute. discriminate.
  - simpl. lia.
  - by right.
  - reflexivity.
  - reflexivity.
  - reflexivity.
  - reflexivity.
  - by_evaluation.
  - by_evaluation.
  - reflexivity.
  - reflexivity.
  - vm_compute. lia.
  - exists out, ys. split; [exact Hrun |]. split; [exact Hys |].
    rewrite Hlen. reflexivity.
Defined.

(** X18. [DataReplicate] without the tail extension and [Interpolate] in
    non-sliding mode are the same transformation when
    [data_repetition_count = window_size]: on every well-formed buffer both
    return, with the same sampling frequency and the same samples on every
    channel. *)
Theorem X18_replicate_is_non_sliding_interpolate
  (fuel : nat) (replicate : DataReplicate.t) (interpolate : Interpolate.t)
  (data : gmap string (FrameworkData.t Z)) (main : FrameworkData.t Z) :
  data !! "main" = Some main →
  FrameworkData.well_formed main →
  DataReplicate.use_extra_data replicate = false →
  Interpolate.sliding_window interpolate = false →
  Interpolate.window_size interpolate
  = DataReplicate.data_repetition_count replicate →
  ∃ out_r out_i,
    DataReplicate._process replicate data = Ok {[ "main" := out_r ]} ∧
    Interpolate._process fuel interpolate data = Ok {[ "main" := out_i ]} ∧
    FrameworkData.sampling_frequency out_r
    = FrameworkData.sampling_frequency out_i ∧
    ∀ c, c ∈ FrameworkData.channels main →
         is_Some (FrameworkData._data out_r !! c) ∧
         FrameworkData._data out_r !! c = FrameworkData._data out_i !! c.
Proof.
  intros Hmain Hwf Hextra Hmode Hsame.
  destruct (data_replicate_process replicate data main Hmain)
    as (out_r & Hrun_r & Hf_r & Hout_r); [apply Hwf | |].
  { intros c Hc. destruct (well_formed_lookup main c Hwf Hc) as (xs & Hxs & _).
    exists xs. split; [done |]. rewrite Hextra. discriminate. }
  destruct (interpolate_plain_process fuel interpolate data main Hmain Hwf Hmode)
    as (out_i & Hrun_i & Hf_i & Hout_i).
  exists out_r, out_i. split; [exact Hrun_r |]. split; [exact Hrun_i |].
  split; [congruence |].
  intros c Hc. destruct (well_formed_lookup main c Hwf Hc) as (xs & Hxs & _).
  rewrite (Hout_r c xs Hc Hxs), (Hout_i c xs Hc Hxs). split; [by eexists |].
  f_equal. unfold replicated, upsampled.
  by rewrite Hextra, Hsame, app_nil_r.
Qed.

(** Witness of X18: three repetitions against a window of 3. *)
Lemma X18_replicate_is_non_sliding_interpolate_witness :
  let main : FrameworkData.t Z :=
    FrameworkData.input_data_on_channel [5; 9; 2] "ch" (FrameworkData.new None) in
  ∃ out_r out_i,
    DataReplicate._process (DataReplicate.mk 3 false 0) {[ "main" := main ]}
    = Ok {[ "main" := out_r ]} ∧
    Interpolate._process 0 (Interpolate.mk 3 false 0) {[ "main" := main ]}
    = Ok {[ "main" := out_i ]} ∧
    FrameworkData._data out_r !! "ch" = FrameworkData._data out_i !! "ch".
Proof.
  intros main.
  destruct (X18_replicate_is_non_sliding_interpolate 0
              (DataReplicate.mk 3 false 0) (Interpolate.mk 3 false 0)
              {[ "main" := main ]} main)
    as (out_r & out_i & Hr & Hi & _ & Hsame).
  - reflexivity.
  - by_evaluation.
  - reflexivity.
  - reflexivity.
  - reflexivity.
  - exists out_r, out_i. split; [exact Hr |]. split; [exact Hi |].
    apply Hsame. by_evaluation.
Defined.

(** X19. [DataReplicate] treats every channel on its own: without the tail
    extension it returns on any buffer whose listed channels exist, be they
    empty or of different lengths, and on each channel every input sample
    becomes a run of [data_repetition_count] equal output samples, the runs
    following the order of the input. *)
Theorem X19_data_replicate_runs
  (self : DataReplicate.t) (data : gmap string (FrameworkData.t Z))
  (main : FrameworkData.t Z) :
  let count := DataReplicate.data_repetition_count self in
  data !! "main" = Some main →
  NoDup (FrameworkData.channels main) →
  Forall (λ c, is_Some (FrameworkData._data main !! c))
         (FrameworkData.channels main) →
  DataReplicate.use_extra_data self = false →
  0 ≤ count →
  ∃ out,
    DataReplicate._process self data = Ok {[ "main" := out ]} ∧
    ∀ c xs, c ∈ FrameworkData.channels main →
            FrameworkData._data main !! c = Some xs →
            ∃ ys, FrameworkData._data out !! c = Some ys ∧
                  len ys = len xs * count ∧
                  ∀ (k j : nat) x,
                    xs !! k = Some x → (j < Z.to_nat count)%nat →
                    ys !! (k * Z.to_nat count + j)%nat = Some x.
Proof.
  intros count Hmain Hnd Hall Hextra Hcount.
  destruct (data_replicate_process self data main Hmain Hnd)
    as (out & Hrun & _ & Hout).
  { intros c Hc. rewrite Forall_forall in Hall.
    destruct (Hall c Hc) as [xs Hxs]. exists xs. split; [done |].
    rewrite Hextra. discriminate. }
  exists out. split; [exact Hrun |].
  intros c xs Hc Hxs. specialize (Hout c xs Hc Hxs).
  unfold replicated in Hout. rewrite Hextra, app_nil_r in Hout. fold count in Hout.
  eexists. split; [exact Hout |].
  split; [by apply len_bind_py_repeat |].
  intros k j x Hk Hj. unfold py_repeat.
  change (λ x0 : Z, replicate (Z.to_nat count) x0)
    with (@replicate Z (Z.to_nat count)).
  rewrite lookup_bind_replicate by lia.
  rewrite Nat.div_add_l, Nat.div_small by lia.
  by rewrite Nat.add_0_r.
Qed.

(** Witness of X19: two channels of different lengths, one of them empty. *)
Lemma X19_data_replicate_runs_witness :
  let main : FrameworkData.t Z :=
    FrameworkData.input_data_on_channel [] "b"
      (FrameworkData.input_data_on_channel [10; 20] "a"
         (FrameworkData.new None)) in
  ∃ out,
    DataReplicate._process (DataReplicate.mk 3 false 0) {[ "main" := main ]}
    = Ok {[ "main" := out ]} ∧
    (∃ ys, FrameworkData._data out !! "a" = Some ys ∧ len ys = 6) ∧
    (∃ ys, FrameworkData._data out !! "b" = Some ys ∧ len ys = 0).
Proof.
  intros main.
  destruct (X19_data_replicate_runs (DataReplicate.mk 3 false 0)
              {[ "main" := main ]} main) as (out & Hrun & Hout).
  - reflexivity.
  - by_evaluation.
  - by_evaluation.
  - reflexivity.
  - simpl. lia.
  - exists out. split; [exact Hrun |]. split.
    + destruct (Hout "a" [10; 20]) as (ys & Hys & Hlen & _);
        [by_evaluation | reflexivity |].
      exists ys. split; [exact Hys |]. rewrite Hlen. reflexivity.
    + destruct (Hout "b" []) as (ys & Hys & Hlen & _);
        [by_evaluation | reflexivity |].
      exists ys. split; [exact Hys |]. rewrite Hlen. reflexivity.
Defined.
